(** * plothist: histogram construction and comparison plotting

    A shallow embedding of [plothist/plotters.py].  Python floats are IEEE
    binary64 numbers, modelled by [spec_float] at precision 53; Python
    objects that are mutated in place (keyword dictionaries, histograms)
    live in a store and are passed by reference; calls into the plotting
    library are recorded in a log. *)

From Corelib Require Import SpecFloat.
From stdpp Require Import gmap strings list.

Open Scope string_scope.

(** ** Binary64 arithmetic *)

Module F64.

Definition float := spec_float.
Definition prec : Z := 53.
Definition emax : Z := 1024.

Definition add : float -> float -> float := SFadd prec emax.
Definition sub : float -> float -> float := SFsub prec emax.
Definition mul : float -> float -> float := SFmul prec emax.
Definition div : float -> float -> float := SFdiv prec emax.
Definition sqrt : float -> float := SFsqrt prec emax.
Definition ltb : float -> float -> bool := SFltb.
Definition eqb : float -> float -> bool := SFeqb.

Definition of_Z (z : Z) : float := binary_normalize prec emax z 0 false.

Definition zero : float := S754_zero false.
Definition one : float := Eval cbv in of_Z 1.
Definition half : float := S754_finite false 4503599627370496 (-53).
Definition hundred : float := Eval cbv in of_Z 100.
(** The double nearest to 0.99. *)
Definition c0_99 : float := S754_finite false 8917127262193582 (-53).
(** Largest finite double, [np.finfo(float).max]. *)
Definition max_float : float := S754_finite false 9007199254740991 971.
Definition nan : float := S754_nan.

Definition isnan (x : float) : bool :=
  match x with S754_nan => true | _ => false end.

Definition isfinite (x : float) : bool :=
  match x with S754_zero _ | S754_finite _ _ _ => true | _ => false end.

End F64.

Abbreviation float := F64.float.

(** ** Histograms of the storage library *)

Inductive Axis :=
  | Regular (bins : Z) (start stop : float)
  | Variable_ (edges : list float).

Inductive Storage := Double | Weight.

(** One cell: accumulated value and variance. *)
Definition cell : Type := float * float.

Record Histogram := mkHistogram {
  axes : list Axis;
  storage : Storage;
  view : list cell;       (* in-range cells, row-major *)
  flow : list cell        (* underflow and overflow cells *)
}.

Definition values (h : Histogram) : list float := (view h).*1.
Definition variances (h : Histogram) : list float := (view h).*2.
Definition values_flow (h : Histogram) : list float := (view h).*1 ++ (flow h).*1.

Definition axis_size (a : Axis) : nat :=
  match a with
  | Regular n _ _ => Z.to_nat n
  | Variable_ e => pred (length e)
  end.

(** ** Python values and exceptions *)

(** Numbers are doubles, also where Python has an integer.  The arrays
    derived from an axis or a histogram are kept symbolic. *)
Inductive pyval :=
  | PNone
  | PBool (b : bool)
  | PNum (x : float)
  | PStr (s : string)
  | PArr (a : list float)             (* array of doubles *)
  | PList (l : list pyval)            (* list or tuple *)
  | PObj (o : nat)                    (* figure, axes or artist, by identity *)
  | PCenters (a : Axis)               (* a.centers *)
  | PEdges (a : Axis)                 (* a.edges *)
  | PWidths (a : Axis)                (* a.widths *)
  | PLimits (a : Axis)                (* (a.edges[0], a.edges[-1]) *)
  | PMesh (h : Histogram)             (* *h.axes.edges.T, h.values().T *)
  | PFString (parts : list pyval).    (* formatted string of the parts *)

Inductive value_error :=
  | RangeNotValid (x_min x_max : pyval)
  | RangeNotFinite (x_min x_max : pyval)
  | AutoRangeNotFinite (x_min x_max : float)
  | EmptySequence
  | TwoComponents
  | SameLength
  | NeedFigAxColorbar
  | NeedFigAxMainComparison
  | NeedFigAx
  | NeedModelComponent
  | BinsNotEqual
  | UnknownUncertaintyType (t : string)
  | ShapeMismatch
  | EmptyGrid.

Inductive exn :=
  | ValueError (m : value_error)
  | TypeError
  | IndexError
  | KeyError (k : string).

Definition is_ValueError (e : exn) : bool :=
  match e with ValueError _ => true | _ => false end.

Inductive Res (A : Type) :=
  | Ok (a : A)
  | Raise (e : exn).
Arguments Ok {A} a.
Arguments Raise {A} e.

#[global] Instance Res_ret : MRet Res := @Ok.
#[global] Instance Res_bind : MBind Res := fun A B k r =>
  match r with Ok a => k a | Raise e => Raise e end.

(** Messages passed to [warnings.warn]. *)
Inductive warning :=
  | CustomBinningIgnoresRange (range : pyval * pyval)
  | LowCoverage (percent : float) (edges : option (Axis)).

(** One call into the plotting library: receiver, method, positional and
    keyword arguments, and the object the call creates ([PNone] if none). *)
Record call := mkCall {
  receiver : option nat;
  method : string;
  args : list pyval;
  kwargs : gmap string pyval;
  result : pyval
}.

(** ** The store and the monad of effects *)

Record State := mkState {
  dicts : gmap nat (gmap string pyval);   (* dictionaries by identity *)
  hists : gmap nat Histogram;             (* histograms by identity *)
  calls : list call;                      (* newest first *)
  warns : list warning;                   (* newest first *)
  next_id : nat
}.

Definition M (A : Type) : Type := State -> Res A * State.

Definition ret {A} (a : A) : M A := fun s => (Ok a, s).
Definition raise {A} (e : exn) : M A := fun s => (Raise e, s).
Definition bind {A B} (m : M A) (k : A -> M B) : M B :=
  fun s => match m s with
           | (Ok a, s') => k a s'
           | (Raise e, s') => (Raise e, s')
           end.
Definition lift {A} (r : Res A) : M A := fun s => (r, s).

#[global] Instance M_ret : MRet M := @ret.
#[global] Instance M_bind : MBind M := fun A B k m => bind m k.

Definition warn (w : warning) : M unit :=
  fun s => (Ok tt, mkState (dicts s) (hists s) (calls s) (w :: warns s) (next_id s)).

Definition emit (c : call) : M unit :=
  fun s => (Ok tt, mkState (dicts s) (hists s) (c :: calls s) (warns s) (next_id s)).

Definition fresh : M nat :=
  fun s => (Ok (next_id s),
            mkState (dicts s) (hists s) (calls s) (warns s) (S (next_id s))).

Definition empty_hist : Histogram := mkHistogram [] Weight [] [].

(** Every reference held by a Python variable is live, so the defaults
    below are never reached from a state built by allocation. *)
Definition get_hist (r : nat) : M Histogram :=
  fun s => (Ok (default empty_hist (hists s !! r)), s).
Definition set_hist (r : nat) (h : Histogram) : M unit :=
  fun s => (Ok tt, mkState (dicts s) (<[r:=h]> (hists s)) (calls s) (warns s) (next_id s)).
Definition new_hist (h : Histogram) : M nat :=
  r ← fresh; set_hist r h;; mret r.

Definition get_dict (r : nat) : M (gmap string pyval) :=
  fun s => (Ok (default ∅ (dicts s !! r)), s).
Definition set_dict (r : nat) (d : gmap string pyval) : M unit :=
  fun s => (Ok tt, mkState (<[r:=d]> (dicts s)) (hists s) (calls s) (warns s) (next_id s)).
Definition new_dict (d : gmap string pyval) : M nat :=
  r ← fresh; set_dict r d;; mret r.

(** [d.setdefault(k, v)] and [d.pop(k, v)] on a dictionary. *)
Definition setdefault (k : string) (v : pyval) (d : gmap string pyval) : gmap string pyval :=
  match d !! k with Some _ => d | None => <[k:=v]> d end.
Definition pop (k : string) (v : pyval) (d : gmap string pyval) : pyval * gmap string pyval :=
  (default v (d !! k), delete k d).

(** ** Operators on dynamically typed values *)

Definition py_eq_str (v : pyval) (s : string) : bool :=
  match v with PStr t => String.eqb t s | _ => false end.

Definition py_gt (a b : pyval) : Res bool :=
  match a, b with
  | PNum x, PNum y => Ok (F64.ltb y x)
  | PStr x, PStr y => Ok (String.ltb y x)
  | _, _ => Raise TypeError
  end.

Definition py_eq (a b : pyval) : bool :=
  match a, b with
  | PNum x, PNum y => F64.eqb x y
  | PStr x, PStr y => String.eqb x y
  | _, _ => false
  end.

Definition py_add (a b : pyval) : Res pyval :=
  match a, b with
  | PNum x, PNum y => Ok (PNum (F64.add x y))
  | _, _ => Raise TypeError
  end.

Definition py_sub (a b : pyval) : Res pyval :=
  match a, b with
  | PNum x, PNum y => Ok (PNum (F64.sub x y))
  | _, _ => Raise TypeError
  end.

Definition np_isfinite (a : pyval) : Res bool :=
  match a with
  | PNum x => Ok (F64.isfinite x)
  | _ => Raise TypeError
  end.

(** The builtins [min] and [max] on a sequence of floats: the first
    element is kept until a later one compares strictly below (above). *)
Definition py_min (data : list float) : Res float :=
  match data with
  | [] => Raise (ValueError EmptySequence)
  | x :: xs => Ok (fold_left (fun m y => if F64.ltb y m then y else m) xs x)
  end.

Definition py_max (data : list float) : Res float :=
  match data with
  | [] => Raise (ValueError EmptySequence)
  | x :: xs => Ok (fold_left (fun m y => if F64.ltb m y then y else m) xs x)
  end.

(** ** create_axis *)

Inductive bins_arg :=
  | BinsInt (n : Z)
  | BinsSeq (edges : list float).

(** [bh.axis.Regular(bins, start, stop)]: the arguments are recorded as
    passed; a bin count that is not an integer, or a bound that is not a
    number, is rejected by the binding. *)
Definition bh_axis_Regular (bins : bins_arg) (start stop : pyval) : Res Axis :=
  match bins, start, stop with
  | BinsInt n, PNum lo, PNum hi => Ok (Regular n lo hi)
  | _, _, _ => Raise TypeError
  end.

Definition resolve_min (data : list float) (r0 : pyval) : Res pyval :=
  if py_eq_str r0 "min"
  then match py_min data with Ok x => Ok (PNum x) | Raise e => Raise e end
  else Ok r0.

Definition resolve_max (data : list float) (r1 : pyval) : Res pyval :=
  if py_eq_str r1 "max"
  then match py_max data with Ok x => Ok (PNum x) | Raise e => Raise e end
  else Ok r1.

Definition create_axis (data : list float) (bins : bins_arg)
    (range : option (pyval * pyval)) : M Axis :=
  let N := match bins with BinsInt _ => 1 | BinsSeq e => length e end in
  if bool_decide (1 < N) then
    match range with
    | Some r => warn (CustomBinningIgnoresRange r)
    | None => mret tt
    end;;
    mret (Variable_ (match bins with BinsSeq e => e | BinsInt _ => [] end))
  else
    '(x_min, x_max) ←
      match range with
      | Some (r0, r1) =>
          x_min ← lift (resolve_min data r0);
          x_max ← lift (resolve_max data r1);
          gt ← lift (py_gt x_min x_max);
          if gt : bool then raise (ValueError (RangeNotValid x_min x_max)) else
          f0 ← lift (np_isfinite x_min);
          f1 ← (if f0 : bool then lift (np_isfinite x_max) else mret false);
          if negb (f0 && f1) then raise (ValueError (RangeNotFinite x_min x_max))
          else mret (x_min, x_max)
      | None =>
          if bool_decide (length data = 0) then
            mret (PNum F64.zero, PNum F64.one)
          else
            x_min ← lift (py_min data);
            x_max ← lift (py_max data);
            if negb (F64.isfinite x_min && F64.isfinite x_max)
            then raise (ValueError (AutoRangeNotFinite x_min x_max))
            else mret (PNum x_min, PNum x_max)
      end;
    '(x_min, x_max) ←
      (if py_eq x_min x_max then
         lo ← lift (py_sub x_min (PNum F64.half));
         hi ← lift (py_add x_max (PNum F64.half));
         mret (lo, hi)
       else mret (x_min, x_max));
    lift (bh_axis_Regular bins x_min x_max).

(** ** Keyword arguments and calls into the plotting library *)

#[global] Instance spec_float_eq_dec : EqDecision spec_float.
Proof. solve_decision. Defined.
#[global] Instance Axis_eq_dec : EqDecision Axis.
Proof. solve_decision. Defined.

(** Decimal constant [num/den], correctly rounded. *)
Definition lit (num den : Z) : float := F64.div (F64.of_Z num) (F64.of_Z den).
Definition num (z : Z) : pyval := PNum (F64.of_Z z).

Definition truthy (v : pyval) : bool :=
  match v with
  | PNone => false
  | PBool b => b
  | PNum x => negb (F64.eqb x F64.zero)
  | PStr s => negb (String.eqb s "")
  | PArr a => match a with [] => false | _ => true end
  | PList l => match l with [] => false | _ => true end
  | _ => true
  end.


(** Keywords written at the call site together with a splatted [**kwargs]
    dictionary: a key given twice is a [TypeError]. *)
Definition kw_merge (explicit : list (string * pyval)) (splat : gmap string pyval)
    : Res (gmap string pyval) :=
  if existsb (fun kv => match splat !! kv.1 with Some _ => true | None => false end) explicit
  then Raise TypeError
  else Ok (list_to_map explicit ∪ splat).

(** Call of a method of the plotting library; the call is logged with its
    arguments and the object it returns, if any. *)
Definition ext_call (recv : option nat) (meth : string) (pos : list pyval)
    (explicit : list (string * pyval)) (splat : gmap string pyval) : M unit :=
  kw ← lift (kw_merge explicit splat);
  emit (mkCall recv meth pos kw PNone).

(** [plt.subplots(...)] creating a figure and [n] axes; a grid without
    rows or columns is rejected. *)
Definition plt_subplots (n : nat) (kw : list (string * pyval)) : M (nat * list nat) :=
  if bool_decide (n = 0) then raise (ValueError EmptyGrid) else
  fig ← fresh;
  axs ← mapM (fun _ : unit => fresh) (replicate n tt);
  emit (mkCall None "plt.subplots" [] (list_to_map kw)
          (PList [PObj fig; PList (PObj <$> axs)]));;
  mret (fig, axs).

Definition get_hists (rs : list nat) : M (list Histogram) :=
  mapM get_hist rs.

(** [hist.axes[0]] *)
Definition axis0 (h : Histogram) : Res Axis :=
  match axes h with a :: _ => Ok a | [] => Raise IndexError end.

(** ** create_comparison_figure *)

Definition create_comparison_figure (nrows : nat) : M (nat * list nat) :=
  '(fig, axs) ← plt_subplots nrows
     [("nrows", num (Z.of_nat nrows)); ("figsize", PList [num 6; num 5]);
      ("gridspec_kw", PList [PStr "height_ratios"; PList [num 4; num 1]])];
  (if bool_decide (1 < nrows)
   then ext_call (Some fig) "subplots_adjust" [] [("hspace", PNum (lit 15 100))] ∅
   else mret tt);;
  (if bool_decide (nrows = 1) then raise TypeError else mret tt);;
  mapM (fun ax => ext_call (Some ax) "xaxis.set_ticklabels" [PList []] [] ∅)
       (take (pred (length axs)) axs);;
  mret (fig, axs).

(** ** _flatten_2d_hist *)

Definition zero_cell : cell := (F64.zero, F64.zero).

Definition _flatten_2d_hist (hist : nat) : M nat :=
  h ← get_hist hist;
  match axes h with
  | a0 :: a1 :: _ =>
      let n_bins := axis_size a0 * axis_size a1 in
      if bool_decide (length (view h) = n_bins) then
        new_hist (mkHistogram
                    [Regular (Z.of_nat n_bins) F64.zero (F64.of_Z (Z.of_nat n_bins))]
                    Weight (zip (values h) (variances h)) [zero_cell; zero_cell])
      else raise (ValueError ShapeMismatch)
  | _ => raise IndexError
  end.

(** ** Operations of the array and histogram libraries

    The source calls these and leaves their arithmetic to the libraries:
    filling a histogram, summing an array, and [np.allclose] with
    [equal_nan=True]. *)

Inductive weights_arg :=
  | WNone
  | WScalar (w : float)
  | WArr (w : list float).

Class Libraries := {
  bh_fill : list Axis -> Storage -> list (list float) -> weights_arg ->
            Res (list cell * list cell);
  np_sum : list float -> float;
  np_allclose : list float -> list float -> bool
}.

(** [np.nan_to_num(x, nan=v)]: NaN becomes [v], the infinities become the
    largest finite doubles. *)
Definition np_nan_to_num (v : float) (x : list float) : list float :=
  (fun y => match y with
            | S754_nan => v
            | S754_infinity false => F64.max_float
            | S754_infinity true => SFopp F64.max_float
            | _ => y
            end) <$> x.

Definition with_values (h : Histogram) (v : list float) : Histogram :=
  mkHistogram (axes h) (storage h) (zip v (variances h)) (flow h).

(** [np.nan_to_num(hist.values(), copy)].  The second positional parameter
    of [nan_to_num] is [copy]; [hist.values()] is a view on the cells of
    the histogram, so that without a copy the replacement is written to
    the histogram itself. *)
Definition nan_to_num_values (hist : nat) (copy : bool) : M (list float) :=
  h ← get_hist hist;
  let out := np_nan_to_num F64.zero (values h) in
  (if copy then mret tt else set_hist hist (with_values h out));;
  mret out.

(** ** Functions of plothist.comparison and plothist.plothist_style *)

(** Modelled from the spec: [_check_binning_consistency] of
    plothist.comparison is not among the sources.  The spec has the code
    raise on mismatched binning; histograms mismatch when their bin edges
    or bin counts differ, that is when their axes differ from those of the
    first histogram.  The exception class is that of every other invalid
    argument in this file. *)
Definition _check_binning_consistency (hist_list : list Histogram) : Res unit :=
  match hist_list with
  | [] => Ok tt
  | h0 :: _ =>
      if forallb (fun h => bool_decide (axes h = axes h0)) hist_list
      then Ok tt else Raise (ValueError BinsNotEqual)
  end.

(** Modelled from the spec: [_check_uncertainty_type] of
    plothist.comparison is not among the sources.  The two documented
    kinds of uncertainty are accepted, anything else is an invalid
    argument. *)
Definition _check_uncertainty_type (uncertainty_type : pyval) : Res unit :=
  match uncertainty_type with
  | PStr t =>
      if String.eqb t "symmetrical" || String.eqb t "asymmetrical"
      then Ok tt else Raise (ValueError (UnknownUncertaintyType t))
  | _ => Raise (ValueError (UnknownUncertaintyType ""))
  end.

(** Modelled from the spec: [get_comparison], [_is_unweighted] and
    [get_asymmetrical_uncertainties] of plothist.comparison are not among
    the sources.  The spec has the comparison computed bin-wise between
    the two histograms, with lower and upper uncertainties: [comparison_cell]
    is the formula for one bin, [comparison_check] the validation of the
    arguments. *)
Class Comparison := {
  comparison_cell : pyval -> pyval -> pyval -> cell -> cell -> float * float * float;
  comparison_check : pyval -> pyval -> pyval -> Histogram -> Histogram -> option exn;
  _is_unweighted : Histogram -> bool;
  get_asymmetrical_uncertainties : Histogram -> Res (list float * list float)
}.

Definition get_comparison `{Comparison} (h1 h2 : Histogram)
    (comparison ratio_uncertainty hist_1_uncertainty : pyval)
    : Res (list float * list float * list float) :=
  match comparison_check comparison ratio_uncertainty hist_1_uncertainty h1 h2 with
  | Some e => Raise e
  | None =>
      let r := zip_with (comparison_cell comparison ratio_uncertainty hist_1_uncertainty)
                        (view h1) (view h2) in
      Ok (r.*1.*1, r.*1.*2, r.*2)
  end.

(** Modelled from the spec: [set_fitting_ylabel_fontsize] of
    plothist.plothist_style is not among the sources; styling is outside
    the spec, so the call is only recorded, and the font size it returns
    is the object it creates. *)
Definition set_fitting_ylabel_fontsize (ax : nat) : M pyval :=
  size ← fresh;
  emit (mkCall (Some ax) "set_fitting_ylabel_fontsize" [] ∅ (PObj size));;
  mret (PObj size).

(** ** plot_hist *)

Inductive hist_arg :=
  | One (hist : nat)
  | Many (hist : list nat).

Definition plot_hist (hist : hist_arg) (ax : nat) (kwargs : gmap string pyval) : M unit :=
  match hist with
  | One hist =>
      h ← get_hist hist;
      a ← lift (axis0 h);
      weights ← nan_to_num_values hist false;
      ext_call (Some ax) "hist" []
        [("x", PCenters a); ("bins", PEdges a); ("weights", PArr weights)] kwargs
  | Many hist =>
      hs ← get_hists hist;
      lift (_check_binning_consistency hs);;
      x ← mapM (fun h => a ← lift (axis0 h); mret (PCenters a)) hs;
      bins ← match hs with
             | h0 :: _ => a ← lift (axis0 h0); mret (PEdges a)
             | [] => raise IndexError
             end;
      weights ← mapM (fun r => w ← nan_to_num_values r false; mret (PArr w)) hist;
      ext_call (Some ax) "hist" []
        [("x", PList x); ("bins", bins); ("weights", PList weights)] kwargs
  end.

(** ** make_hist and make_2d_hist *)

Definition make_hist `{Libraries} (data : list float) (bins : bins_arg)
    (range : option (pyval * pyval)) (weights : weights_arg) : M nat :=
  axis ← create_axis data bins range;
  let storage := match weights with WNone => Double | _ => Weight end in
  '(cells, flows) ← lift (bh_fill [axis] storage [data] weights);
  h ← new_hist (mkHistogram [axis] storage cells flows);
  hv ← get_hist h;
  let range_coverage := F64.div (np_sum (values hv)) (np_sum (values_flow hv)) in
  (if F64.ltb range_coverage F64.c0_99
   then warn (LowCoverage (F64.mul F64.hundred range_coverage) (Some axis))
   else mret tt);;
  mret h.

Definition make_2d_hist `{Libraries} (data : list (list float))
    (bins : bins_arg * bins_arg)
    (range : option (pyval * pyval) * option (pyval * pyval))
    (weights : weights_arg) : M nat :=
  match data with
  | [x; y] =>
      if negb (bool_decide (length x = length y))
      then raise (ValueError SameLength) else
      ax0 ← create_axis x bins.1 range.1;
      ax1 ← create_axis y bins.2 range.2;
      '(cells, flows) ← lift (bh_fill [ax0; ax1] Weight data weights);
      h ← new_hist (mkHistogram [ax0; ax1] Weight cells flows);
      hv ← get_hist h;
      let range_coverage := F64.div (np_sum (values hv)) (np_sum (values_flow hv)) in
      (if F64.ltb range_coverage F64.c0_99
       then warn (LowCoverage (F64.mul F64.hundred range_coverage) None)
       else mret tt);;
      mret h
  | _ => raise (ValueError TwoComponents)
  end.

(** ** plot_2d_hist *)

Definition plot_2d_hist (hist : nat) (fig ax ax_colorbar : option nat)
    (pcolormesh_kwargs colorbar_kwargs : nat) (square_ax : bool)
    : M (nat * nat * nat) :=
  d ← get_dict pcolormesh_kwargs;
  set_dict pcolormesh_kwargs (setdefault "edgecolors" (PStr "face") d);;
  '(fig, ax, ax_colorbar) ←
    match fig, ax, ax_colorbar with
    | None, None, None =>
        '(fig, axs) ← plt_subplots 2
           [("figsize", PList [num 6; PNum (lit 45 10)]); ("ncols", num 2);
            ("gridspec_kw", PList [PStr "width_ratios"; PList [num 4; PNum (lit 23 100)]])];
        match axs with
        | [ax; ax_colorbar] => mret (fig, ax, ax_colorbar)
        | _ => raise TypeError
        end
    | Some fig, Some ax, Some ax_colorbar => mret (fig, ax, ax_colorbar)
    | _, _, _ => raise (ValueError NeedFigAxColorbar)
    end;
  (if square_ax then
     ext_call (Some ax) "set_box_aspect" [num 1] [] ∅;;
     ext_call (Some fig) "subplots_adjust" [] [("wspace", num 0); ("hspace", num 0)] ∅
   else mret tt);;
  h ← get_hist hist;
  pk ← get_dict pcolormesh_kwargs;
  kw ← lift (kw_merge [] pk);
  im ← fresh;
  emit (mkCall (Some ax) "pcolormesh" [PMesh h] kw (PObj im));;
  ck ← get_dict colorbar_kwargs;
  ext_call (Some ax) "get_figure().colorbar" [PObj im] [("cax", PObj ax_colorbar)] ck;;
  mret (fig, ax, ax_colorbar).

(** ** plot_error_hist and plot_hist_uncertainties *)

(** [kwargs] holds every keyword argument of the call other than [hist]
    and [ax]; the parameter [uncertainty_type] is taken out of it. *)
Definition plot_error_hist `{Comparison} (hist : nat) (ax : nat)
    (kwargs : gmap string pyval) : M unit :=
  let uncertainty_type := default (PStr "symmetrical") (kwargs !! "uncertainty_type") in
  let kwargs := delete "uncertainty_type" kwargs in
  lift (_check_uncertainty_type uncertainty_type);;
  h ← get_hist hist;
  kwargs ←
    (if py_eq_str uncertainty_type "symmetrical" then
       mret (setdefault "yerr" (PArr (F64.sqrt <$> variances h)) kwargs)
     else
       '(uncertainties_low, uncertainties_high) ← lift (get_asymmetrical_uncertainties h);
       mret (setdefault "yerr" (PList [PArr uncertainties_low; PArr uncertainties_high])
                        kwargs));
  let kwargs := setdefault "fmt" (PStr ".") kwargs in
  a ← lift (axis0 h);
  ext_call (Some ax) "errorbar" [] [("x", PCenters a); ("y", PArr (values h))] kwargs.

Definition plot_hist_uncertainties (hist : nat) (ax : nat)
    (kwargs : gmap string pyval) : M unit :=
  h ← get_hist hist;
  let uncertainty := F64.sqrt <$> variances h in
  let kwargs := setdefault "edgecolor" (PStr "dimgrey") kwargs in
  let kwargs := setdefault "hatch" (PStr "////") kwargs in
  let kwargs := setdefault "fill" (PBool false) kwargs in
  let kwargs := setdefault "lw" (num 0) kwargs in
  a ← lift (axis0 h);
  ext_call (Some ax) "bar" []
    [("x", PCenters a);
     ("bottom", PArr (zip_with F64.sub (values h) uncertainty));
     ("height", PArr (F64.mul (F64.of_Z 2) <$> uncertainty));
     ("width", PWidths a)] kwargs.

(** ** _get_math_text *)

Definition newline : Ascii.ascii := Ascii.ascii_of_nat 10.
Definition dollar : Ascii.ascii := Ascii.ascii_of_nat 36.

(** The text up to the next dollar sign; [.] does not match a newline. *)
Fixpoint until_dollar (s : string) : option string :=
  match s with
  | EmptyString => None
  | String c r =>
      if Ascii.eqb c dollar then Some EmptyString
      else if Ascii.eqb c newline then None
      else String c <$> until_dollar r
  end.

(** [re.search(r"\$(.*?)\$", text)]: leftmost match, shortest group. *)
Fixpoint search_math (s : string) : option string :=
  match s with
  | EmptyString => None
  | String c r =>
      if Ascii.eqb c dollar then
        match until_dollar r with
        | Some m => Some m
        | None => search_math r
        end
      else search_math r
  end.

Definition _get_math_text (text : pyval) : Res string :=
  match text with
  | PStr text => Ok (default text (search_math text))
  | _ => Raise TypeError
  end.

(** ** plot_comparison *)

Definition kw_get (k : string) (dflt : pyval) (kw : gmap string pyval) : pyval :=
  default dflt (kw !! k).

(** A keyword of the splatted dictionary that names a parameter already
    given at the call site is a [TypeError]. *)
Definition kw_reject (keys : list string) (kw : gmap string pyval) : Res unit :=
  if existsb (fun k => match kw !! k with Some _ => true | None => false end) keys
  then Raise TypeError else Ok tt.

Definition as_num (v : pyval) : Res float :=
  match v with PNum x => Ok x | _ => Raise TypeError end.

(** [d[k]] *)
Definition py_getitem (k : string) (d : gmap string pyval) : Res pyval :=
  match d !! k with Some v => Ok v | None => Raise (KeyError k) end.

(** [v[0]] and [v[-1]] of a tuple or list. *)
Definition py_first (v : pyval) : Res pyval :=
  match v with
  | PList (x :: _) => Ok x
  | PList [] => Raise IndexError
  | _ => Raise TypeError
  end.
Definition py_last (v : pyval) : Res pyval :=
  match v with
  | PList (x :: l) => Ok (List.last l x)
  | PList [] => Raise IndexError
  | _ => Raise TypeError
  end.

Definition is_PNone (v : pyval) : bool :=
  match v with PNone => true | _ => false end.

(** [bh.Histogram(axis, storage=...)]: every cell is zero. *)
Definition new_histogram (a : Axis) (st : Storage) : M nat :=
  new_hist (mkHistogram [a] st (replicate (axis_size a) zero_cell) [zero_cell; zero_cell]).

(** [hist[:] = np.c_[values, variances]] *)
Definition hist_assign (hist : nat) (cells : list cell) : M unit :=
  h ← get_hist hist;
  if bool_decide (length cells = length (view h))
  then set_hist hist (mkHistogram (axes h) (storage h) cells (flow h))
  else raise (ValueError ShapeMismatch).

Definition plot_comparison_params : list string :=
  ["xlabel"; "h1_label"; "h2_label"; "comparison"; "comparison_ylabel";
   "comparison_ylim"; "ratio_uncertainty"; "hist_1_uncertainty"].

Definition dashed : list (string * pyval) :=
  [("ls", PStr "--"); ("lw", num 1); ("color", PStr "black")].

Definition plot_comparison `{Libraries} `{Comparison} (hist_1 hist_2 : nat) (ax : nat)
    (kw : gmap string pyval) : M nat :=
  let xlabel := kw_get "xlabel" (PStr "") kw in
  let h1_label := kw_get "h1_label" (PStr "h1") kw in
  let h2_label := kw_get "h2_label" (PStr "h2") kw in
  let comparison := kw_get "comparison" (PStr "ratio") kw in
  let comparison_ylabel := kw_get "comparison_ylabel" PNone kw in
  let comparison_ylim := kw_get "comparison_ylim" PNone kw in
  let ratio_uncertainty := kw_get "ratio_uncertainty" (PStr "uncorrelated") kw in
  let hist_1_uncertainty := kw_get "hist_1_uncertainty" (PStr "symmetrical") kw in
  let plot_hist_kwargs := foldr delete kw plot_comparison_params in
  h1_label ← lift (_get_math_text h1_label);
  h2_label ← lift (_get_math_text h2_label);
  h1 ← get_hist hist_1;
  h2 ← get_hist hist_2;
  lift (_check_binning_consistency [h1; h2]);;
  '(comparison_values, lower_uncertainties, upper_uncertainties) ←
    lift (get_comparison h1 h2 comparison ratio_uncertainty hist_1_uncertainty);
  '(hist_comparison, plot_hist_kwargs) ←
    (if np_allclose lower_uncertainties upper_uncertainties then
       a ← lift (axis0 h2);
       hist_comparison ← new_histogram a Weight;
       hist_assign hist_comparison
         (zip comparison_values ((fun u => F64.mul u u) <$> lower_uncertainties));;
       mret (hist_comparison, plot_hist_kwargs)
     else
       let plot_hist_kwargs :=
         setdefault "yerr" (PList [PArr lower_uncertainties; PArr upper_uncertainties])
                    plot_hist_kwargs in
       a ← lift (axis0 h2);
       hist_comparison ← new_histogram a Weight;
       hist_assign hist_comparison
         (zip comparison_values ((fun _ => F64.zero) <$> comparison_values));;
       mret (hist_comparison, plot_hist_kwargs));
  (if py_eq_str comparison "pull" then
     let plot_hist_kwargs := setdefault "histtype" (PStr "stepfilled") plot_hist_kwargs in
     let plot_hist_kwargs := setdefault "color" (PStr "darkgrey") plot_hist_kwargs in
     lift (kw_reject ["hist"] plot_hist_kwargs);;
     plot_hist (One hist_comparison) ax plot_hist_kwargs
   else
     let plot_hist_kwargs := setdefault "color" (PStr "black") plot_hist_kwargs in
     lift (kw_reject ["hist"] plot_hist_kwargs);;
     plot_error_hist hist_comparison ax plot_hist_kwargs);;
  comparison_ylim ←
    (let relative := py_eq_str comparison "relative_difference" in
     if py_eq_str comparison "ratio" || relative then
       let comparison_ylim :=
         if is_PNone comparison_ylim then
           if relative then PList [PNum (SFopp F64.one); PNum F64.one]
           else PList [PNum F64.zero; num 2]
         else comparison_ylim in
       bottom_shift ←
         (if relative then
            ext_call (Some ax) "axhline" [num 0] dashed ∅;;
            ext_call (Some ax) "set_ylabel"
              [PStr (String.concat ""
                 ["$\frac{"; h1_label; " - "; h2_label; "}{"; h2_label; "}$"])] [] ∅;;
            mret F64.zero
          else
            ext_call (Some ax) "axhline" [num 1] dashed ∅;;
            ext_call (Some ax) "set_ylabel"
              [PStr (String.concat "" ["$\frac{"; h1_label; "}{"; h2_label; "}$"])] [] ∅;;
            mret F64.one);
       (if py_eq_str ratio_uncertainty "split" then
          ext_call None "np.seterr" [] [("divide", PStr "ignore"); ("invalid", PStr "ignore")] ∅;;
          h2 ← get_hist hist_2;
          let h2_scaled_uncertainties :=
            (fun c : cell => if negb (F64.eqb c.1 F64.zero)
                             then F64.div (F64.sqrt c.2) c.1 else F64.nan) <$> view h2 in
          ext_call None "np.seterr" [] [("divide", PStr "warn"); ("invalid", PStr "warn")] ∅;;
          a ← lift (axis0 h2);
          lo ← lift (x ← py_first comparison_ylim; as_num x);
          hi ← lift (x ← py_last comparison_ylim; as_num x);
          lo' ← lift (x ← py_first comparison_ylim; as_num x);
          ext_call (Some ax) "bar" []
            [("x", PCenters a);
             ("bottom", PArr (np_nan_to_num lo
                                (F64.sub bottom_shift <$> h2_scaled_uncertainties)));
             ("height", PArr (np_nan_to_num (F64.sub hi lo')
                                (F64.mul (F64.of_Z 2) <$> h2_scaled_uncertainties)));
             ("width", PWidths a); ("edgecolor", PStr "dimgrey"); ("hatch", PStr "////");
             ("fill", PBool false); ("lw", num 0)] ∅
        else mret tt);;
       mret comparison_ylim
     else if py_eq_str comparison "pull" then
       let comparison_ylim :=
         if is_PNone comparison_ylim
         then PList [PNum (SFopp (F64.of_Z 5)); num 5] else comparison_ylim in
       ext_call (Some ax) "axhline" [num 0] dashed ∅;;
       ext_call (Some ax) "set_ylabel"
         [PStr (String.concat ""
            ["$\frac{ "; h1_label; " - "; h2_label; " }{ \sqrt{\sigma^2_{"; h1_label;
             "} + \sigma^2_{"; h2_label; "}} } $"])] [] ∅;;
       mret comparison_ylim
     else if py_eq_str comparison "difference" then
       ext_call (Some ax) "axhline" [num 0] dashed ∅;;
       ext_call (Some ax) "set_ylabel"
         [PStr (String.concat "" ["$"; h1_label; " - "; h2_label; "$"])] [] ∅;;
       mret comparison_ylim
     else mret comparison_ylim);
  h1 ← get_hist hist_1;
  a1 ← lift (axis0 h1);
  ext_call (Some ax) "set_xlim" [PLimits a1] [] ∅;;
  ext_call (Some ax) "set_xlabel" [xlabel] [] ∅;;
  (if negb (is_PNone comparison_ylim)
   then ext_call (Some ax) "set_ylim" [comparison_ylim] [] ∅ else mret tt);;
  (if negb (is_PNone comparison_ylabel)
   then ext_call (Some ax) "set_ylabel" [comparison_ylabel] [] ∅ else mret tt);;
  mret ax.

(** ** compare_two_hist *)

Definition compare_two_hist `{Libraries} `{Comparison} (hist_1 hist_2 : nat)
    (xlabel ylabel h1_label h2_label : pyval)
    (fig ax_main ax_comparison : option nat)
    (comparison_kwargs : gmap string pyval) : M (nat * nat * nat) :=
  h1 ← get_hist hist_1;
  h2 ← get_hist hist_2;
  lift (_check_binning_consistency [h1; h2]);;
  '(fig, ax_main, ax_comparison) ←
    match fig, ax_main, ax_comparison with
    | None, None, None =>
        '(fig, axs) ← create_comparison_figure 2;
        match axs with
        | [ax_main; ax_comparison] => mret (fig, ax_main, ax_comparison)
        | _ => raise TypeError
        end
    | Some fig, Some ax_main, Some ax_comparison => mret (fig, ax_main, ax_comparison)
    | _, _, _ => raise (ValueError NeedFigAxMainComparison)
    end;
  h1 ← get_hist hist_1;
  xlim ← lift (axis0 h1);
  plot_hist (One hist_1) ax_main
    (list_to_map [("label", h1_label); ("histtype", PStr "step")]);;
  plot_hist (One hist_2) ax_main
    (list_to_map [("label", h2_label); ("histtype", PStr "step")]);;
  ext_call (Some ax_main) "set_xlim" [PLimits xlim] [] ∅;;
  ext_call (Some ax_main) "set_ylabel" [ylabel] [] ∅;;
  ext_call (Some ax_main) "legend" [] [] ∅;;
  ext_call (Some ax_main) "xaxis.set_ticklabels" [PList []] [] ∅;;
  lift (kw_reject ["ax"] comparison_kwargs);;
  kw ← lift (kw_merge [("xlabel", xlabel); ("h1_label", h1_label); ("h2_label", h2_label)]
                      comparison_kwargs);
  plot_comparison hist_1 hist_2 ax_comparison kw;;
  ext_call (Some fig) "align_ylabels" [] [] ∅;;
  mret (fig, ax_main, ax_comparison).

(** ** plot_model *)

Definition cell_add (a b : cell) : cell := (F64.add a.1 b.1, F64.add a.2 b.2).

Definition hist_add (h1 h2 : Histogram) : Histogram :=
  mkHistogram (axes h1) (storage h1)
    (zip_with cell_add (view h1) (view h2)) (zip_with cell_add (flow h1) (flow h2)).

(** [sum(components)]: a new histogram; the initial [0] leaves the first
    term unchanged. *)
Definition py_sum (components : list nat) : M nat :=
  hs ← get_hists components;
  match hs with
  | h :: rest => new_hist (fold_left hist_add rest h)
  | [] => raise TypeError
  end.

(** The components of a model and how they are drawn. *)
Record model := mkModel {
  stacked_components : list nat;
  stacked_labels : pyval;
  stacked_colors : pyval;
  unstacked_components : list nat;
  unstacked_labels : pyval;
  unstacked_colors : pyval
}.

Definition plot_model (m : model) (xlabel ylabel : pyval) (sum_kwargs : nat)
    (flatten_2d_hist : bool) (leg_ncol : pyval) (fig ax : option nat) : M (nat * nat) :=
  stacked_components ←
    (if flatten_2d_hist then mapM _flatten_2d_hist (stacked_components m)
     else mret (stacked_components m));
  unstacked_components ←
    (if flatten_2d_hist then mapM _flatten_2d_hist (unstacked_components m)
     else mret (unstacked_components m));
  let components := (stacked_components ++ unstacked_components)%list in
  if bool_decide (length components = 0)
  then raise (ValueError NeedModelComponent) else
  hs ← get_hists components;
  lift (_check_binning_consistency hs);;
  '(fig, ax) ←
    match fig, ax with
    | None, None =>
        '(fig, axs) ← plt_subplots 1 [];
        match axs with [ax] => mret (fig, ax) | _ => raise TypeError end
    | Some fig, Some ax => mret (fig, ax)
    | _, _ => raise (ValueError NeedFigAx)
    end;
  (if bool_decide (0 < length stacked_components) then
     plot_hist (Many stacked_components) ax
       (list_to_map [("stacked", PBool true); ("edgecolor", PStr "black");
                     ("histtype", PStr "stepfilled"); ("linewidth", PNum F64.half);
                     ("color", stacked_colors m); ("label", stacked_labels m)])
   else mret tt);;
  (if bool_decide (0 < length unstacked_components) then
     plot_hist (Many unstacked_components) ax
       (list_to_map [("color", unstacked_colors m); ("label", unstacked_labels m);
                     ("stacked", PBool false); ("histtype", PStr "step")]);;
     d ← get_dict sum_kwargs;
     let '(show, d) := pop "show" (PBool true) d in
     set_dict sum_kwargs d;;
     if truthy show then
       total ← py_sum components;
       lift (kw_reject ["hist"; "ax"] d);;
       kw ← lift (kw_merge [("histtype", PStr "step")] d);
       plot_hist (One total) ax kw
     else mret tt
   else mret tt);;
  c0 ← match components with
       | c :: _ => get_hist c
       | [] => raise IndexError
       end;
  xlim ← lift (axis0 c0);
  ext_call (Some ax) "set_xlim" [PLimits xlim] [] ∅;;
  ext_call (Some ax) "set_xlabel" [xlabel] [] ∅;;
  ext_call (Some ax) "set_ylabel" [ylabel] [] ∅;;
  set_fitting_ylabel_fontsize ax;;
  ext_call (Some ax) "legend" [] [("ncol", leg_ncol)] ∅;;
  mret (fig, ax).

(** ** compare_data_model *)

Definition compare_data_model `{Libraries} `{Comparison} (data_hist : nat) (m : model)
    (xlabel ylabel data_label : pyval) (model_sum_kwargs : nat)
    (flatten_2d_hist model_uncertainty : bool) (model_uncertainty_label : pyval)
    (fig ax_main ax_comparison : option nat)
    (comparison_kwargs : gmap string pyval) : M (nat * nat * nat) :=
  let comparison_kwargs := setdefault "h1_label" data_label comparison_kwargs in
  let comparison_kwargs := setdefault "h2_label" (PStr "Pred.") comparison_kwargs in
  let comparison_kwargs := setdefault "comparison" (PStr "ratio") comparison_kwargs in
  let comparison_kwargs := setdefault "ratio_uncertainty" (PStr "split") comparison_kwargs in
  data_hist ← (if flatten_2d_hist then _flatten_2d_hist data_hist else mret data_hist);
  stacked_components ←
    (if flatten_2d_hist then mapM _flatten_2d_hist (stacked_components m)
     else mret (stacked_components m));
  unstacked_components ←
    (if flatten_2d_hist then mapM _flatten_2d_hist (unstacked_components m)
     else mret (unstacked_components m));
  let model_components := (stacked_components ++ unstacked_components)%list in
  if bool_decide (length model_components = 0)
  then raise (ValueError NeedModelComponent) else
  hs ← get_hists (model_components ++ [data_hist])%list;
  lift (_check_binning_consistency hs);;
  '(fig, ax_main, ax_comparison) ←
    match fig, ax_main, ax_comparison with
    | None, None, None =>
        '(fig, axs) ← create_comparison_figure 2;
        match axs with
        | [ax_main; ax_comparison] => mret (fig, ax_main, ax_comparison)
        | _ => raise TypeError
        end
    | Some fig, Some ax_main, Some ax_comparison => mret (fig, ax_main, ax_comparison)
    | _, _, _ => raise (ValueError NeedFigAxMainComparison)
    end;
  model_hist ← py_sum model_components;
  plot_model
    (mkModel stacked_components (stacked_labels m) (stacked_colors m)
             unstacked_components (unstacked_labels m) (unstacked_colors m))
    PNone ylabel model_sum_kwargs false (num 1) (Some fig) (Some ax_main);;
  (if negb model_uncertainty then
     mh ← get_hist model_hist;
     hist_assign model_hist (zip (values mh) ((fun _ => F64.zero) <$> values mh))
   else mret tt);;
  dh ← get_hist data_hist;
  let data_uncertainty_type :=
    if _is_unweighted dh then PStr "asymmetrical" else PStr "symmetrical" in
  plot_error_hist data_hist ax_main
    (list_to_map [("uncertainty_type", data_uncertainty_type);
                  ("color", PStr "black"); ("label", data_label)]);;
  ext_call (Some ax_main) "xaxis.set_ticklabels" [PList []] [] ∅;;
  comparison_kwargs ←
    (if model_uncertainty then
       plot_hist_uncertainties model_hist ax_main
         (list_to_map [("label", model_uncertainty_label)]);;
       mret comparison_kwargs
     else
       comparison ← lift (py_getitem "comparison" comparison_kwargs);
       if py_eq_str comparison "pull" then
         h1 ← lift (py_getitem "h1_label" comparison_kwargs);
         h2 ← lift (py_getitem "h2_label" comparison_kwargs);
         mret (setdefault "comparison_ylabel"
                 (PFString [PStr "$\frac{ "; h1; PStr " - "; h2; PStr " }{ \sigma_{"; h1;
                            PStr "} } $"])
                 comparison_kwargs)
       else mret comparison_kwargs);
  ext_call (Some ax_main) "legend" [] [] ∅;;
  lift (kw_reject ["hist_1"; "hist_2"; "ax"] comparison_kwargs);;
  kw ← lift (kw_merge [("xlabel", xlabel); ("hist_1_uncertainty", data_uncertainty_type)]
                      comparison_kwargs);
  plot_comparison data_hist model_hist ax_comparison kw;;
  ylabel_fontsize ← set_fitting_ylabel_fontsize ax_main;
  ext_call (Some ax_comparison) "get_yaxis().get_label().set_size" [ylabel_fontsize] [] ∅;;
  ext_call (Some fig) "align_ylabels" [] [] ∅;;
  mret (fig, ax_main, ax_comparison).

(** ** plot_mc and compare_data_mc *)

Definition mc_model (stacked : bool) (mc_hist_list : list nat) (mc_labels mc_colors : pyval)
    : model :=
  if stacked then mkModel mc_hist_list mc_labels mc_colors [] PNone PNone
  else mkModel [] PNone PNone mc_hist_list mc_labels mc_colors.

Definition sum_mc_kwargs : gmap string pyval :=
  list_to_map [("show", PBool true); ("label", PStr "Sum(MC)"); ("color", PStr "navy")].

Definition plot_mc (mc_hist_list : list nat) (signal_hist : option nat)
    (xlabel ylabel mc_labels mc_colors signal_label signal_color : pyval)
    (fig ax : option nat) (flatten_2d_hist stacked : bool) (leg_ncol : pyval)
    : M (nat * nat) :=
  hs ← get_hists (mc_hist_list ++ match signal_hist with Some s => [s] | None => [] end)%list;
  lift (_check_binning_consistency hs);;
  let model := mc_model stacked mc_hist_list mc_labels mc_colors in
  sum_kwargs ← new_dict sum_mc_kwargs;
  '(fig, ax) ← plot_model model xlabel ylabel sum_kwargs flatten_2d_hist leg_ncol fig ax;
  match signal_hist with
  | Some signal_hist =>
      signal_hist ← (if flatten_2d_hist then _flatten_2d_hist signal_hist
                     else mret signal_hist);
      plot_hist (One signal_hist) ax
        (list_to_map [("stacked", PBool false); ("color", signal_color);
                      ("label", signal_label); ("histtype", PStr "step")])
  | None => mret tt
  end;;
  mret (fig, ax).

Definition compare_data_mc `{Libraries} `{Comparison} (data_hist : nat)
    (mc_hist_list : list nat) (signal_hist : option nat)
    (xlabel ylabel mc_labels mc_colors signal_label signal_color data_label : pyval)
    (flatten_2d_hist stacked mc_uncertainty : bool) (mc_uncertainty_label : pyval)
    (fig ax_main ax_comparison : option nat)
    (comparison_kwargs : gmap string pyval) : M (nat * nat * nat) :=
  hs ← get_hists (mc_hist_list ++ [data_hist] ++
                  match signal_hist with Some s => [s] | None => [] end)%list;
  lift (_check_binning_consistency hs);;
  let model := mc_model stacked mc_hist_list mc_labels mc_colors in
  model_sum_kwargs ← new_dict sum_mc_kwargs;
  '(fig, ax_main, ax_comparison) ←
    compare_data_model data_hist model xlabel ylabel data_label model_sum_kwargs
      flatten_2d_hist mc_uncertainty mc_uncertainty_label fig ax_main ax_comparison
      comparison_kwargs;
  match signal_hist with
  | Some signal_hist =>
      signal_hist ← (if flatten_2d_hist then _flatten_2d_hist signal_hist
                     else mret signal_hist);
      plot_hist (One signal_hist) ax_main
        (list_to_map [("stacked", PBool false); ("color", signal_color);
                      ("label", signal_label); ("histtype", PStr "step")])
  | None => mret tt
  end;;
  ext_call (Some ax_main) "legend" [] [] ∅;;
  mret (fig, ax_main, ax_comparison).

(** ** The module after import

    The dictionaries written as default values in the signatures are
    created once, when the module is loaded, and shared by all calls. *)

Definition plot_model_sum_kwargs : nat := 0.
Definition compare_data_model_model_sum_kwargs : nat := 1.
Definition plot_2d_hist_pcolormesh_kwargs : nat := 2.
Definition plot_2d_hist_colorbar_kwargs : nat := 3.

Definition sum_kwargs_default : gmap string pyval :=
  list_to_map [("show", PBool true); ("label", PStr "Sum"); ("color", PStr "navy")].

Definition module_state : State :=
  mkState
    (<[plot_model_sum_kwargs := sum_kwargs_default]>
       (<[compare_data_model_model_sum_kwargs := sum_kwargs_default]>
          (<[plot_2d_hist_pcolormesh_kwargs := ∅]>
             (<[plot_2d_hist_colorbar_kwargs := ∅]> ∅))))
    ∅ [] [] 4.

(** ** Vocabulary of the statements *)

(** The histogram a reference denotes in a state. *)
Definition deref (s : State) (r : nat) : Histogram := default empty_hist (hists s !! r).

(** The bounds that [create_axis] works with, before the expansion of an
    empty range: the given range with ["min"] and ["max"] resolved, else
    the extent of the data, else [(0, 1)]. *)
Definition resolved (data : list float) (range : option (pyval * pyval))
    (x_min x_max : float) : Prop :=
  match range with
  | Some (r0, r1) =>
      resolve_min data r0 = Ok (PNum x_min) /\ resolve_max data r1 = Ok (PNum x_max)
  | None =>
      if data is [] then x_min = F64.zero /\ x_max = F64.one
      else py_min data = Ok x_min /\ py_max data = Ok x_max
  end.

(** The error [create_axis] reports for resolved bounds, if any. *)
Definition range_error (range : option (pyval * pyval)) (x_min x_max : float)
    : option value_error :=
  match range with
  | Some _ =>
      if F64.ltb x_max x_min then Some (RangeNotValid (PNum x_min) (PNum x_max))
      else if negb (F64.isfinite x_min && F64.isfinite x_max)
      then Some (RangeNotFinite (PNum x_min) (PNum x_max)) else None
  | None =>
      if negb (F64.isfinite x_min && F64.isfinite x_max)
      then Some (AutoRangeNotFinite x_min x_max) else None
  end.

Definition is_LowCoverage (w : warning) : bool :=
  match w with LowCoverage _ _ => true | _ => false end.

Definition low_coverage_warnings (ws : list warning) : list warning :=
  filter (fun w => is_LowCoverage w = true) ws.

(** In-range sum over the sum including the flow cells. *)
Definition range_coverage `{Libraries} (h : Histogram) : float :=
  F64.div (np_sum (values h)) (np_sum (values_flow h)).

Definition coverage_warning `{Libraries} (h : Histogram) (edges : option Axis)
    : list warning :=
  if F64.ltb (range_coverage h) F64.c0_99
  then [LowCoverage (F64.mul F64.hundred (range_coverage h)) edges] else [].

(** ** Instances to run the model on examples *)


(** Filling for axes of one bin each: a point is in range when every
    coordinate lies in [[start, stop)], and goes to the flow cells
    otherwise; weights are taken as one. *)
Definition in_axis (a : Axis) (x : float) : bool :=
  match a with
  | Regular _ lo hi => negb (F64.ltb x lo) && F64.ltb x hi
  | Variable_ e => false
  end.

Fixpoint points (data : list (list float)) : list (list float) :=
  match data with
  | [] => []
  | [xs] => (fun x => [x]) <$> xs
  | xs :: rest => zip_with cons xs (points rest)
  end.

Definition count_cell (n : nat) : cell := (F64.of_Z (Z.of_nat n), F64.of_Z (Z.of_nat n)).

Definition sample_fill (axs : list Axis) (st : Storage) (data : list (list float))
    (w : weights_arg) : Res (list cell * list cell) :=
  let inside p := forallb (fun ax : Axis * float => in_axis ax.1 ax.2) (zip axs p) in
  let ps := points data in
  Ok ([count_cell (length (filter (fun p => inside p = true) ps))],
      [count_cell (length (filter (fun p => inside p = false) ps)); zero_cell]).

Definition sample_libraries : Libraries := {|
  bh_fill := sample_fill;
  np_sum := fun l => fold_left F64.add l F64.zero;
  np_allclose := fun a b => bool_decide (a = b)
|}.

(** The difference of two bins with the variances added. *)
Definition sample_comparison : Comparison := {|
  comparison_cell := fun _ _ _ c1 c2 =>
    let u := F64.sqrt (F64.add c1.2 c2.2) in (F64.sub c1.1 c2.1, u, u);
  comparison_check := fun _ _ _ _ _ => None;
  _is_unweighted := fun h => bool_decide (values h = variances h);
  get_asymmetrical_uncertainties := fun h =>
    Ok (F64.sqrt <$> variances h, F64.sqrt <$> variances h)
|}.

(** The entry of key [k] in the dictionary [d]. *)
Definition dict_at (s : State) (d : nat) (k : string) : option pyval :=
  default ∅ (dicts s !! d) !! k.

Definition new_calls (s s' : State) : list call :=
  take (length (calls s') - length (calls s)) (calls s').

Definition count_method (meth : string) (l : list call) : nat :=
  length (filter (fun c => method c = meth) l).

(** ** An order-preserving key for binary64 numbers

    Sign class, exponent and mantissa, compared lexicographically, order
    the numbers other than NaN as [SFcompare] does. *)

Definition key (x : float) : Z * Z * Z :=
  match x with
  | S754_infinity true => (-2, 0, 0)
  | S754_finite true m e => (-1, - e, Z.neg m)
  | S754_zero _ => (0, 0, 0)
  | S754_finite false m e => (1, e, Z.pos m)
  | S754_infinity false => (2, 0, 0)
  | S754_nan => (3, 0, 0)
  end%Z.

Definition lexlt (a b : Z * Z * Z) : Prop :=
  (a.1.1 < b.1.1 \/ (a.1.1 = b.1.1 /\ (a.1.2 < b.1.2 \/ (a.1.2 = b.1.2 /\ a.2 < b.2))))%Z.

(** ** Inputs of the examples *)

(** A one-dimensional histogram with two bins on [[0, 2]]. *)
Definition hist_1d (c0 c1 : cell) : Histogram :=
  mkHistogram [Regular 2 F64.zero (F64.of_Z 2)] Weight [c0; c1] [zero_cell; zero_cell].

(** A two-dimensional histogram with one bin, on the square of side [w]. *)
Definition hist_2d (w : Z) (c : cell) : Histogram :=
  mkHistogram [Regular 1 F64.zero (F64.of_Z w); Regular 1 F64.zero (F64.of_Z w)]
    Weight [c] (replicate 8 zero_cell).

Definition one_cell : cell := (F64.one, F64.one).

Definition hidden_sum : gmap string pyval :=
  list_to_map [("show", PBool false); ("label", PStr "Sum"); ("color", PStr "navy")].

Definition no_model : model := mkModel [] PNone PNone [] PNone PNone.

(** The weights forwarded by the calls of [ax.hist] in a log. *)
Definition hist_weights (l : list call) : list pyval :=
  omap (fun c => if String.eqb (method c) "hist" then kwargs c !! "weights" else None) l.

(** ** Properties of computations used in the statements *)

(** The log of [s'] extends the log of [s]. *)
Definition extends (s s' : State) : Prop := exists l, calls s' = (l ++ calls s)%list.

(** A computation that only adds to the log. *)
Definition mono {A} (m : M A) : Prop := forall s, extends s (m s).2.






Definition bump (s : State) : State :=
  mkState (dicts s) (hists s) (calls s) (warns s) (S (next_id s)).




(** A histogram that [_flatten_2d_hist] accepts. *)
Definition flattenable (h : Histogram) : Prop :=
  match axes h with
  | a0 :: a1 :: _ => length (view h) = axis_size a0 * axis_size a1
  | _ => False
  end.

(** The comparison value of one bin. *)
Definition bin_value `{Comparison} (c ru u : pyval) (b1 b2 : cell) : float :=
  (comparison_cell c ru u b1 b2).1.1.

(** The call that draws the comparison values [ys] on [ax]: as weights
    with NaN replaced by 0 for a pull, as points otherwise. *)
Definition draws_comparison (c : pyval) (ax : nat) (ys : list float) (drawn : call) : Prop :=
  receiver drawn = Some ax /\
  if py_eq_str c "pull"
  then method drawn = "hist" /\
       kwargs drawn !! "weights" = Some (PArr (np_nan_to_num F64.zero ys))
  else method drawn = "errorbar" /\ kwargs drawn !! "y" = Some (PArr ys).

(** [ys] holds, for every bin of the axis [a], the comparison value of
    that bin of [h1] and [h2]. *)
Definition bin_wise `{Comparison} (c ru u : pyval) (a : Axis) (h1 h2 : Histogram)
    (ys : list float) : Prop :=
  length ys = axis_size a /\
  forall i, i < axis_size a ->
    exists b1 b2, view h1 !! i = Some b1 /\ view h2 !! i = Some b2 /\
                  ys !! i = Some (bin_value c ru u b1 b2).

(** [m] keeps the histograms allocated before [n0] other than those in
    [X], allocates upwards, and returns results in [Q]. *)
Definition keeps {A} (n0 : nat) (X : nat -> Prop) (Q : A -> Prop) (m : M A) : Prop :=
  forall s, n0 <= next_id s ->
    next_id s <= next_id (m s).2 /\
    (forall x, x < n0 -> ~ X x -> hists (m s).2 !! x = hists s !! x) /\
    forall a, (m s).1 = Ok a -> Q a.

Definition any {A} : A -> Prop := fun _ => True.

(** What [compare_data_model] has drawn between [s] and [s'], on the main
    axes [am] and the comparison axes [ac].  With [dh] the data histogram
    when it is drawn (the given one or its flattening, unchanged by the
    drawing of the model when it is not one of the components): the data
    are drawn as points with error bars, the asymmetrical uncertainties of
    [dh] if [dh] is unweighted and the square roots of its variances
    otherwise; and the comparison drawn is that of [dh] and the model,
    bin by bin, for the same kind of uncertainty of the data. *)
Definition data_uncertainty_drawn `{Comparison} (data_hist : nat) (m : model)
    (flatten : bool) (kw : gmap string pyval) (s : State) (am ac : nat) (s' : State)
    : Prop :=
  exists data_hist' s_d,
    let dh := deref s_d data_hist' in
    let asym := _is_unweighted dh in
    let T := if asym then PStr "asymmetrical" else PStr "symmetrical" in
    let c := kw_get "comparison" (PStr "ratio") kw in
    let ru := kw_get "ratio_uncertainty" (PStr "split") kw in
    (flatten = false -> data_hist' = data_hist) /\ extends s s_d /\
    (flatten = false -> data_hist < next_id s ->
     data_hist ∉ (stacked_components m ++ unstacked_components m)%list ->
     dh = deref s data_hist) /\
    exists l_c drawn_c l_d drawn_d a mh ys,
      calls s' = (l_c ++ drawn_c :: l_d ++ drawn_d :: calls s_d)%list /\
      receiver drawn_d = Some am /\ method drawn_d = "errorbar" /\
      kwargs drawn_d !! "y" = Some (PArr (values dh)) /\
      (if asym
       then exists lo hi,
              get_asymmetrical_uncertainties dh = Ok (lo, hi) /\
              kwargs drawn_d !! "yerr" = Some (PList [PArr lo; PArr hi])
       else kwargs drawn_d !! "yerr" = Some (PArr (F64.sqrt <$> variances dh))) /\
      draws_comparison c ac ys drawn_c /\
      bin_wise c ru T a dh mh ys.

(** [m] raises in state [s] without logging a call. *)
Definition fails_at {A} (s : State) (m : M A) : Prop :=
  exists e, (m s).1 = Raise e /\ calls (m s).2 = calls s.

(** ** Vocabulary on texts *)

(** The number of dollar signs in a text. *)
Fixpoint dollars (s : string) : nat :=
  match s with
  | EmptyString => 0
  | String c r => (if Ascii.eqb c dollar then 1 else 0) + dollars r
  end.

(** A text on one line and without dollar sign. *)
Fixpoint plain (s : string) : bool :=
  match s with
  | EmptyString => true
  | String c r => negb (Ascii.eqb c dollar) && negb (Ascii.eqb c newline) && plain r
  end.
(** A number that is not NaN. *)
Definition not_nan (y : float) : Prop := F64.isnan y = false.
#[global] Instance not_nan_dec y : Decision (not_nan y).
Proof. unfold not_nan. apply _. Defined.
(** A number that is neither NaN nor infinite. *)
Definition finite (y : float) : Prop := F64.isfinite y = true.

(** The references of the histograms handed to [plot_hist]. *)
Definition hist_refs (hist : hist_arg) : list nat :=
  match hist with One r => [r] | Many rs => rs end.
(** ** Frames

    What a computation may do to the state. *)

(** Between [s] and [s'] the calls logged are in [P], the dictionaries
    outside [D] and the histograms outside [X] are as they were, warnings
    are only added, and references are only allocated. *)
Definition frame (P : call -> Prop) (D X : nat -> Prop) (s s' : State) : Prop :=
  (exists l, calls s' = (l ++ calls s)%list /\ Forall P l) /\
  (forall d, ~ D d -> dicts s' !! d = dicts s !! d) /\
  (forall x, ~ X x -> hists s' !! x = hists s !! x) /\
  (exists ws, warns s' = (ws ++ warns s)%list) /\
  next_id s <= next_id s'.

(** From a state that has allocated up to [n0] at least, [m] stays within
    the frame and returns results in [Q]. *)
Definition within {A} (n0 : nat) (P : call -> Prop) (D X : nat -> Prop)
    (Q : A -> Prop) (m : M A) : Prop :=
  forall s, n0 <= next_id s ->
    frame P D X s (m s).2 /\ forall a, (m s).1 = Ok a -> Q a.

(** No call, no dictionary, no reference. *)
Definition none {A} : A -> Prop := fun _ => False.

(** The references not yet allocated in [s]. *)
Definition fresh_in (s : State) : nat -> Prop := fun r => next_id s <= r.

(** The calls logged between [s] and [s'], newest first. *)
Definition logged (s s' : State) (l : list call) : Prop :=
  calls s' = (l ++ calls s)%list.

(** The histogram [h] after [np.nan_to_num] has run in place on its
    values. *)
Definition nan_to_num_hist (h : Histogram) : Histogram :=
  with_values h (np_nan_to_num F64.zero (values h)).
(** [m] never returns: from every state it raises. *)
Definition never_returns {A} (m : M A) : Prop :=
  forall s, exists e, (m s).1 = Raise e.
(** A call other than [ax.hist]. *)
Definition not_hist (c : call) : Prop := method c <> "hist".

(** Between [s] and [s'], [n] calls of [ax.hist] were logged. *)
Definition hist_calls (n : nat) (s s' : State) : Prop :=
  exists l, calls s' = (l ++ calls s)%list /\ count_method "hist" l = n.

(** ** plot_2d_hist_with_projections *)

(** [hist[:, ::bh.sum]] and [hist[::bh.sum, :]]: the projection of a
    histogram on the axis of index [keep], a new histogram that the
    histogram library computes. *)
Class Slicing := {
  bh_project : nat -> Histogram -> Res Histogram
}.

(** [hist.axes[1]] *)
Definition axis1 (h : Histogram) : Res Axis :=
  match axes h with _ :: a :: _ => Ok a | _ => Raise IndexError end.

(** [fig.add_subplot(gs[rows, cols])]: the subscript creates a subplot
    specification, from which the figure creates axes.  A slice [a:b] is
    written as the pair of its bounds. *)
Definition add_subplot (fig gs : nat) (rows cols : pyval) : M nat :=
  spec ← fresh;
  emit (mkCall (Some gs) "__getitem__" [rows; cols] ∅ (PObj spec));;
  ax ← fresh;
  emit (mkCall (Some fig) "add_subplot" [PObj spec] ∅ (PObj ax));;
  mret ax.

Definition gridspec : list pyval := [num 6; PNum (lit 75 100); PNum (lit 15 10)].

Definition plot_2d_hist_with_projections `{Slicing} (hist : nat)
    (xlabel ylabel ylabel_x_projection xlabel_y_projection colorbar_label : pyval)
    (offset_x_labels : bool)
    (pcolormesh_kwargs colorbar_kwargs plot_hist_kwargs : nat)
    : M (nat * nat * nat * nat * nat) :=
  d ← get_dict colorbar_kwargs;
  set_dict colorbar_kwargs (setdefault "label" colorbar_label d);;
  d ← get_dict plot_hist_kwargs;
  set_dict plot_hist_kwargs (setdefault "histtype" (PStr "stepfilled") d);;
  '(fig, axs) ← plt_subplots 9
     [("figsize", PList [num 6; num 6]); ("ncols", num 3); ("nrows", num 3);
      ("gridspec_kw", PList [PStr "width_ratios"; PList gridspec;
                             PStr "height_ratios"; PList (rev gridspec)])];
  match axs with
  | [a00; a01; a02; a10; a11; a12; a20; a21; a22] =>
      mapM (fun a => ext_call (Some a) "remove" [] [] ∅)
           [a00; a01; a02; a10; a11; a12; a21; a22];;
      gs ← fresh;
      emit (mkCall (Some a00) "get_gridspec" [] ∅ (PObj gs));;
      let ax_2d := a20 in
      ax_x_projection ← add_subplot fig gs (PList [num 0; num 2]) (PList [num 0; num 1]);
      ax_y_projection ← add_subplot fig gs (num (-1)) (PList [num 1; PNone]);
      ax_colorbar ← add_subplot fig gs (PList [num 0; num 2]) (num 1);
      plot_2d_hist hist (Some fig) (Some ax_2d) (Some ax_colorbar)
        pcolormesh_kwargs colorbar_kwargs true;;
      h ← get_hist hist;
      x_projection ← lift (bh_project 0 h);
      x_projection ← new_hist x_projection;
      kw ← get_dict plot_hist_kwargs;
      lift (kw_reject ["hist"; "ax"] kw);;
      plot_hist (One x_projection) ax_x_projection kw;;
      h ← get_hist hist;
      y_projection ← lift (bh_project 1 h);
      y_projection ← new_hist y_projection;
      kw ← get_dict plot_hist_kwargs;
      lift (kw_reject ["hist"; "ax"] kw);;
      kw ← lift (kw_merge [("orientation", PStr "horizontal")] kw);
      plot_hist (One y_projection) ax_y_projection kw;;
      ext_call (Some ax_x_projection) "xaxis.set_ticklabels" [PList []] [] ∅;;
      ext_call (Some ax_y_projection) "yaxis.set_ticklabels" [PList []] [] ∅;;
      h ← get_hist hist;
      xlim ← lift (axis0 h);
      ylim ← lift (axis1 h);
      ext_call (Some ax_2d) "set_xlim" [PLimits xlim] [] ∅;;
      ext_call (Some ax_x_projection) "set_xlim" [PLimits xlim] [] ∅;;
      ext_call (Some ax_2d) "set_ylim" [PLimits ylim] [] ∅;;
      ext_call (Some ax_y_projection) "set_ylim" [PLimits ylim] [] ∅;;
      let labelpad := if offset_x_labels then num 20 else PNone in
      ext_call (Some ax_2d) "set_xlabel" [xlabel] [("labelpad", labelpad)] ∅;;
      ext_call (Some ax_2d) "set_ylabel" [ylabel] [] ∅;;
      ext_call (Some ax_x_projection) "set_ylabel" [ylabel_x_projection] [] ∅;;
      ext_call (Some ax_y_projection) "set_xlabel" [xlabel_y_projection]
        [("labelpad", labelpad)] ∅;;
      ext_call (Some fig) "subplots_adjust" []
        [("hspace", PNum (lit 25 100)); ("wspace", PNum (lit 25 100))] ∅;;
      ext_call (Some fig) "align_ylabels" [] [] ∅;;
      mret (fig, ax_2d, ax_x_projection, ax_y_projection, ax_colorbar)
  | _ => raise TypeError
  end.



(** [d.setdefault(k, v)] on the dictionary [r] of the store. *)
Definition store_setdefault (r : nat) (k : string) (v : pyval)
    (ds : gmap nat (gmap string pyval)) : gmap nat (gmap string pyval) :=
  <[r := setdefault k v (default ∅ (ds !! r))]> ds.




(** [m] returns from every state, and leaves the dictionaries as they
    are. *)
Definition passes {A} (m : M A) : Prop :=
  forall s, exists a s1, m s = (Ok a, s1) /\ dicts s1 = dicts s.


(** * Properties *)

(** ** Facts on binary64 comparison *)






Lemma ltb_key (a b : float) :
  F64.ltb a b = true <->
  F64.isnan a = false /\ F64.isnan b = false /\ lexlt (key a) (key b).
Proof.
  unfold F64.ltb, SFltb, lexlt.
  destruct a as [sa|sa| |sa ma ea], b as [sb|sb| |sb mb eb]; simpl;
    try destruct sa; try destruct sb; simpl;
    try (split; [try discriminate; intros _; repeat split; lia
                | try (intros (? & ? & ?); first [discriminate | reflexivity | lia])]).
  all: change (PosDef.Pos.compare_cont Eq ma mb) with (Pos.compare ma mb).
  all: destruct (Z.compare_spec ea eb); destruct (Pos.compare_spec ma mb); simpl;
    (split; [try discriminate; intros _; repeat split; lia
            | try (intros (? & ? & ?); first [reflexivity | lia])]).
Qed.




(** ** The builtins min and max *)




(** ** Running the monad *)

Ltac unfold_M :=
  unfold mbind, M_bind, mret, M_ret, bind, ret, lift, raise in *.

Lemma bind_inv {A B} (m : M A) (k : A -> M B) s r s' :
  (x ← m; k x) s = (r, s') ->
  (exists a s1, m s = (Ok a, s1) /\ k a s1 = (r, s')) \/
  (exists e, m s = (Raise e, s') /\ r = Raise e).
Proof.
  unfold mbind, M_bind, bind. destruct (m s) as [[a|e] s1]; intros Hk.
  - left. eauto.
  - right. simplify_eq. eauto.
Qed.

Lemma bind_Ok_inv {A B} (m : M A) (k : A -> M B) s b s' :
  (x ← m; k x) s = (Ok b, s') ->
  exists a s1, m s = (Ok a, s1) /\ k a s1 = (Ok b, s').
Proof.
  intros Hk. apply bind_inv in Hk as [?|(e & _ & ?)]; [done|discriminate].
Qed.

(** ** create_axis *)


(** [create_axis] changes nothing but the list of warnings, and never
    warns about coverage. *)
Lemma create_axis_state data bins range s r s' :
  create_axis data bins range s = (r, s') ->
  dicts s' = dicts s /\ hists s' = hists s /\ calls s' = calls s /\
  next_id s' = next_id s /\
  exists ws, warns s' = (ws ++ warns s)%list /\ low_coverage_warnings ws = [].
Proof.
  unfold create_axis, warn.
  repeat first
    [ progress (unfold mbind, M_bind, mret, M_ret, bind, ret, lift, raise; simpl)
    | case_match; simplify_eq/= ];
  intros; simplify_eq/=; repeat split; try done;
    first [ by exists [] | by eexists [_] ].
Qed.

(** C4. With an integer bin count, a range whose resolved minimum exceeds
    its resolved maximum, or whose resolved bounds are not both finite,
    makes [create_axis] raise [ValueError]; so does a range detected from
    the data that is not finite.  Nothing else is changed. *)
Theorem create_axis_invalid_range data n range x_min x_max s :
  resolved data range x_min x_max ->
  (range <> None /\ F64.ltb x_max x_min = true) \/
    F64.isfinite x_min && F64.isfinite x_max = false ->
  exists m, range_error range x_min x_max = Some m /\
    create_axis data (BinsInt n) range s = (Raise (ValueError m), s).
Proof.
  intros Hres Hbad. unfold create_axis, range_error. simpl.
  destruct range as [[r0 r1]|]; simpl in Hres.
  - destruct Hres as [H0 H1]. unfold_M. rewrite H0, H1. simpl.
    destruct (F64.ltb x_max x_min) eqn:Hgt; [eauto|].
    destruct Hbad as [[_ ?]|Hfin]; [congruence|].
    rewrite Hfin. simpl.
    destruct (F64.isfinite x_min); simpl in *; [rewrite Hfin|]; eauto.
  - destruct Hbad as [[? _]|Hfin]; [congruence|].
    destruct data as [|d ds]; [by destruct Hres as [-> ->]|].
    destruct Hres as (H0 & H1).
    rewrite Hfin. simpl. eexists; split; [reflexivity|].
    unfold_M. simpl in H0, H1. simplify_eq. simpl. by rewrite Hfin.
Qed.

Lemma create_axis_invalid_range_witness :
  exists m,
    range_error (Some (PStr "min", num 1)) (F64.of_Z 2) (F64.of_Z 1) = Some m /\
    create_axis [F64.of_Z 3; F64.of_Z 2] (BinsInt 10) (Some (PStr "min", num 1))
      module_state = (Raise (ValueError m), module_state).
Proof.
  apply (create_axis_invalid_range [F64.of_Z 3; F64.of_Z 2] 10
           (Some (PStr "min", num 1)) (F64.of_Z 2) (F64.of_Z 1) module_state).
  - split; reflexivity.
  - left. split; [discriminate | reflexivity].
Defined.




(** ** make_hist and make_2d_hist *)

Lemma make_hist_warns `{Libraries} data bins range weights s h s' :
  make_hist data bins range weights s = (Ok h, s') ->
  exists ws, warns s' = (ws ++ warns s)%list /\
    low_coverage_warnings ws = coverage_warning (deref s' h) (head (axes (deref s' h))).
Proof.
  unfold make_hist. intros Hrun.
  apply bind_Ok_inv in Hrun as (axis & s1 & Hax & Hrun).
  apply create_axis_state in Hax as (_ & _ & _ & _ & ws & Hws & Hlow).
  apply bind_Ok_inv in Hrun as ([cells flows] & s2 & Hfill & Hrun).
  unfold lift in Hfill. simplify_eq.
  unfold new_hist, get_hist, set_hist, fresh, warn in Hrun. unfold_M. simpl in Hrun.
  rewrite lookup_insert_eq in Hrun. simpl in Hrun.
  unfold coverage_warning, range_coverage, deref, low_coverage_warnings in *.
  destruct (F64.ltb _ _) eqn:Hlt; simplify_eq/=; rewrite lookup_insert_eq; simpl;
    rewrite Hlt, Hws.
  - eexists (_ :: ws). split; [done|]. rewrite filter_cons_True by done. by rewrite Hlow.
  - by exists ws.
Qed.

Lemma make_2d_hist_warns `{Libraries} data bins range weights s h s' :
  make_2d_hist data bins range weights s = (Ok h, s') ->
  exists ws, warns s' = (ws ++ warns s)%list /\
    low_coverage_warnings ws = coverage_warning (deref s' h) None.
Proof.
  unfold make_2d_hist. intros Hrun.
  destruct data as [|x [|y [|]]]; try discriminate.
  destruct (negb _); [discriminate|].
  apply bind_Ok_inv in Hrun as (ax0 & s1 & Hax0 & Hrun).
  apply create_axis_state in Hax0 as (_ & _ & _ & _ & ws0 & Hws0 & Hlow0).
  apply bind_Ok_inv in Hrun as (ax1 & s2 & Hax1 & Hrun).
  apply create_axis_state in Hax1 as (_ & _ & _ & _ & ws1 & Hws1 & Hlow1).
  apply bind_Ok_inv in Hrun as ([cells flows] & s3 & Hfill & Hrun).
  unfold lift in Hfill. simplify_eq.
  unfold new_hist, get_hist, set_hist, fresh, warn in Hrun. unfold_M. simpl in Hrun.
  rewrite lookup_insert_eq in Hrun. simpl in Hrun.
  unfold coverage_warning, range_coverage, deref, low_coverage_warnings in *.
  destruct (F64.ltb _ _) eqn:Hlt; simplify_eq/=; rewrite lookup_insert_eq; simpl;
    rewrite Hlt, Hws1, Hws0.
  - eexists (_ :: ws1 ++ ws0)%list. split; [simpl; by rewrite app_assoc|].
    rewrite filter_cons_True by done. rewrite filter_app. by rewrite Hlow0, Hlow1.
  - exists (ws1 ++ ws0)%list. split; [simpl; by rewrite app_assoc|].
    rewrite filter_app. by rewrite Hlow0, Hlow1.
Qed.

(** C5. A call of [make_hist] or [make_2d_hist] that returns has emitted
    the coverage warning, carrying the percentage of the content inside
    the binning range, exactly when the in-range sum over the sum with the
    flow cells is below 0.99; otherwise it has emitted no such warning. *)
Theorem low_coverage_warning `{Libraries} data bins range data2 bins2 range2
    weights s h s' :
  make_hist data bins range weights s = (Ok h, s') \/
  make_2d_hist data2 bins2 range2 weights s = (Ok h, s') ->
  exists ws edges, warns s' = (ws ++ warns s)%list /\
    low_coverage_warnings ws =
      if F64.ltb (range_coverage (deref s' h)) F64.c0_99
      then [LowCoverage (F64.mul F64.hundred (range_coverage (deref s' h))) edges]
      else [].
Proof.
  intros [Hrun|Hrun].
  - apply make_hist_warns in Hrun as (ws & ? & ?). by exists ws, (head (axes (deref s' h))).
  - apply make_2d_hist_warns in Hrun as (ws & ? & ?). by exists ws, None.
Qed.

Lemma low_coverage_warning_witness :
  let H := sample_libraries in
  let run := make_hist [F64.half; F64.of_Z 5] (BinsInt 1) (Some (num 0, num 1))
               (WScalar F64.one) module_state in
  exists ws edges, warns run.2 = (ws ++ warns module_state)%list /\
    low_coverage_warnings ws =
      if F64.ltb (range_coverage (deref run.2 4)) F64.c0_99
      then [LowCoverage (F64.mul F64.hundred (range_coverage (deref run.2 4))) edges]
      else [].
Proof.
  intros H run.
  apply (low_coverage_warning [F64.half; F64.of_Z 5] (BinsInt 1) (Some (num 0, num 1))
           [] (BinsInt 1, BinsInt 1) (None, None) (WScalar F64.one) module_state 4 run.2).
  left. vm_compute. reflexivity.
Defined.

Example low_coverage_warning_emitted :
  let H := sample_libraries in
  warns (make_hist [F64.half; F64.of_Z 5] (BinsInt 1) (Some (num 0, num 1))
           (WScalar F64.one) module_state).2
  = [LowCoverage (F64.of_Z 50) (Some (Regular 1 F64.zero F64.one))].
Proof. vm_compute. reflexivity. Qed.

(** ** plot_hist *)

(** C10.  [plot_hist] forwards the bin values with NaN replaced by 0, but
    it also overwrites them in the histogram: here a histogram whose first
    bin is NaN holds 0 in that bin after the call, for a single histogram
    and for a list. *)
Theorem plot_hist_overwrites_nan :
  let s0 := (new_hist (hist_1d (F64.nan, F64.one) one_cell) module_state).2 in
  let s1 := (plot_hist (One 4) 100 ∅ s0).2 in
  let s2 := (plot_hist (Many [4]) 100 ∅ s0).2 in
  values (deref s0 4) = [F64.nan; F64.one] /\
  hist_weights (calls s1) = [PArr [F64.zero; F64.one]] /\
  values (deref s1 4) = [F64.zero; F64.one] /\
  hist_weights (calls s2) = [PList [PArr [F64.zero; F64.one]]] /\
  values (deref s2 4) = [F64.zero; F64.one].
Proof. repeat split; vm_compute; reflexivity. Qed.

(** ** plot_model *)

(** C3.  Two successive calls of [plot_model] with the same [sum_kwargs]
    dictionary [{"show": False, ...}] differ: the first removes the key
    ["show"] from the caller's dictionary and draws the components only;
    the second finds no key, takes the default and draws the sum too. *)
Theorem plot_model_twice_differs :
  let m := mkModel [] PNone PNone [4] PNone PNone in
  let s0 := (h ← new_hist (hist_1d one_cell one_cell); new_dict hidden_sum) module_state in
  let r1 := plot_model m PNone PNone 5 false (num 1) (Some 100) (Some 101) s0.2 in
  let r2 := plot_model m PNone PNone 5 false (num 1) (Some 100) (Some 101) r1.2 in
  s0.1 = Ok 5 /\ r1.1 = Ok (100, 101) /\ r2.1 = Ok (100, 101) /\
  dict_at s0.2 5 "show" = Some (PBool false) /\
  dict_at r1.2 5 "show" = None /\
  count_method "hist" (new_calls s0.2 r1.2) = 1 /\
  count_method "hist" (new_calls r1.2 r2.2) = 2.
Proof. repeat split; vm_compute; reflexivity. Qed.

(** The dictionary written as default value is shared: a call that leaves
    [sum_kwargs] out removes ["show"] from it for all later calls. *)
Example plot_model_changes_default :
  let m := mkModel [] PNone PNone [4] PNone PNone in
  let s0 := (new_hist (hist_1d one_cell one_cell) module_state).2 in
  let r1 := plot_model m PNone PNone plot_model_sum_kwargs false (num 1)
              (Some 100) (Some 101) s0 in
  dict_at s0 plot_model_sum_kwargs "show" = Some (PBool true) /\
  dict_at r1.2 plot_model_sum_kwargs "show" = None.
Proof. repeat split; vm_compute; reflexivity. Qed.

(** C7.  With [flatten_2d_hist], [plot_model] checks the binning after
    flattening: two histograms on different squares, whose binning
    differs, are drawn without error. *)
Theorem plot_model_flatten_hides_mismatch :
  let s0 := (a ← new_hist (hist_2d 1 one_cell); new_hist (hist_2d 2 one_cell))
              module_state in
  let m := mkModel [4; 5] PNone PNone [] PNone PNone in
  let r := plot_model m PNone PNone plot_model_sum_kwargs true (num 1) None None s0.2 in
  _check_binning_consistency [deref s0.2 4; deref s0.2 5] = Raise (ValueError BinsNotEqual) /\
  (exists fig_ax, r.1 = Ok fig_ax) /\
  count_method "hist" (new_calls s0.2 r.2) = 1.
Proof.
  split; [|split].
  - vm_compute. reflexivity.
  - eexists. vm_compute. reflexivity.
  - vm_compute. reflexivity.
Qed.

(** ** Calls are only added to the log *)

Lemma extends_refl s : extends s s.
Proof. by exists []. Qed.

Lemma extends_trans s1 s2 s3 : extends s1 s2 -> extends s2 s3 -> extends s1 s3.
Proof. intros [l1 H1] [l2 H2]. exists (l2 ++ l1)%list. by rewrite H2, H1, app_assoc. Qed.


Lemma mono_ret {A} (a : A) : mono (mret a).
Proof. intros s. apply extends_refl. Qed.
Lemma mono_raise {A} e : mono (@raise A e).
Proof. intros s. apply extends_refl. Qed.
Lemma mono_lift {A} (r : Res A) : mono (lift r).
Proof. intros s. apply extends_refl. Qed.
Lemma mono_bind {A B} (m : M A) (k : A -> M B) :
  mono m -> (forall a, mono (k a)) -> mono (x ← m; k x).
Proof.
  intros Hm Hk s. unfold mbind, M_bind, bind. specialize (Hm s).
  destruct (m s) as [[a|e] s1]; simpl in *; [|done].
  eapply extends_trans; [done|]. apply Hk.
Qed.
Lemma mono_emit c : mono (emit c).
Proof. intros s. by exists [c]. Qed.
Lemma mono_warn w : mono (warn w).
Proof. intros s. by exists []. Qed.
Lemma mono_fresh : mono fresh.
Proof. intros s. by exists []. Qed.
Lemma mono_get_hist r : mono (get_hist r).
Proof. intros s. apply extends_refl. Qed.
Lemma mono_set_hist r h : mono (set_hist r h).
Proof. intros s. by exists []. Qed.
Lemma mono_get_dict r : mono (get_dict r).
Proof. intros s. apply extends_refl. Qed.
Lemma mono_set_dict r d : mono (set_dict r d).
Proof. intros s. by exists []. Qed.
Lemma mono_mapM {A B} (f : A -> M B) (l : list A) :
  (forall a, mono (f a)) -> mono (mapM f l).
Proof.
  intros Hf. induction l as [|a l IH]; simpl; [apply mono_ret|].
  apply mono_bind; [done|]. intros b. apply mono_bind; [done|]. intros bs. apply mono_ret.
Qed.

Create HintDb mono.
#[local] Hint Resolve mono_ret mono_raise mono_lift mono_emit mono_warn mono_fresh
  mono_get_hist mono_set_hist mono_get_dict mono_set_dict : mono.

Ltac mono_step :=
  match goal with
  | |- mono (mbind _ _) => apply mono_bind; [|intros ?]
  | |- mono (mapM _ _) => apply mono_mapM; intros ?
  | |- mono (let '(_, _) := ?p in _) => destruct p
  | |- mono (if ?b then _ else _) => destruct b
  | |- mono (match ?x with _ => _ end) => destruct x
  | |- mono _ => solve [eauto with mono]
  end.
Ltac solve_mono := repeat mono_step.

Lemma mono_new_hist h : mono (new_hist h).
Proof. unfold new_hist. solve_mono. Qed.
Lemma mono_new_dict d : mono (new_dict d).
Proof. unfold new_dict. solve_mono. Qed.
Lemma mono_ext_call recv meth pos explicit splat :
  mono (ext_call recv meth pos explicit splat).
Proof. unfold ext_call. solve_mono. Qed.
Lemma mono_plt_subplots n kw : mono (plt_subplots n kw).
Proof. unfold plt_subplots. solve_mono. Qed.
#[local] Hint Resolve mono_new_hist mono_new_dict mono_ext_call mono_plt_subplots : mono.
Lemma mono_get_hists rs : mono (get_hists rs).
Proof. unfold get_hists. solve_mono. Qed.
Lemma mono_create_comparison_figure n : mono (create_comparison_figure n).
Proof. unfold create_comparison_figure. solve_mono. Qed.
Lemma mono_flatten r : mono (_flatten_2d_hist r).
Proof. unfold _flatten_2d_hist. solve_mono. Qed.
Lemma mono_nan_to_num_values r c : mono (nan_to_num_values r c).
Proof. unfold nan_to_num_values. solve_mono. Qed.
#[local] Hint Resolve mono_get_hists mono_create_comparison_figure mono_flatten
  mono_nan_to_num_values : mono.
Lemma mono_set_fitting ax : mono (set_fitting_ylabel_fontsize ax).
Proof. unfold set_fitting_ylabel_fontsize. solve_mono. Qed.
Lemma mono_plot_hist h ax kw : mono (plot_hist h ax kw).
Proof. unfold plot_hist. solve_mono. Qed.
Lemma mono_plot_error_hist `{Comparison} h ax kw : mono (plot_error_hist h ax kw).
Proof. unfold plot_error_hist. solve_mono. Qed.
Lemma mono_plot_hist_uncertainties h ax kw : mono (plot_hist_uncertainties h ax kw).
Proof. unfold plot_hist_uncertainties. solve_mono. Qed.
Lemma mono_new_histogram a st : mono (new_histogram a st).
Proof. unfold new_histogram. solve_mono. Qed.
Lemma mono_hist_assign h c : mono (hist_assign h c).
Proof. unfold hist_assign. solve_mono. Qed.
Lemma mono_py_sum c : mono (py_sum c).
Proof. unfold py_sum. solve_mono. Qed.
#[local] Hint Resolve mono_set_fitting mono_plot_hist mono_plot_error_hist
  mono_plot_hist_uncertainties mono_new_histogram mono_hist_assign mono_py_sum : mono.
Lemma mono_plot_comparison `{Libraries} `{Comparison} h1 h2 ax kw :
  mono (plot_comparison h1 h2 ax kw).
Proof. unfold plot_comparison. cbv zeta. solve_mono. Qed.
#[local] Hint Resolve mono_plot_comparison : mono.
Lemma mono_compare_two_hist `{Libraries} `{Comparison} h1 h2 a b c d fig am ac kw :
  mono (compare_two_hist h1 h2 a b c d fig am ac kw).
Proof. unfold compare_two_hist. solve_mono. Qed.
Lemma mono_plot_model m a b sk fl lc fig ax : mono (plot_model m a b sk fl lc fig ax).
Proof. unfold plot_model. cbv zeta. solve_mono. Qed.
#[local] Hint Resolve mono_plot_model : mono.
Lemma mono_compare_data_model `{Libraries} `{Comparison} dh m a b c sk fl mu mul fig am ac kw :
  mono (compare_data_model dh m a b c sk fl mu mul fig am ac kw).
Proof. unfold compare_data_model. cbv zeta. solve_mono. Qed.









Lemma run_bind {A B} (m : M A) (k : A -> M B) s :
  (x ← m; k x) s = match m s with
                   | (Ok a, s1) => k a s1
                   | (Raise e, s1) => (Raise e, s1)
                   end.
Proof. reflexivity. Qed.


Lemma run_fresh s : fresh s = (Ok (next_id s), bump s).
Proof. reflexivity. Qed.




(** ** Empty models and malformed data *)

(** C8, the claim as stated fails: with [flatten_2d_hist] and a data
    histogram of one axis, [compare_data_model] fails on flattening the
    data, with [IndexError], before it looks at the model. *)
Lemma compare_data_model_flatten_1d :
  let H := sample_libraries in
  let H0 := sample_comparison in
  let s0 := (new_hist (hist_1d one_cell one_cell) module_state).2 in
  (compare_data_model 4 no_model PNone PNone (PStr "Data")
     compare_data_model_model_sum_kwargs true true (PStr "Model stat. unc.")
     None None None ∅ s0).1 = Raise IndexError.
Proof. vm_compute. reflexivity. Qed.

(** C8, amended.  Without model components [plot_model] raises
    [ValueError] ("Need to provide at least one model component."), and
    so does [compare_data_model] provided that, under [flatten_2d_hist],
    the data histogram can be flattened; neither logs a call.
    [make_2d_hist] raises [ValueError] when the data has not exactly two
    components, and when the two components differ in length. *)
Theorem empty_model_raises `{Libraries} `{Comparison}
    sl sc ul uc xlabel ylabel sum_kwargs flatten leg_ncol fig ax
    data_hist data_label model_uncertainty label ax_main ax_comparison kw
    (data : list (list float)) bins range weights s :
  let m := mkModel [] sl sc [] ul uc in
  plot_model m xlabel ylabel sum_kwargs flatten leg_ncol fig ax s
    = (Raise (ValueError NeedModelComponent), s) /\
  (flatten = false \/ flattenable (deref s data_hist) ->
   exists s',
     compare_data_model data_hist m xlabel ylabel data_label sum_kwargs flatten
       model_uncertainty label fig ax_main ax_comparison kw s
     = (Raise (ValueError NeedModelComponent), s') /\ calls s' = calls s) /\
  (length data <> 2 ->
   make_2d_hist data bins range weights s = (Raise (ValueError TwoComponents), s)) /\
  (forall x y, data = [x; y] -> length x <> length y ->
   make_2d_hist data bins range weights s = (Raise (ValueError SameLength), s)).
Proof.
  intros m. repeat split.
  - unfold plot_model. by destruct flatten.
  - intros Hflat. unfold compare_data_model. cbv zeta. destruct flatten.
    + destruct Hflat as [?|Hflat]; [done|]. unfold flattenable, deref in Hflat.
      unfold _flatten_2d_hist, get_hist, new_hist, set_hist, fresh.
      unfold mbind, M_bind, mret, M_ret, bind, ret, lift, raise. simpl.
      destruct (axes _) as [|a0 [|a1 ?]]; try done.
      rewrite bool_decide_eq_true_2 by done. simpl. eauto.
    + eauto.
  - intros Hlen. unfold make_2d_hist. by destruct data as [|x [|y [|]]].
  - intros x y -> Hlen. unfold make_2d_hist. by rewrite bool_decide_eq_false_2.
Qed.

Lemma empty_model_raises_witness :
  let H := sample_libraries in
  let H0 := sample_comparison in
  let s := (new_hist (hist_2d 1 one_cell) module_state).2 in
  (exists s',
     compare_data_model 4 no_model PNone PNone (PStr "Data")
       compare_data_model_model_sum_kwargs true true (PStr "unc.") None None None ∅ s
     = (Raise (ValueError NeedModelComponent), s') /\ calls s' = calls s) /\
  make_2d_hist [[F64.one]] (BinsInt 1, BinsInt 1) (None, None) WNone s
    = (Raise (ValueError TwoComponents), s) /\
  make_2d_hist [[F64.one]; []] (BinsInt 1, BinsInt 1) (None, None) WNone s
    = (Raise (ValueError SameLength), s).
Proof.
  intros H H0 s.
  split; [|split].
  - apply (empty_model_raises PNone PNone PNone PNone PNone PNone
             compare_data_model_model_sum_kwargs true (num 1) None None 4 (PStr "Data")
             true (PStr "unc.") None None ∅ [] (BinsInt 1, BinsInt 1) (None, None) WNone s).
    right. vm_compute. reflexivity.
  - apply (empty_model_raises PNone PNone PNone PNone PNone PNone
             0 false (num 1) None None 4 PNone true PNone None None ∅
             [[F64.one]] (BinsInt 1, BinsInt 1) (None, None) WNone s).
    simpl. lia.
  - eapply (empty_model_raises PNone PNone PNone PNone PNone PNone
             0 false (num 1) None None 4 PNone true PNone None None ∅
             [[F64.one]; []] (BinsInt 1, BinsInt 1) (None, None) WNone s).
    + reflexivity.
    + simpl. lia.
Defined.

(** ** The figure and axes arguments *)





















(** ** plot_comparison *)

Lemma run_get_hist r s : get_hist r s = (Ok (deref s r), s).
Proof. reflexivity. Qed.
Lemma run_lift {A} (r : Res A) s : lift r s = (r, s).
Proof. reflexivity. Qed.
Lemma run_ret {A} (a : A) s : (mret a : M A) s = (Ok a, s).
Proof. reflexivity. Qed.

Tactic Notation "inv_step" hyp(H) "as" simple_intropattern(a) ident(Hm) :=
  let s1 := fresh "s" in
  apply bind_Ok_inv in H as (a & s1 & Hm & H);
  try (first [rewrite run_get_hist in Hm | rewrite run_lift in Hm | rewrite run_ret in Hm];
       injection Hm as Hm <-).

Ltac tail_extends H l Hl :=
  match type of H with
  | ?m ?s = (_, ?s') =>
      let Hmono := fresh in
      assert (Hmono : mono m) by (cbv beta zeta; solve_mono);
      destruct (Hmono s) as [l Hl]; rewrite H in Hl; simpl in Hl; clear Hmono
  end.

(** A histogram created on an axis and assigned its cells. *)
Lemma comparison_hist_run {B} (a : Axis) (cells : list cell) (k : B) s hc k' s1 :
  (hist_comparison ← new_histogram a Weight;
   hist_assign hist_comparison cells;; mret (hist_comparison, k)) s = (Ok (hc, k'), s1) ->
  deref s1 hc = mkHistogram [a] Weight cells [zero_cell; zero_cell] /\
  length cells = axis_size a /\ calls s1 = calls s /\ k' = k.
Proof.
  unfold new_histogram, new_hist, hist_assign, get_hist, set_hist, fresh.
  unfold mbind, M_bind, mret, M_ret, bind, ret, raise. simpl.
  rewrite lookup_insert_eq. simpl. rewrite length_replicate.
  case_bool_decide; [|discriminate]. intros [= <- <- <-].
  unfold deref. simpl. by rewrite lookup_insert_eq.
Qed.

Lemma kw_merge_Ok explicit splat kw :
  kw_merge explicit splat = Ok kw -> kw = list_to_map explicit ∪ splat.
Proof. unfold kw_merge. destruct (existsb _ _); congruence. Qed.

Lemma plot_hist_One_run r ax kw s u s1 :
  plot_hist (One r) ax kw s = (Ok u, s1) ->
  exists a drawn,
    axis0 (deref s r) = Ok a /\
    calls s1 = drawn :: calls s /\
    receiver drawn = Some ax /\ method drawn = "hist" /\
    kwargs drawn !! "weights" = Some (PArr (np_nan_to_num F64.zero (values (deref s r)))).
Proof.
  unfold plot_hist. intros Hrun.
  inv_step Hrun as h Hh. subst h. inv_step Hrun as a Ha.
  unfold nan_to_num_values, ext_call, get_hist, set_hist, emit in Hrun.
  unfold mbind, M_bind, mret, M_ret, bind, ret, raise, lift in Hrun. simpl in Hrun.
  destruct (kw_merge _ kw) as [kw'|] eqn:Hkw; [|discriminate].
  apply kw_merge_Ok in Hkw. simplify_eq. eexists _, _. split; [done|].
  split; [reflexivity|]. simpl. repeat split.
  apply lookup_union_Some_l. reflexivity.
Qed.

Lemma plot_error_hist_run `{Comparison} r ax kw s u s1 :
  plot_error_hist r ax kw s = (Ok u, s1) ->
  exists a drawn,
    axis0 (deref s r) = Ok a /\
    calls s1 = drawn :: calls s /\
    receiver drawn = Some ax /\ method drawn = "errorbar" /\
    kwargs drawn !! "y" = Some (PArr (values (deref s r))).
Proof.
  unfold plot_error_hist. cbv zeta. intros Hrun.
  inv_step Hrun as [] Hty. inv_step Hrun as h Hh. subst h.
  inv_step Hrun as kw1 Hm1. inv_step Hrun as a Ha.
  unfold ext_call, emit in Hrun.
  unfold mbind, M_bind, mret, M_ret, bind, ret, raise, lift in Hrun. simpl in Hrun.
  destruct (kw_merge _ _) as [kw'|] eqn:Hkw; [|discriminate].
  apply kw_merge_Ok in Hkw. simplify_eq.
  assert (s0 = s) as ->.
  { destruct (py_eq_str _ _); [unfold mret, M_ret, ret in Hm1; by simplify_eq|].
    inv_step Hm1 as [lo hi] Hasym. unfold mret, M_ret, ret in Hm1. by simplify_eq. }
  eexists _, _. split; [done|].
  split; [reflexivity|]. simpl. repeat split.
  apply lookup_union_Some_l. reflexivity.
Qed.

Section Comparison.
Context `{Libraries} `{Comparison}.

Lemma get_comparison_Ok h1 h2 c ru u vals lo hi :
  get_comparison h1 h2 c ru u = Ok (vals, lo, hi) ->
  vals = zip_with (bin_value c ru u) (view h1) (view h2) /\
  length lo = length vals /\ length hi = length vals.
Proof.
  unfold get_comparison. destruct (comparison_check _ _ _ _ _); [discriminate|].
  intros [= <- <- <-]. rewrite !length_fmap. repeat split.
  generalize (view h2). induction (view h1) as [|b1 l IH]; intros [|b2 l2]; simpl; try done.
  f_equal. apply IH.
Qed.

(** What a call of [plot_comparison] that returns has drawn. *)
Lemma plot_comparison_drawn hist_1 hist_2 ax kw s r s' :
  plot_comparison hist_1 hist_2 ax kw s = (Ok r, s') ->
  let c := kw_get "comparison" (PStr "ratio") kw in
  let ru := kw_get "ratio_uncertainty" (PStr "uncorrelated") kw in
  let u := kw_get "hist_1_uncertainty" (PStr "symmetrical") kw in
  exists a l drawn ys,
    axis0 (deref s hist_2) = Ok a /\
    calls s' = (l ++ drawn :: calls s)%list /\
    draws_comparison c ax ys drawn /\
    bin_wise c ru u a (deref s hist_1) (deref s hist_2) ys.
Proof.
  unfold plot_comparison. cbv zeta. intros Hrun.
  inv_step Hrun as h1_label Hl1. inv_step Hrun as h2_label Hl2.
  inv_step Hrun as h1 Hh1. subst h1. inv_step Hrun as h2 Hh2. subst h2.
  inv_step Hrun as [] Hcheck.
  inv_step Hrun as [[vals lo] hi] Hcmp.
  apply get_comparison_Ok in Hcmp as (Hvals & Hlo & Hhi).
  inv_step Hrun as [hc pk] Hm3.
  assert (exists a cells,
            axis0 (deref s hist_2) = Ok a /\ cells.*1 = vals /\
            deref s0 hc = mkHistogram [a] Weight cells [zero_cell; zero_cell] /\
            length cells = axis_size a /\ calls s0 = calls s) as
    (a & cells & Ha & Hcells & Hhc & Hlen & Hcalls).
  { destruct (np_allclose lo hi).
    - inv_step Hm3 as a Ha. apply comparison_hist_run in Hm3 as (? & ? & ? & _).
      eexists _, _. repeat split; [done| |done..].
      apply fst_zip. rewrite length_fmap. lia.
    - inv_step Hm3 as a Ha. apply comparison_hist_run in Hm3 as (? & ? & ? & _).
      eexists _, _. repeat split; [done| |done..].
      apply fst_zip. rewrite length_fmap. lia. }
  clear Hm3. inv_step Hrun as [] Hm2.
  tail_extends Hrun l Hl.
  assert (length vals = axis_size a) as Hsize by (by rewrite <- Hcells, length_fmap).
  assert (exists drawn, calls s1 = drawn :: calls s /\ receiver drawn = Some ax /\
            (if py_eq_str (kw_get "comparison" (PStr "ratio") kw) "pull"
             then method drawn = "hist" /\
                  kwargs drawn !! "weights" = Some (PArr (np_nan_to_num F64.zero vals))
             else method drawn = "errorbar" /\ kwargs drawn !! "y" = Some (PArr vals)))
    as (drawn & Hdrawn & Hrecv & Hkind).
  { destruct (py_eq_str _ "pull").
    - inv_step Hm2 as [] Hrej. apply plot_hist_One_run in Hm2 as (? & drawn & _ & ? & ? & ? & Hw).
      exists drawn. rewrite Hhc in Hw. unfold values in Hw. simpl in Hw.
      rewrite Hcells in Hw. by rewrite <- Hcalls.
    - inv_step Hm2 as [] Hrej. apply plot_error_hist_run in Hm2 as (? & drawn & _ & ? & ? & ? & Hw).
      exists drawn. rewrite Hhc in Hw. unfold values in Hw. simpl in Hw.
      rewrite Hcells in Hw. by rewrite <- Hcalls. }
  exists a, l, drawn, vals. split; [done|]. split; [by rewrite Hl, Hdrawn|].
  split; [done|]. split; [done|].
  intros i Hi. rewrite Hvals in Hsize |- *. rewrite length_zip_with in Hsize.
  destruct (lookup_lt_is_Some_2 (view (deref s hist_1)) i) as [b1 Hb1]; [lia|].
  destruct (lookup_lt_is_Some_2 (view (deref s hist_2)) i) as [b2 Hb2]; [lia|].
  exists b1, b2. repeat split; [done..|].
  rewrite lookup_zip_with, Hb1. simpl. by rewrite Hb2.
Qed.

(** C1.  For two histograms with consistent binning and any kind of
    comparison, a call of [plot_comparison] that returns has drawn, on
    the given axes, one comparison value for each bin, and the value for
    bin [i] is computed from bin [i] of the two histograms alone. *)
Theorem plot_comparison_bin_wise hist_1 hist_2 ax kw s r s' :
  plot_comparison hist_1 hist_2 ax kw s = (Ok r, s') ->
  let c := kw_get "comparison" (PStr "ratio") kw in
  let ru := kw_get "ratio_uncertainty" (PStr "uncorrelated") kw in
  let u := kw_get "hist_1_uncertainty" (PStr "symmetrical") kw in
  _check_binning_consistency [deref s hist_1; deref s hist_2] = Ok tt /\
  exists a l drawn ys,
    axis0 (deref s hist_2) = Ok a /\
    calls s' = (l ++ drawn :: calls s)%list /\
    draws_comparison c ax ys drawn /\
    length ys = axis_size a /\
    forall i, i < axis_size a ->
      exists b1 b2,
        view (deref s hist_1) !! i = Some b1 /\ view (deref s hist_2) !! i = Some b2 /\
        ys !! i = Some (bin_value c ru u b1 b2).
Proof.
  intros Hrun. split.
  - unfold plot_comparison in Hrun. cbv zeta in Hrun.
    inv_step Hrun as h1_label Hl1. inv_step Hrun as h2_label Hl2.
    inv_step Hrun as h1 Hh1. subst h1. inv_step Hrun as h2 Hh2. subst h2.
    inv_step Hrun as [] Hcheck. done.
  - apply plot_comparison_drawn in Hrun as (a & l & drawn & ys & ? & ? & ? & ? & ?).
    by exists a, l, drawn, ys.
Qed.
End Comparison.

Lemma plot_comparison_bin_wise_witness :
  let H := sample_libraries in
  let H0 := sample_comparison in
  let s := (a ← new_hist (hist_1d one_cell one_cell);
            new_hist (hist_1d one_cell one_cell)) module_state in
  let run := plot_comparison 4 5 100 ∅ s.2 in
  let c := kw_get "comparison" (PStr "ratio") ∅ in
  let ru := kw_get "ratio_uncertainty" (PStr "uncorrelated") ∅ in
  let u := kw_get "hist_1_uncertainty" (PStr "symmetrical") ∅ in
  _check_binning_consistency [deref s.2 4; deref s.2 5] = Ok tt /\
  exists a l drawn ys,
    axis0 (deref s.2 5) = Ok a /\
    calls run.2 = (l ++ drawn :: calls s.2)%list /\
    draws_comparison c 100 ys drawn /\
    length ys = axis_size a /\
    forall i, i < axis_size a ->
      exists b1 b2,
        view (deref s.2 4) !! i = Some b1 /\ view (deref s.2 5) !! i = Some b2 /\
        ys !! i = Some (bin_value c ru u b1 b2).
Proof.
  intros H H0 s run c ru u.
  apply (plot_comparison_bin_wise 4 5 100 ∅ s.2 100 run.2).
  vm_compute. reflexivity.
Defined.

(** ** Histograms left untouched *)

Section Keeps.
Context (n0 : nat) (X : nat -> Prop).

Lemma keeps_bind {A B} (P : A -> Prop) (Q : B -> Prop) (m : M A) (k : A -> M B) :
  keeps n0 X P m -> (forall a, P a -> keeps n0 X Q (k a)) -> keeps n0 X Q (x ← m; k x).
Proof.
  intros Hm Hk s Hs. rewrite run_bind. destruct (Hm s Hs) as (Hn & Hf & HP).
  destruct (m s) as [[a|e] s1]; simpl in *; [|done].
  destruct (Hk a (HP a eq_refl) s1) as (Hn' & Hf' & HQ); [lia|].
  split; [lia|]. split; [|done]. intros x ? ?. rewrite Hf' by done. by apply Hf.
Qed.

Lemma keeps_weaken {A} (P Q : A -> Prop) (m : M A) :
  (forall a, P a -> Q a) -> keeps n0 X P m -> keeps n0 X Q m.
Proof. intros HPQ Hm s Hs. destruct (Hm s Hs) as (? & ? & ?). eauto. Qed.

Lemma keeps_any {A} (P : A -> Prop) (m : M A) : keeps n0 X P m -> keeps n0 X any m.
Proof. by apply keeps_weaken. Qed.

Lemma keeps_seq {A B} (Q : B -> Prop) (m : M A) (k : A -> M B) :
  keeps n0 X any m -> (forall a, keeps n0 X Q (k a)) -> keeps n0 X Q (x ← m; k x).
Proof. intros Hm Hk. eapply keeps_bind; [done|]. intros a _. apply Hk. Qed.

Lemma keeps_ret {A} (Q : A -> Prop) (a : A) : Q a -> keeps n0 X Q (mret a).
Proof. intros Ha s Hs. repeat split; [done..|]. by intros ? [= <-]. Qed.
Lemma keeps_raise {A} (Q : A -> Prop) e : keeps n0 X Q (raise e).
Proof. intros s Hs. repeat split; done. Qed.
Lemma keeps_lift {A} (r : Res A) : keeps n0 X any (lift r).
Proof. intros s Hs. repeat split; done. Qed.
Lemma keeps_emit c : keeps n0 X any (emit c).
Proof. intros s Hs. repeat split; done. Qed.
Lemma keeps_get_hist r : keeps n0 X any (get_hist r).
Proof. intros s Hs. repeat split; done. Qed.
Lemma keeps_get_dict r : keeps n0 X any (get_dict r).
Proof. intros s Hs. repeat split; done. Qed.
Lemma keeps_set_dict r d : keeps n0 X any (set_dict r d).
Proof. intros s Hs. repeat split; done. Qed.
Lemma keeps_fresh : keeps n0 X (le n0) fresh.
Proof.
  intros s Hs. split; [simpl; lia|]. split; [done|]. simpl. by intros ? [= <-].
Qed.
Lemma keeps_set_hist r h : X r \/ n0 <= r -> keeps n0 X any (set_hist r h).
Proof.
  intros Hr s Hs. simpl. repeat split; [done|]. intros x ? ?.
  apply lookup_insert_ne. intros ->. destruct Hr; [done|lia].
Qed.
Lemma keeps_new_hist h : keeps n0 X (le n0) (new_hist h).
Proof.
  unfold new_hist. eapply keeps_bind; [apply keeps_fresh|]. intros r Hr.
  apply keeps_seq; [apply keeps_set_hist; by right|]. intros _. by apply keeps_ret.
Qed.
Lemma keeps_mapM {A B} (f : A -> M B) (l : list A) :
  (forall a, a ∈ l -> keeps n0 X any (f a)) -> keeps n0 X any (mapM f l).
Proof.
  induction l as [|a l IH]; intros Hf; simpl; [by apply keeps_ret|].
  apply keeps_seq; [apply Hf; by left|]. intros b.
  apply keeps_seq; [apply IH; intros; apply Hf; by right|]. intros bs. by apply keeps_ret.
Qed.
End Keeps.

Create HintDb keeps.
#[local] Hint Resolve keeps_raise keeps_lift keeps_emit keeps_get_hist keeps_get_dict
  keeps_set_dict : keeps.
#[local] Hint Extern 1 (keeps _ _ any (mret _)) => apply keeps_ret; exact I : keeps.
#[local] Hint Extern 2 (keeps _ _ any fresh) => eapply keeps_any; apply keeps_fresh : keeps.
#[local] Hint Extern 2 (keeps _ _ any (new_hist _)) => eapply keeps_any; apply keeps_new_hist : keeps.
#[local] Hint Extern 2 (keeps _ _ any (set_hist _ _)) => apply keeps_set_hist; assumption : keeps.

Ltac keeps_step :=
  match goal with
  | |- keeps _ _ _ (mbind _ _) => apply keeps_seq; [|intros ?]
  | |- keeps _ _ _ (mapM _ _) => apply keeps_mapM; intros ? ?
  | |- keeps _ _ _ (let '(_, _) := ?p in _) => destruct p
  | |- keeps _ _ _ (if ?b then _ else _) => destruct b
  | |- keeps _ _ _ (match ?x with _ => _ end) => destruct x
  | |- keeps _ _ _ _ => solve [eauto with keeps]
  end.
Ltac solve_keeps := repeat keeps_step.

Section KeepsModel.
Context (n0 : nat) (X : nat -> Prop).

Lemma keeps_ext_call recv meth pos explicit splat :
  keeps n0 X any (ext_call recv meth pos explicit splat).
Proof. unfold ext_call. solve_keeps. Qed.
Lemma keeps_plt_subplots n kw : keeps n0 X any (plt_subplots n kw).
Proof. unfold plt_subplots. solve_keeps. Qed.
Hint Resolve keeps_ext_call keeps_plt_subplots : keeps.
Lemma keeps_create_comparison_figure n : keeps n0 X any (create_comparison_figure n).
Proof. unfold create_comparison_figure. solve_keeps. Qed.
Lemma keeps_get_hists rs : keeps n0 X any (get_hists rs).
Proof. unfold get_hists. solve_keeps. Qed.
Lemma keeps_set_fitting ax : keeps n0 X any (set_fitting_ylabel_fontsize ax).
Proof. unfold set_fitting_ylabel_fontsize. solve_keeps. Qed.
Hint Resolve keeps_create_comparison_figure keeps_get_hists keeps_set_fitting : keeps.
Lemma keeps_py_sum rs : keeps n0 X (le n0) (py_sum rs).
Proof.
  unfold py_sum. apply keeps_seq; [solve_keeps|]. intros [|h hs]; [apply keeps_raise|].
  apply keeps_new_hist.
Qed.
Lemma keeps_nan_to_num_values r copy :
  X r \/ n0 <= r -> keeps n0 X any (nan_to_num_values r copy).
Proof. intros Hr. unfold nan_to_num_values. solve_keeps. Qed.
Lemma keeps_hist_assign r cells : X r \/ n0 <= r -> keeps n0 X any (hist_assign r cells).
Proof. intros Hr. unfold hist_assign. solve_keeps. Qed.
Lemma keeps_plot_hist_One r ax kw :
  X r \/ n0 <= r -> keeps n0 X any (plot_hist (One r) ax kw).
Proof.
  intros Hr. unfold plot_hist. apply keeps_seq; [solve_keeps|]. intros h.
  apply keeps_seq; [solve_keeps|]. intros a.
  apply keeps_seq; [by apply keeps_nan_to_num_values|]. intros w. solve_keeps.
Qed.
Lemma keeps_plot_hist_Many rs ax kw :
  (forall r, r ∈ rs -> X r \/ n0 <= r) -> keeps n0 X any (plot_hist (Many rs) ax kw).
Proof.
  intros Hr. unfold plot_hist. apply keeps_seq; [solve_keeps|]. intros hs.
  apply keeps_seq; [solve_keeps|]. intros _.
  apply keeps_seq; [solve_keeps|]. intros x.
  apply keeps_seq; [solve_keeps|]. intros bins.
  apply keeps_seq; [|intros w; solve_keeps].
  apply keeps_mapM. intros r Hin. apply keeps_seq; [|intros w; solve_keeps].
  by apply keeps_nan_to_num_values, Hr.
Qed.

Lemma keeps_plot_model m xlabel ylabel sk leg_ncol fig ax :
  (forall r, r ∈ stacked_components m -> X r) ->
  (forall r, r ∈ unstacked_components m -> X r) ->
  keeps n0 X any (plot_model m xlabel ylabel sk false leg_ncol fig ax).
Proof.
  intros Hst Hun. unfold plot_model. cbv zeta.
  apply (keeps_bind _ _ (eq (stacked_components m))); [by apply keeps_ret|]. intros st <-.
  apply (keeps_bind _ _ (eq (unstacked_components m))); [by apply keeps_ret|]. intros un <-.
  case_bool_decide; [apply keeps_raise|].
  apply keeps_seq; [solve_keeps|]. intros hs.
  apply keeps_seq; [solve_keeps|]. intros _.
  apply keeps_seq; [solve_keeps|]. intros [fig' ax'].
  apply keeps_seq.
  { case_bool_decide; [|solve_keeps]. apply keeps_plot_hist_Many. auto. }
  intros _. apply keeps_seq; [|intros _; solve_keeps].
  case_bool_decide; [|solve_keeps].
  apply keeps_seq; [apply keeps_plot_hist_Many; auto|]. intros _.
  apply keeps_seq; [solve_keeps|]. intros d.
  apply keeps_seq; [solve_keeps|]. intros _.
  destruct (truthy _); [|solve_keeps].
  eapply keeps_bind; [apply keeps_py_sum|]. intros total Htotal.
  apply keeps_seq; [solve_keeps|]. intros _.
  apply keeps_seq; [solve_keeps|]. intros kw.
  apply keeps_plot_hist_One. by right.
Qed.
End KeepsModel.

#[local] Hint Resolve keeps_ext_call keeps_plt_subplots keeps_create_comparison_figure
  keeps_get_hists keeps_set_fitting : keeps.

Lemma keeps_run {A} n0 X (Q : A -> Prop) (m : M A) s a s' :
  keeps n0 X Q m -> n0 <= next_id s -> m s = (Ok a, s') ->
  n0 <= next_id s' /\ (forall x, x < n0 -> ~ X x -> hists s' !! x = hists s !! x) /\ Q a.
Proof.
  intros Hm Hs Hrun. destruct (Hm s Hs) as (? & ? & HQ). rewrite Hrun in *. simpl in *.
  repeat split; [lia|done|by apply HQ].
Qed.

(** ** compare_data_model *)

Lemma mono_run {A} (m : M A) s r s' : mono m -> m s = (r, s') -> extends s s'.
Proof. intros Hm Hrun. specialize (Hm s). by rewrite Hrun in Hm. Qed.

Lemma ext_call_run recv meth pos explicit splat s u s1 :
  ext_call recv meth pos explicit splat s = (Ok u, s1) ->
  hists s1 = hists s /\ exists c, calls s1 = c :: calls s.
Proof.
  unfold ext_call, emit. unfold mbind, M_bind, bind, lift.
  destruct (kw_merge _ _); [|discriminate]. intros ?. simplify_eq. simpl.
  split; [done|]. by eexists.
Qed.

Lemma plot_hist_uncertainties_run hist ax kw s u s1 :
  plot_hist_uncertainties hist ax kw s = (Ok u, s1) ->
  hists s1 = hists s /\ exists c, calls s1 = c :: calls s.
Proof.
  unfold plot_hist_uncertainties. cbv zeta. intros Hrun.
  inv_step Hrun as h Hh. subst h. inv_step Hrun as a Ha.
  by apply ext_call_run in Hrun.
Qed.

Lemma lookup_setdefault (k : string) v (d : gmap string pyval) k' :
  setdefault k v d !! k' = if decide (k = k') then Some (default v (d !! k)) else d !! k'.
Proof.
  unfold setdefault. destruct (d !! k) eqn:E; case_decide; subst; simplify_map_eq; done.
Qed.

Lemma kw_get_setdefault_ne (k k' : string) d v (m : gmap string pyval) :
  k <> k' -> kw_get k d (setdefault k' v m) = kw_get k d m.
Proof. intros ?. unfold kw_get. rewrite lookup_setdefault. by case_decide. Qed.

Lemma kw_get_setdefault_eq (k : string) d v (m : gmap string pyval) :
  kw_get k d (setdefault k v m) = kw_get k v m.
Proof. unfold kw_get. rewrite lookup_setdefault. by case_decide. Qed.

Section DataUncertainty.
Context `{Libraries} `{Comparison}.

(** The data drawn by [compare_data_model]. *)
Lemma plot_error_hist_data_run hist ax (b : bool) color label s u s1 :
  plot_error_hist hist ax
    (list_to_map [("uncertainty_type", if b then PStr "asymmetrical" else PStr "symmetrical");
                  ("color", color); ("label", label)]) s = (Ok u, s1) ->
  hists s1 = hists s /\
  exists drawn,
    calls s1 = drawn :: calls s /\
    receiver drawn = Some ax /\ method drawn = "errorbar" /\
    kwargs drawn !! "y" = Some (PArr (values (deref s hist))) /\
    if b
    then exists lo hi,
           get_asymmetrical_uncertainties (deref s hist) = Ok (lo, hi) /\
           kwargs drawn !! "yerr" = Some (PList [PArr lo; PArr hi])
    else kwargs drawn !! "yerr" = Some (PArr (F64.sqrt <$> variances (deref s hist))).
Proof.
  unfold plot_error_hist. cbv zeta. simpl list_to_map.
  rewrite lookup_insert_eq. simpl default. intros Hrun.
  inv_step Hrun as [] Hty. inv_step Hrun as h Hh. subst h.
  inv_step Hrun as kw1 Hm1. inv_step Hrun as a Ha.
  unfold ext_call, emit in Hrun.
  unfold mbind, M_bind, mret, M_ret, bind, ret, raise, lift in Hrun. simpl in Hrun.
  destruct (kw_merge _ _) as [kw'|] eqn:Hkw; [|discriminate].
  apply kw_merge_Ok in Hkw. simplify_eq. simpl.
  destruct b; simpl in Hm1.
  - inv_step Hm1 as [lo hi] Hasym. unfold mret, M_ret, ret in Hm1. simplify_eq.
    split; [done|]. eexists. split; [reflexivity|]. simpl.
    split; [done|]. split; [done|]. split; [by apply lookup_union_Some_l|].
    exists lo, hi. split; [done|].
    rewrite lookup_union_r by done. unfold setdefault.
    rewrite delete_insert_eq. simplify_map_eq. done.
  - unfold mret, M_ret, ret in Hm1. simplify_eq.
    split; [done|]. eexists. split; [reflexivity|]. simpl.
    split; [done|]. split; [done|]. split; [by apply lookup_union_Some_l|].
    rewrite lookup_union_r by done. unfold setdefault.
    rewrite delete_insert_eq. simplify_map_eq. done.
Qed.

(** C2.  A call of [compare_data_model] that returns has drawn the data
    on the main axes, and has computed the comparison, with asymmetrical
    uncertainties (the Poisson interval) exactly when the data histogram
    is unweighted, and with the square root of the variances otherwise. *)
Theorem data_uncertainty_type data_hist m xlabel ylabel data_label sk flatten mu mul
    fig ax_main ax_comparison kw s fig' am ac s' :
  compare_data_model data_hist m xlabel ylabel data_label sk flatten mu mul
    fig ax_main ax_comparison kw s = (Ok (fig', am, ac), s') ->
  data_uncertainty_drawn data_hist m flatten kw s am ac s'.
Proof.
  unfold compare_data_model, data_uncertainty_drawn. cbv zeta. intros Hrun.
  inv_step Hrun as data_hist' Hflat.
  inv_step Hrun as stacked Hst.
  inv_step Hrun as unstacked Hun.
  case_bool_decide; [discriminate|].
  inv_step Hrun as hs Hhs.
  inv_step Hrun as [] Hcheck.
  inv_step Hrun as [[fig2 am2] ac2] Hfig.
  inv_step Hrun as model_hist Hsum.
  inv_step Hrun as [fig3 ax3] Hmodel.
  inv_step Hrun as [] Hzero.
  inv_step Hrun as dh Hdh. subst dh.
  inv_step Hrun as [] Hdraw.
  inv_step Hrun as [] Hticks.
  inv_step Hrun as ck Hck.
  inv_step Hrun as [] Hleg.
  inv_step Hrun as [] Hrej.
  inv_step Hrun as kwc Hkwc.
  inv_step Hrun as axc Hcmp.
  inv_step Hrun as fs Hfs.
  inv_step Hrun as [] Hsize.
  inv_step Hrun as [] Halign.
  unfold mret, M_ret, ret in Hrun. simplify_eq.
  exists data_hist', s7. cbv zeta.
  split. { intros ->. unfold mret, M_ret, ret in Hflat. by simplify_eq. }
  split.
  { eapply extends_trans; [eapply mono_run; [|exact Hflat]; solve_mono|].
    eapply extends_trans; [eapply mono_run; [|exact Hst]; solve_mono|].
    eapply extends_trans; [eapply mono_run; [|exact Hun]; solve_mono|].
    eapply extends_trans; [eapply mono_run; [|exact Hhs]; solve_mono|].
    eapply extends_trans; [eapply mono_run; [|exact Hfig]; solve_mono|].
    eapply extends_trans; [eapply mono_run; [|exact Hsum]; solve_mono|].
    eapply extends_trans; [eapply mono_run; [|exact Hmodel]; solve_mono|].
    eapply mono_run; [|exact Hzero]. solve_mono. }
  split.
  { intros -> Hlive Hfree. unfold mret, M_ret, ret in Hflat, Hst, Hun.
    injection Hflat as <- <-. injection Hst as <- <-. injection Hun as <- <-.
    set (X := fun r => r ∈ (stacked_components m ++ unstacked_components m)%list).
    eapply (keeps_run (next_id s) X any) in Hhs as (Hn3 & Hf3 & _);
      [|apply keeps_get_hists|done].
    eapply (keeps_run (next_id s) X any) in Hfig as (Hn4 & Hf4 & _);
      [|destruct fig, ax_main, ax_comparison; solve_keeps|done].
    eapply (keeps_run (next_id s) X) in Hsum as (Hn5 & Hf5 & Hmh);
      [|apply keeps_py_sum|done].
    eapply (keeps_run (next_id s) X any) in Hmodel as (Hn6 & Hf6 & _);
      [|apply keeps_plot_model; simpl; intros r Hr; apply elem_of_app; auto|done].
    eapply (keeps_run (next_id s) X any) in Hzero as (Hn7 & Hf7 & _);
      [|destruct (negb mu); [|solve_keeps];
        apply keeps_seq; [solve_keeps|]; intros mh; apply keeps_hist_assign; by right|done].
    unfold deref. by rewrite Hf7, Hf6, Hf5, Hf4, Hf3. }
  apply plot_error_hist_data_run in Hdraw as (Hh8 & drawn_d & Hc8 & ? & ? & ? & Hyerr).
  apply ext_call_run in Hticks as (Hh9 & c9 & Hc9).
  assert (hists s10 = hists s9 /\ exists l, calls s10 = (l ++ calls s9)%list) as (Hh10 & l10 & Hc10).
  { destruct mu.
    - inv_step Hck as [] Hunc. unfold mret, M_ret, ret in Hck. simplify_eq.
      apply plot_hist_uncertainties_run in Hunc as (? & cu & ?). split; [done|]. by exists [cu].
    - inv_step Hck as c Hc. destruct (py_eq_str _ _).
      + inv_step Hck as h1 Hh1. inv_step Hck as h2 Hh2.
        unfold mret, M_ret, ret in Hck. simplify_eq. split; [done|]. by exists [].
      + unfold mret, M_ret, ret in Hck. simplify_eq. split; [done|]. by exists []. }
  apply ext_call_run in Hleg as (Hh11 & c11 & Hc11).
  apply kw_merge_Ok in Hkwc.
  apply plot_comparison_drawn in Hcmp as (a & l & drawn_c & ys & Ha & Hcc & Hdc & Hbw).
  assert (extends s12 s') as [lt Hlt].
  { eapply extends_trans; [eapply mono_run; [|exact Hfs]; solve_mono|].
    eapply extends_trans; [eapply mono_run; [|exact Hsize]; solve_mono|].
    eapply mono_run; [|exact Halign]. solve_mono. }
  assert (deref s11 data_hist' = deref s7 data_hist') as Hsame.
  { unfold deref. by rewrite Hh11, Hh10, Hh9, Hh8. }
  assert (kw_get "hist_1_uncertainty" (PStr "symmetrical") kwc
          = if _is_unweighted (deref s7 data_hist')
            then PStr "asymmetrical" else PStr "symmetrical") as Hu.
  { subst kwc. unfold kw_get. by erewrite lookup_union_Some_l. }
  assert (forall k d, k <> "xlabel" -> k <> "hist_1_uncertainty" -> k <> "comparison_ylabel" ->
            kw_get k d kwc
            = kw_get k d (setdefault "ratio_uncertainty" (PStr "split")
                           (setdefault "comparison" (PStr "ratio")
                              (setdefault "h2_label" (PStr "Pred.")
                                 (setdefault "h1_label" data_label kw))))) as Hkw.
  { intros k d ? ? ?. subst kwc. unfold kw_get. rewrite lookup_union_r by by simplify_map_eq.
    destruct mu.
    - inv_step Hck as [] Hunc. unfold mret, M_ret, ret in Hck. by simplify_eq.
    - inv_step Hck as c Hc. destruct (py_eq_str _ _).
      + inv_step Hck as h1 Hh1. inv_step Hck as h2 Hh2.
        unfold mret, M_ret, ret in Hck. simplify_eq.
        rewrite (lookup_setdefault "comparison_ylabel"). by case_decide.
      + unfold mret, M_ret, ret in Hck. by simplify_eq. }
  rewrite Hkw in Hdc by done. rewrite Hu, !Hkw in Hbw by done. rewrite Hsame in Hbw.
  assert (kw_get "comparison" (PStr "ratio")
            (setdefault "ratio_uncertainty" (PStr "split")
               (setdefault "comparison" (PStr "ratio")
                  (setdefault "h2_label" (PStr "Pred.")
                     (setdefault "h1_label" data_label kw))))
          = kw_get "comparison" (PStr "ratio") kw) as Hc.
  { rewrite kw_get_setdefault_ne, kw_get_setdefault_eq by done.
    by rewrite !kw_get_setdefault_ne by done. }
  assert (kw_get "ratio_uncertainty" (PStr "uncorrelated")
            (setdefault "ratio_uncertainty" (PStr "split")
               (setdefault "comparison" (PStr "ratio")
                  (setdefault "h2_label" (PStr "Pred.")
                     (setdefault "h1_label" data_label kw))))
          = kw_get "ratio_uncertainty" (PStr "split") kw) as Hru.
  { rewrite kw_get_setdefault_eq. by rewrite !kw_get_setdefault_ne by done. }
  rewrite Hc in Hdc. rewrite Hc, Hru in Hbw.
  exists (lt ++ l)%list, drawn_c, (c11 :: l10 ++ [c9])%list, drawn_d, a,
    (deref s11 model_hist), ys.
  split.
  { rewrite Hlt, Hcc, Hc11, Hc10, Hc9, Hc8. rewrite <- !app_assoc. simpl.
    by rewrite <- !app_assoc. }
  done.
Qed.
End DataUncertainty.

Lemma data_uncertainty_type_witness :
  let H := sample_libraries in
  let H0 := sample_comparison in
  let s := (a ← new_hist (hist_1d one_cell one_cell);
            new_hist (hist_1d one_cell one_cell)) module_state in
  let m := mkModel [5] PNone PNone [] PNone PNone in
  let run := compare_data_model 4 m PNone PNone (PStr "Data")
               compare_data_model_model_sum_kwargs false true (PStr "Model stat. unc.")
               None None None ∅ s.2 in
  run.1 = Ok (6, 7, 8) /\ data_uncertainty_drawn 4 m false ∅ s.2 7 8 run.2.
Proof.
  intros H H0 s m run. split; [vm_compute; reflexivity|].
  apply (data_uncertainty_type 4 m PNone PNone (PStr "Data")
           compare_data_model_model_sum_kwargs false true (PStr "Model stat. unc.")
           None None None ∅ s.2 6 7 8 run.2).
  vm_compute. reflexivity.
Defined.

(** ** Mismatched binnings *)

Lemma get_hists_run rs s : get_hists rs s = (Ok (deref s <$> rs), s).
Proof.
  unfold get_hists. induction rs as [|r rs IH]; simpl; [done|].
  rewrite run_bind, run_get_hist, run_bind, IH. done.
Qed.

Lemma fails_at_ok {A B} (m : M A) (k : A -> M B) s a :
  m s = (Ok a, s) -> fails_at s (k a) -> fails_at s (x ← m; k x).
Proof. intros Hm. unfold fails_at. by rewrite run_bind, Hm. Qed.

Lemma fails_at_raise {A B} (m : M A) (k : A -> M B) s e :
  m s = (Raise e, s) -> fails_at s (x ← m; k x).
Proof. intros Hm. exists e. by rewrite run_bind, Hm. Qed.

Ltac step_ok L := eapply fails_at_ok; [apply L|].
Ltac step_raise :=
  eapply fails_at_raise; rewrite run_lift;
  match goal with H : _ = Raise _ |- _ => rewrite H end.

Section Mismatch.
Context `{Libraries} `{Comparison}.

(** Where the binning check runs on the histograms as given, a mismatch
    makes the function raise before any call of the plotting library:
    in [plot_hist] on a list, [compare_two_hist], [plot_comparison],
    [plot_mc] and [compare_data_mc], and in [plot_model] and
    [compare_data_model] without [flatten_2d_hist]. *)
Lemma mismatched_binning_raises s e :
  (forall hist ax kw,
     _check_binning_consistency (deref s <$> hist) = Raise e ->
     fails_at s (plot_hist (Many hist) ax kw)) /\
  (forall h1 h2,
     _check_binning_consistency [deref s h1; deref s h2] = Raise e ->
     (forall xlabel ylabel l1 l2 fig am ac kw,
        fails_at s (compare_two_hist h1 h2 xlabel ylabel l1 l2 fig am ac kw)) /\
     (forall ax kw, fails_at s (plot_comparison h1 h2 ax kw))) /\
  (forall mc signal,
     _check_binning_consistency
       (deref s <$> (mc ++ match signal with Some x => [x] | None => [] end)%list) = Raise e ->
     forall xlabel ylabel l c sl sc fig ax flatten stacked leg,
       fails_at s (plot_mc mc signal xlabel ylabel l c sl sc fig ax flatten stacked leg)) /\
  (forall data mc signal,
     _check_binning_consistency
       (deref s <$> (mc ++ [data] ++ match signal with Some x => [x] | None => [] end)%list)
       = Raise e ->
     forall xlabel ylabel l c sl sc dl flatten stacked mu mul fig am ac kw,
       fails_at s (compare_data_mc data mc signal xlabel ylabel l c sl sc dl flatten
                     stacked mu mul fig am ac kw)) /\
  (forall m,
     _check_binning_consistency
       (deref s <$> (stacked_components m ++ unstacked_components m)%list) = Raise e ->
     forall xlabel ylabel sk leg fig ax,
       fails_at s (plot_model m xlabel ylabel sk false leg fig ax)) /\
  (forall data m,
     _check_binning_consistency
       (deref s <$> ((stacked_components m ++ unstacked_components m) ++ [data])%list) = Raise e ->
     forall xlabel ylabel dl sk mu mul fig am ac kw,
       fails_at s (compare_data_model data m xlabel ylabel dl sk false mu mul fig am ac kw)).
Proof.
  repeat split; intros.
  - unfold plot_hist. step_ok get_hists_run. by step_raise.
  - unfold compare_two_hist. do 2 step_ok run_get_hist. by step_raise.
  - unfold plot_comparison. cbv zeta.
    destruct (_get_math_text (kw_get "h1_label" (PStr "h1") kw)) as [l1|e1] eqn:E1;
      [step_ok (run_lift (Ok l1))|by eapply fails_at_raise; rewrite run_lift].
    destruct (_get_math_text (kw_get "h2_label" (PStr "h2") kw)) as [l2|e2] eqn:E2;
      [step_ok (run_lift (Ok l2))|by eapply fails_at_raise; rewrite run_lift].
    do 2 step_ok run_get_hist. by step_raise.
  - unfold plot_mc. step_ok get_hists_run. by step_raise.
  - unfold compare_data_mc. step_ok get_hists_run. by step_raise.
  - unfold plot_model. cbv zeta. do 2 step_ok (@run_ret (list nat)).
    case_bool_decide; [by eexists|]. step_ok get_hists_run. by step_raise.
  - unfold compare_data_model. cbv zeta. step_ok (@run_ret nat).
    do 2 step_ok (@run_ret (list nat)).
    case_bool_decide; [by eexists|]. step_ok get_hists_run. by step_raise.
Qed.
End Mismatch.

(** ** _get_math_text *)

Lemma until_dollar_Some s m :
  until_dollar s = Some m -> plain m = true /\ 1 <= dollars s.
Proof.
  revert m. induction s as [|c r IH]; simpl; [done|]. intros m.
  destruct (Ascii.eqb c dollar) eqn:Hd; [intros [= <-]; split; [done|lia]|].
  destruct (Ascii.eqb c newline) eqn:Hn; [done|].
  destruct (until_dollar r) as [m'|]; [|done]. intros [= <-].
  destruct (IH m' eq_refl) as [Hp Hr]. simpl. rewrite Hd, Hn, Hp. split; [done|lia].
Qed.

Lemma search_math_Some s m :
  search_math s = Some m -> plain m = true /\ 2 <= dollars s.
Proof.
  revert m. induction s as [|c r IH]; simpl; [done|]. intros m.
  destruct (Ascii.eqb c dollar) eqn:Hd.
  - destruct (until_dollar r) as [m'|] eqn:Hu.
    + intros [= <-]. apply until_dollar_Some in Hu as [? ?]. split; [done|lia].
    + intros Hs. apply IH in Hs as [? ?]. split; [done|lia].
  - intros Hs. apply IH in Hs as [? ?]. split; [done|lia].
Qed.

Lemma plain_dollars m : plain m = true -> dollars m = 0.
Proof.
  induction m as [|c r IH]; simpl; [done|].
  destruct (Ascii.eqb c dollar); simpl; [done|].
  destruct (Ascii.eqb c newline); simpl; [done|]. auto.
Qed.

Lemma until_dollar_plain m post :
  plain m = true -> until_dollar (m ++ String dollar post) = Some m.
Proof.
  induction m as [|c r IH]; simpl; [done|].
  destruct (Ascii.eqb c dollar); simpl; [done|].
  destruct (Ascii.eqb c newline); simpl; [done|].
  intros Hr. by rewrite IH.
Qed.

Lemma search_math_skip pre s :
  dollars pre = 0 -> search_math (pre ++ s) = search_math s.
Proof.
  induction pre as [|c r IH]; simpl; [done|].
  destruct (Ascii.eqb c dollar); simpl; [done|]. auto.
Qed.

(** X1.  A text with fewer than two dollar signs is returned as it is. *)
Theorem get_math_text_unmatched text :
  dollars text < 2 -> _get_math_text (PStr text) = Ok text.
Proof.
  intros Hd. simpl. destruct (search_math text) as [m|] eqn:Hs; [|done].
  apply search_math_Some in Hs as [_ ?]. lia.
Qed.

Lemma get_math_text_unmatched_witness :
  _get_math_text (PStr "Cost in $") = Ok "Cost in $".
Proof. apply (get_math_text_unmatched "Cost in $"). simpl. lia. Defined.

(** X2.  The text between the first two dollar signs is extracted: what
    precedes the first dollar sign and what follows the second is dropped,
    provided the text between them is on one line. *)
Theorem get_math_text_extracts pre m post :
  dollars pre = 0 -> plain m = true ->
  _get_math_text (PStr (pre ++ String dollar (m ++ String dollar post))) = Ok m.
Proof.
  intros Hpre Hm. simpl. rewrite search_math_skip by done. simpl.
  by rewrite until_dollar_plain.
Qed.

Lemma get_math_text_extracts_witness :
  _get_math_text (PStr "Pred. $\mu_{sig}$ (fit) $x$") = Ok "\mu_{sig}".
Proof.
  apply (get_math_text_extracts "Pred. " "\mu_{sig}" " (fit) $x$"); reflexivity.
Defined.

(** X3.  Extraction is idempotent: the text extracted holds no dollar
    sign, so that extracting again changes nothing. *)
Theorem get_math_text_idempotent text :
  (r ← _get_math_text (PStr text); _get_math_text (PStr r)) = _get_math_text (PStr text).
Proof.
  simpl. destruct (search_math text) as [m|] eqn:Hs; simpl; [|by rewrite Hs].
  apply search_math_Some in Hs as [Hp _]. apply plain_dollars in Hp.
  destruct (search_math m) as [m'|] eqn:Hs'; [|done].
  apply search_math_Some in Hs' as [_ ?]. lia.
Qed.
(** ** create_axis: symbolic bounds, NaN in the data *)



Lemma ltb_nan_r y : F64.ltb y F64.nan = false.
Proof. by destruct y as [[]|[]| |[]]. Qed.
Lemma ltb_nan_l y : F64.ltb F64.nan y = false.
Proof. by destruct y. Qed.

Lemma py_min_nan_first data : py_min (F64.nan :: data) = Ok F64.nan.
Proof.
  simpl. f_equal. induction data as [|y l IH]; simpl; [done|]. by rewrite ltb_nan_r.
Qed.
Lemma py_max_nan_first data : py_max (F64.nan :: data) = Ok F64.nan.
Proof.
  simpl. f_equal. induction data as [|y l IH]; simpl; [done|]. done.
Qed.

(** X5.  The range detected from the data depends on where a NaN stands:
    when the first element is NaN, no later element compares below or
    above it, minimum and maximum are both NaN and [create_axis] raises
    [ValueError], whatever the other data. *)
Theorem create_axis_nan_first data n s :
  create_axis (F64.nan :: data) (BinsInt n) None s
  = (Raise (ValueError (AutoRangeNotFinite F64.nan F64.nan)), s).
Proof.
  unfold create_axis. rewrite bool_decide_eq_false_2 by (simpl; lia).
  rewrite bool_decide_eq_false_2 by done.
  rewrite py_min_nan_first, py_max_nan_first. done.
Qed.

Lemma ltb_not_nan a b : F64.ltb a b = true -> not_nan a /\ not_nan b.
Proof. intros H%ltb_key. unfold not_nan. tauto. Qed.

Lemma fold_min_filter l m :
  not_nan m ->
  fold_left (fun m y => if F64.ltb y m then y else m) l m
  = fold_left (fun m y => if F64.ltb y m then y else m) (filter not_nan l) m.
Proof.
  revert m. induction l as [|y l IH]; intros m Hm; simpl; [done|].
  destruct (decide (not_nan y)) as [Hy|Hy].
  - rewrite filter_cons_True by done. simpl. apply IH. by destruct (F64.ltb y m).
  - rewrite filter_cons_False by done.
    destruct (F64.ltb y m) eqn:E; [|by apply IH]. apply ltb_not_nan in E. tauto.
Qed.

Lemma fold_max_filter l m :
  not_nan m ->
  fold_left (fun m y => if F64.ltb m y then y else m) l m
  = fold_left (fun m y => if F64.ltb m y then y else m) (filter not_nan l) m.
Proof.
  revert m. induction l as [|y l IH]; intros m Hm; simpl; [done|].
  destruct (decide (not_nan y)) as [Hy|Hy].
  - rewrite filter_cons_True by done. simpl. apply IH. by destruct (F64.ltb m y).
  - rewrite filter_cons_False by done.
    destruct (F64.ltb m y) eqn:E; [|by apply IH]. apply ltb_not_nan in E. tauto.
Qed.

(** X6.  When the first element of the data is a number, every NaN after
    it is ignored: [create_axis] behaves as on the data without them. *)
Theorem create_axis_ignores_nan x data bins range s :
  not_nan x ->
  create_axis (x :: data) bins range s
  = create_axis (x :: filter not_nan data) bins range s.
Proof.
  intros Hx.
  assert (py_min (x :: data) = py_min (x :: filter not_nan data)) as Hmin
    by (simpl; f_equal; by apply fold_min_filter).
  assert (py_max (x :: data) = py_max (x :: filter not_nan data)) as Hmax
    by (simpl; f_equal; by apply fold_max_filter).
  unfold create_axis, resolve_min, resolve_max. rewrite Hmin, Hmax.
  rewrite !(bool_decide_eq_false_2 (length (_ :: _) = 0)) by done. done.
Qed.

Lemma create_axis_ignores_nan_witness :
  create_axis [F64.one; F64.nan; F64.of_Z 3] (BinsInt 10) None module_state
  = create_axis [F64.one; F64.of_Z 3] (BinsInt 10) None module_state.
Proof.
  apply (create_axis_ignores_nan F64.one [F64.nan; F64.of_Z 3] (BinsInt 10) None
           module_state).
  reflexivity.
Defined.
(** ** _flatten_2d_hist *)

(** X7.  Flattening a two-dimensional histogram with weighted storage
    gives a new histogram on the regular axis [(n, 0, n)], [n] the number
    of cells, that holds the values and variances of the cells in the
    same (row-major) order and nothing in its flow cells; the histogram
    given and everything else in the store are left as they are. *)
Theorem flatten_2d_hist_keeps_cells r s :
  flattenable (deref s r) -> storage (deref s r) = Weight ->
  let n := Z.of_nat (length (view (deref s r))) in
  exists s',
    _flatten_2d_hist r s = (Ok (next_id s), s') /\
    deref s' (next_id s)
    = mkHistogram [Regular n F64.zero (F64.of_Z n)] Weight (view (deref s r))
        [zero_cell; zero_cell] /\
    (forall x, x <> next_id s -> hists s' !! x = hists s !! x) /\
    dicts s' = dicts s /\ calls s' = calls s /\ warns s' = warns s.
Proof.
  intros Hfl _ n. unfold flattenable in Hfl. unfold _flatten_2d_hist.
  rewrite run_bind, run_get_hist.
  destruct (axes (deref s r)) as [|a0 [|a1 ?]]; try done.
  rewrite bool_decide_eq_true_2 by done.
  unfold new_hist. rewrite run_bind, run_fresh. simpl.
  eexists. split; [reflexivity|]. simpl. unfold deref. simpl.
  rewrite lookup_insert_eq. simpl. unfold values, variances. rewrite zip_fst_snd.
  subst n. rewrite Hfl. split; [done|]. split; [|done].
  intros x Hx. by rewrite lookup_insert_ne.
Qed.

Lemma flatten_2d_hist_keeps_cells_witness :
  let s := (new_hist (hist_2d 3 (F64.one, F64.half)) module_state).2 in
  exists s',
    _flatten_2d_hist 4 s = (Ok 5, s') /\
    deref s' 5 = mkHistogram [Regular 1 F64.zero F64.one] Weight [(F64.one, F64.half)]
                   [zero_cell; zero_cell] /\
    (forall x, x <> 5 -> hists s' !! x = hists s !! x) /\
    dicts s' = dicts s /\ calls s' = calls s /\ warns s' = warns s.
Proof.
  intros s. apply (flatten_2d_hist_keeps_cells 4 s); reflexivity.
Defined.

(** X8.  A histogram with fewer than two axes cannot be flattened: the
    second axis is missing, [IndexError] is raised and nothing is
    changed. *)
Theorem flatten_2d_hist_needs_two_axes r s :
  length (axes (deref s r)) < 2 -> _flatten_2d_hist r s = (Raise IndexError, s).
Proof.
  intros Hlen. unfold _flatten_2d_hist. rewrite run_bind, run_get_hist.
  destruct (axes (deref s r)) as [|a0 [|a1 ?]]; try done. simpl in Hlen. lia.
Qed.

Lemma flatten_2d_hist_needs_two_axes_witness :
  let s := (new_hist (hist_1d one_cell one_cell) module_state).2 in
  _flatten_2d_hist 4 s = (Raise IndexError, s).
Proof.
  intros s. apply (flatten_2d_hist_needs_two_axes 4 s). vm_compute. lia.
Defined.

(** ** plot_hist and the histogram it is given *)

Lemma np_nan_to_num_finite v x :
  Forall finite x -> np_nan_to_num v x = x.
Proof.
  unfold np_nan_to_num. induction 1 as [|y l Hy _ IH]; [done|].
  rewrite fmap_cons, IH. f_equal. by destruct y as [|[]| |].
Qed.

Lemma np_nan_to_num_Forall v x :
  finite v -> Forall finite (np_nan_to_num v x).
Proof.
  intros Hv. unfold np_nan_to_num. induction x as [|y l IH]; [constructor|].
  rewrite fmap_cons. constructor; [|done]. by destruct y as [|[]| |].
Qed.

Lemma with_values_id h : with_values h (values h) = h.
Proof. unfold with_values, values, variances. rewrite zip_fst_snd. by destruct h. Qed.

Lemma set_hist_id r h s : hists s !! r = Some h -> set_hist r h s = (Ok tt, s).
Proof. intros Hr. unfold set_hist. rewrite insert_id by done. by destruct s. Qed.

Lemma nan_to_num_values_finite r h s :
  hists s !! r = Some h -> Forall finite (values h) ->
  nan_to_num_values r false s = (Ok (values h), s).
Proof.
  intros Hr Hfin. unfold nan_to_num_values. rewrite run_bind, run_get_hist.
  unfold deref. rewrite Hr. simpl. rewrite np_nan_to_num_finite by done.
  rewrite with_values_id, run_bind, (set_hist_id r h) by done. done.
Qed.

Lemma ext_call_state recv meth pos explicit splat s :
  let s' := (ext_call recv meth pos explicit splat s).2 in
  hists s' = hists s /\ dicts s' = dicts s /\ warns s' = warns s /\ next_id s' = next_id s.
Proof.
  unfold ext_call. rewrite run_bind, run_lift. by destruct (kw_merge _ _).
Qed.

Lemma mapM_nan_to_num_finite rs s :
  (forall r, r ∈ rs -> exists h, hists s !! r = Some h /\ Forall finite (values h)) ->
  exists ws,
    mapM (fun r => w ← nan_to_num_values r false; mret (PArr w)) rs s = (Ok ws, s).
Proof.
  induction rs as [|r rs IH]; intros Hrs; simpl; [by eexists|].
  destruct (Hrs r) as (h & Hr & Hfin); [by left|].
  destruct IH as [ws Hws]; [intros; apply Hrs; by right|].
  rewrite run_bind, run_bind, (nan_to_num_values_finite r h) by done.
  rewrite run_ret, run_bind, Hws. by eexists.
Qed.

Lemma mapM_centers_state (l : list Histogram) s :
  (mapM (fun h => a ← lift (axis0 h); mret (PCenters a)) l s).2 = s.
Proof.
  induction l as [|h l IH]; simpl; [done|].
  rewrite run_bind, run_bind, run_lift. destruct (axis0 h); [|done].
  rewrite run_ret, run_bind.
  destruct (mapM (M:=M) _ l s) as [[x|e] s1]; simpl in *; by subst.
Qed.

(** X9.  [plot_hist] leaves every histogram whose values are all finite
    as it is, be it given alone or in a list: nothing in the store
    changes, whether the call of the plotting library is reached or not. *)
Theorem plot_hist_finite_unchanged hist ax kw s :
  (forall r, r ∈ hist_refs hist ->
     exists h, hists s !! r = Some h /\ Forall finite (values h)) ->
  let s' := (plot_hist hist ax kw s).2 in
  hists s' = hists s /\ dicts s' = dicts s /\ warns s' = warns s.
Proof.
  intros Hfin. destruct hist as [r|rs]; simpl in Hfin |- *.
  - destruct (Hfin r) as (h & Hr & Hv); [by left|].
    rewrite run_bind, run_get_hist, run_bind, run_lift.
    destruct (axis0 _) as [a|]; [|done].
    rewrite run_bind, (nan_to_num_values_finite r h) by done.
    destruct (ext_call_state (Some ax) "hist" [] [("x", PCenters a); ("bins", PEdges a);
                ("weights", PArr (values h))] kw s) as (? & ? & ? & _). done.
  - rewrite run_bind, get_hists_run, run_bind, run_lift.
    destruct (_check_binning_consistency _) as [[]|]; [|done].
    rewrite run_bind.
    pose proof (mapM_centers_state (deref s <$> rs) s) as Hs.
    destruct (mapM (M:=M) _ _ s) as [[x|e] s1]; simpl in Hs; subst s1; [|done].
    rewrite run_bind.
    destruct (deref s <$> rs) as [|h0 hs]; [done|].
    rewrite run_bind, run_lift. destruct (axis0 h0) as [a|]; [|done].
    rewrite run_ret, run_bind.
    destruct (mapM_nan_to_num_finite rs s Hfin) as [ws ->].
    destruct (ext_call_state (Some ax) "hist" [] [("x", PList x); ("bins", PEdges a);
                ("weights", PList ws)] kw s) as (? & ? & ? & _). done.
Qed.

Lemma plot_hist_finite_unchanged_witness :
  let s := (new_hist (hist_1d one_cell one_cell) module_state).2 in
  let s' := (plot_hist (Many [4; 4]) 100 ∅ s).2 in
  hists s' = hists s /\ dicts s' = dicts s /\ warns s' = warns s.
Proof.
  intros s. apply (plot_hist_finite_unchanged (Many [4; 4]) 100 ∅ s).
  intros r Hr. exists (hist_1d one_cell one_cell). split.
  - apply elem_of_cons in Hr as [->|Hr]; [reflexivity|].
    apply elem_of_cons in Hr as [->|Hr]; [reflexivity|]. by apply elem_of_nil in Hr.
  - repeat constructor.
Defined.
(** ** Frames of the computations *)

Lemma frame_refl P D X s : frame P D X s s.
Proof. repeat split; [by exists []|done..|by exists []|done]. Qed.

Lemma frame_trans P D X s1 s2 s3 :
  frame P D X s1 s2 -> frame P D X s2 s3 -> frame P D X s1 s3.
Proof.
  intros ((l1 & Hc1 & HP1) & Hd1 & Hh1 & (w1 & Hw1) & Hn1)
         ((l2 & Hc2 & HP2) & Hd2 & Hh2 & (w2 & Hw2) & Hn2).
  repeat split.
  - exists (l2 ++ l1)%list. split; [by rewrite Hc2, Hc1, app_assoc|by apply Forall_app].
  - intros d Hd. by rewrite Hd2, Hd1.
  - intros x Hx. by rewrite Hh2, Hh1.
  - exists (w2 ++ w1)%list. by rewrite Hw2, Hw1, app_assoc.
  - lia.
Qed.

Lemma frame_weaken (P P' : call -> Prop) (D D' X X' : nat -> Prop) s s' :
  (forall c, P c -> P' c) -> (forall d, D d -> D' d) -> (forall x, X x -> X' x) ->
  frame P D X s s' -> frame P' D' X' s s'.
Proof.
  intros HP HD HX ((l & Hc & Hl) & Hd & Hh & Hw & Hn). repeat split; [|auto..].
  exists l. split; [done|]. eapply Forall_impl; eauto.
Qed.

Section Within.
Context (n0 : nat) (P : call -> Prop) (D X : nat -> Prop).

Lemma within_bind {A B} (Q1 : A -> Prop) (Q : B -> Prop) (m : M A) (k : A -> M B) :
  within n0 P D X Q1 m -> (forall a, Q1 a -> within n0 P D X Q (k a)) ->
  within n0 P D X Q (x ← m; k x).
Proof.
  intros Hm Hk s Hs. rewrite run_bind. destruct (Hm s Hs) as (Hf & HQ1).
  destruct (m s) as [[a|e] s1]; simpl in *; [|done].
  destruct (Hk a (HQ1 a eq_refl) s1) as (Hf' & HQ).
  { destruct Hf as (_ & _ & _ & _ & ?). lia. }
  split; [by eapply frame_trans|done].
Qed.

Lemma within_weaken {A} (Q1 Q : A -> Prop) (m : M A) :
  (forall a, Q1 a -> Q a) -> within n0 P D X Q1 m -> within n0 P D X Q m.
Proof. intros HQ Hm s Hs. destruct (Hm s Hs) as (? & ?). eauto. Qed.

Lemma within_any {A} (Q1 : A -> Prop) (m : M A) :
  within n0 P D X Q1 m -> within n0 P D X any m.
Proof. by apply within_weaken. Qed.

Lemma within_seq {A B} (Q : B -> Prop) (m : M A) (k : A -> M B) :
  within n0 P D X any m -> (forall a, within n0 P D X Q (k a)) ->
  within n0 P D X Q (x ← m; k x).
Proof. intros Hm Hk. eapply within_bind; [done|]. intros a _. apply Hk. Qed.

Lemma within_pure {A} (Q : A -> Prop) (m : M A) :
  (forall s, (m s).2 = s /\ forall a, (m s).1 = Ok a -> Q a) -> within n0 P D X Q m.
Proof.
  intros Hm s Hs. destruct (Hm s) as (Hs' & HQ). rewrite Hs'.
  split; [apply frame_refl|done].
Qed.

Lemma within_ret {A} (Q : A -> Prop) (a : A) : Q a -> within n0 P D X Q (mret a).
Proof. intros Ha. apply within_pure. intros s. split; [done|]. by intros ? [= <-]. Qed.
Lemma within_raise {A} (Q : A -> Prop) e : within n0 P D X Q (raise e).
Proof. by apply within_pure. Qed.
Lemma within_lift {A} (r : Res A) : within n0 P D X any (lift r).
Proof. by apply within_pure. Qed.
Lemma within_get_hist r : within n0 P D X any (get_hist r).
Proof. by apply within_pure. Qed.
Lemma within_get_dict r : within n0 P D X any (get_dict r).
Proof. by apply within_pure. Qed.

Ltac frame_prim :=
  intros s Hs; split; [|first [done | simpl; by intros ? [= <-]]];
  unfold frame; split_and!;
  try first [ done | by exists [] | simpl; lia ].

Lemma within_emit c : P c -> within n0 P D X any (emit c).
Proof. intros Hc. frame_prim. exists [c]. split; [done|]. by constructor. Qed.
Lemma within_warn w : within n0 P D X any (warn w).
Proof. frame_prim. by exists [w]. Qed.
Lemma within_fresh : within n0 P D X (le n0) fresh.
Proof. frame_prim. Qed.
Lemma within_set_hist r h : X r -> within n0 P D X any (set_hist r h).
Proof. intros Hr. frame_prim. intros x Hx. simpl. apply lookup_insert_ne. by intros ->. Qed.
Lemma within_set_dict r d : D r -> within n0 P D X any (set_dict r d).
Proof. intros Hr. frame_prim. intros x Hx. simpl. apply lookup_insert_ne. by intros ->. Qed.
Lemma within_new_hist h : (forall r, n0 <= r -> X r) -> within n0 P D X (le n0) (new_hist h).
Proof.
  intros HX. unfold new_hist. eapply within_bind; [apply within_fresh|]. intros r Hr.
  apply within_seq; [apply within_set_hist; auto|]. intros _. by apply within_ret.
Qed.
Lemma within_new_dict d : (forall r, n0 <= r -> D r) -> within n0 P D X (le n0) (new_dict d).
Proof.
  intros HD. unfold new_dict. eapply within_bind; [apply within_fresh|]. intros r Hr.
  apply within_seq; [apply within_set_dict; auto|]. intros _. by apply within_ret.
Qed.
Lemma within_mapM {A B} (f : A -> M B) (l : list A) :
  (forall a, a ∈ l -> within n0 P D X any (f a)) -> within n0 P D X any (mapM f l).
Proof.
  induction l as [|a l IH]; intros Hf; simpl; [by apply within_ret|].
  apply within_seq; [apply Hf; by left|]. intros b.
  apply within_seq; [apply IH; intros; apply Hf; by right|]. intros bs. by apply within_ret.
Qed.
Lemma within_ext_call recv meth pos explicit splat :
  (forall kw, P (mkCall recv meth pos kw PNone)) ->
  within n0 P D X any (ext_call recv meth pos explicit splat).
Proof.
  intros HP. unfold ext_call. apply within_seq; [apply within_lift|]. intros kw.
  by apply within_emit.
Qed.
End Within.

Create HintDb within.
#[local] Hint Resolve within_raise within_lift within_get_hist within_get_dict
  within_warn : within.
#[local] Hint Extern 1 (within _ _ _ _ any (mret _)) => apply within_ret; exact I : within.
#[local] Hint Extern 2 (within _ _ _ _ any fresh) =>
  eapply within_any; apply within_fresh : within.

(** Side conditions: membership in the frame. *)
Ltac frame_side :=
  first [ assumption | solve [intros; exact I]
        | solve [intros; simpl; auto]
        | solve [intros; simpl; discriminate]
        | solve [intros; simpl; unfold any, fresh_in in *; auto with lia] ].

#[local] Hint Extern 2 (within _ _ _ _ any (emit _)) =>
  apply within_emit; frame_side : within.
#[local] Hint Extern 2 (within _ _ _ _ any (ext_call _ _ _ _ _)) =>
  apply within_ext_call; frame_side : within.
#[local] Hint Extern 2 (within _ _ _ _ any (set_hist _ _)) =>
  apply within_set_hist; frame_side : within.
#[local] Hint Extern 2 (within _ _ _ _ any (set_dict _ _)) =>
  apply within_set_dict; frame_side : within.
#[local] Hint Extern 3 (within _ _ _ _ any (new_hist _)) =>
  eapply within_any; apply within_new_hist; frame_side : within.
#[local] Hint Extern 3 (within _ _ _ _ any (new_dict _)) =>
  eapply within_any; apply within_new_dict; frame_side : within.

Ltac within_step :=
  match goal with
  | |- within _ _ _ _ _ (mbind _ _) => apply within_seq; [|intros ?]
  | |- within _ _ _ _ _ (mapM _ _) => apply within_mapM; intros ? ?
  | |- within _ _ _ _ _ (let '(_, _) := ?p in _) => destruct p
  | |- within _ _ _ _ _ (if ?b then _ else _) => destruct b
  | |- within _ _ _ _ _ (match ?x with _ => _ end) => destruct x
  | |- within _ _ _ _ _ _ => solve [eauto with within]
  end.
Ltac solve_within := repeat within_step.

Lemma within_create_axis n0 P D X data bins range :
  within n0 P D X any (create_axis data bins range).
Proof. unfold create_axis. cbv zeta. solve_within. Qed.
Lemma within_run {A} n0 P D X (Q : A -> Prop) (m : M A) s r s' :
  within n0 P D X Q m -> n0 <= next_id s -> m s = (r, s') ->
  frame P D X s s' /\ forall a, r = Ok a -> Q a.
Proof. intros Hm Hs Hrun. specialize (Hm s Hs). by rewrite Hrun in Hm. Qed.

(** Computations that create figures, or work on objects they created:
    any call may be logged. *)
Section WithinAny.
Context (n0 : nat) (D X : nat -> Prop).

Lemma within_plt_subplots P n kw :
  (forall kw r, P (mkCall None "plt.subplots" [] kw r)) ->
  within n0 P D X any (plt_subplots n kw).
Proof. intros HP. unfold plt_subplots. solve_within. Qed.
Lemma within_get_hists P rs : within n0 P D X any (get_hists rs).
Proof. unfold get_hists. solve_within. Qed.
Hint Resolve within_get_hists : within.
Hint Extern 2 (within _ _ _ _ any (plt_subplots _ _)) =>
  apply within_plt_subplots; frame_side : within.
Lemma within_create_comparison_figure n :
  within n0 any D X any (create_comparison_figure n).
Proof. unfold create_comparison_figure. solve_within. Qed.
Lemma within_set_fitting P ax :
  (forall r, P (mkCall (Some ax) "set_fitting_ylabel_fontsize" [] ∅ r)) ->
  within n0 P D X any (set_fitting_ylabel_fontsize ax).
Proof. intros HP. unfold set_fitting_ylabel_fontsize. solve_within. Qed.
End WithinAny.

#[local] Hint Resolve within_get_hists
  within_create_comparison_figure within_create_axis : within.
#[local] Hint Extern 2 (within _ _ _ _ any (plt_subplots _ _)) =>
  apply within_plt_subplots; frame_side : within.
#[local] Hint Extern 2 (within _ _ _ _ any (set_fitting_ylabel_fontsize _)) =>
  apply within_set_fitting; frame_side : within.

Section WithinDraw.
Context (n0 : nat) (P : call -> Prop) (D X : nat -> Prop).

Lemma within_flatten r :
  (forall x, n0 <= x -> X x) -> within n0 P D X (le n0) (_flatten_2d_hist r).
Proof.
  intros HX. unfold _flatten_2d_hist. apply within_seq; [solve_within|]. intros h.
  destruct (axes h) as [|a0 [|a1 ?]]; try apply within_raise.
  case_bool_decide; [|apply within_raise]. by apply within_new_hist.
Qed.

Lemma within_nan_to_num_values r copy :
  X r -> within n0 P D X any (nan_to_num_values r copy).
Proof. intros Hr. unfold nan_to_num_values. solve_within. Qed.

Lemma within_plot_hist hist ax kw :
  (forall c, receiver c = Some ax -> P c) ->
  (forall r, r ∈ hist_refs hist -> X r) ->
  within n0 P D X any (plot_hist hist ax kw).
Proof.
  intros HP HX. destruct hist as [r|rs]; simpl in HX; unfold plot_hist.
  - apply within_seq; [solve_within|]. intros h.
    apply within_seq; [solve_within|]. intros a.
    apply within_seq; [apply within_nan_to_num_values, HX; by left|]. intros w.
    solve_within.
  - apply within_seq; [solve_within|]. intros hs.
    apply within_seq; [solve_within|]. intros _.
    apply within_seq; [solve_within|]. intros x.
    apply within_seq; [solve_within|]. intros bins.
    apply within_seq; [|intros w; solve_within].
    apply within_mapM. intros r Hin. apply within_seq; [|intros w; solve_within].
    by apply within_nan_to_num_values, HX.
Qed.

Lemma within_plot_error_hist `{Comparison} r ax kw :
  (forall c, receiver c = Some ax -> P c) ->
  within n0 P D X any (plot_error_hist r ax kw).
Proof. intros HP. unfold plot_error_hist. cbv zeta. solve_within. Qed.

Lemma within_plot_hist_uncertainties r ax kw :
  (forall c, receiver c = Some ax -> P c) ->
  within n0 P D X any (plot_hist_uncertainties r ax kw).
Proof. intros HP. unfold plot_hist_uncertainties. cbv zeta. solve_within. Qed.

Lemma within_hist_assign r cells : X r -> within n0 P D X any (hist_assign r cells).
Proof. intros Hr. unfold hist_assign. solve_within. Qed.

Lemma within_py_sum rs :
  (forall x, n0 <= x -> X x) -> within n0 P D X (le n0) (py_sum rs).
Proof.
  intros HX. unfold py_sum. apply within_seq; [solve_within|]. intros [|h hs].
  - apply within_raise.
  - by apply within_new_hist.
Qed.

Lemma within_plot_comparison `{Libraries} `{Comparison} hist_1 hist_2 ax kw :
  (forall c, receiver c = Some ax -> P c) -> (forall c, receiver c = None -> P c) ->
  (forall x, n0 <= x -> X x) ->
  within n0 P D X any (plot_comparison hist_1 hist_2 ax kw).
Proof.
  intros HP HN HX. unfold plot_comparison. cbv zeta.
  do 5 (apply within_seq; [solve_within|]; intros ?).
  apply within_seq; [solve_within|]. intros [[vals lo] hi].
  apply (within_bind _ _ _ _ (fun p => n0 <= p.1)).
  { destruct (np_allclose _ _).
    - apply within_seq; [solve_within|]. intros a'.
      eapply within_bind; [unfold new_histogram; by apply within_new_hist|]. intros hc Hhc.
      apply within_seq; [apply within_hist_assign; auto|]. intros _. by apply within_ret.
    - apply within_seq; [solve_within|]. intros a'.
      eapply within_bind; [unfold new_histogram; by apply within_new_hist|]. intros hc Hhc.
      apply within_seq; [apply within_hist_assign; auto|]. intros _. by apply within_ret. }
  intros [hc pk] Hhc. simpl in Hhc.
  apply within_seq.
  { destruct (py_eq_str _ _).
    - apply within_seq; [solve_within|]. intros _.
      apply within_plot_hist; [done|]. intros r [->|[]%elem_of_nil]%elem_of_cons. auto.
    - apply within_seq; [solve_within|]. intros _. by apply within_plot_error_hist. }
  intros _. solve_within.
Qed.
End WithinDraw.
#[local] Hint Extern 3 (within _ _ _ _ any (_flatten_2d_hist _)) =>
  eapply within_any; apply within_flatten; frame_side : within.
#[local] Hint Extern 3 (within _ _ _ _ any (py_sum _)) =>
  eapply within_any; apply within_py_sum; frame_side : within.
#[local] Hint Extern 3 (within _ _ _ _ any (new_histogram _ _)) =>
  eapply within_any; apply within_new_hist; frame_side : within.
#[local] Hint Extern 2 (within _ _ _ _ any (nan_to_num_values _ _)) =>
  apply within_nan_to_num_values; frame_side : within.
#[local] Hint Extern 2 (within _ _ _ _ any (hist_assign _ _)) =>
  apply within_hist_assign; frame_side : within.
#[local] Hint Extern 2 (within _ _ _ _ any (plot_hist _ _ _)) =>
  apply within_plot_hist; frame_side : within.
#[local] Hint Extern 2 (within _ _ _ _ any (plot_error_hist _ _ _)) =>
  apply within_plot_error_hist; frame_side : within.
#[local] Hint Extern 2 (within _ _ _ _ any (plot_hist_uncertainties _ _ _)) =>
  apply within_plot_hist_uncertainties; frame_side : within.
#[local] Hint Extern 2 (within _ _ _ _ any (plot_comparison _ _ _ _)) =>
  apply within_plot_comparison; frame_side : within.

(** Where any call may be logged and any histogram changed: what is
    done to the dictionaries. *)
Section WithinDicts.
Context (n0 : nat) (D : nat -> Prop).

Lemma within_make_hist `{Libraries} P X data bins range weights :
  (forall x, n0 <= x -> X x) ->
  within n0 P D X any (make_hist data bins range weights).
Proof. intros HX. unfold make_hist. cbv zeta. solve_within. Qed.

Lemma within_make_2d_hist `{Libraries} P X data bins range weights :
  (forall x, n0 <= x -> X x) ->
  within n0 P D X any (make_2d_hist data bins range weights).
Proof. intros HX. unfold make_2d_hist. solve_within. Qed.

Lemma within_plot_2d_hist X hist fig ax ax_colorbar pk ck sq :
  D pk -> within n0 any D X any (plot_2d_hist hist fig ax ax_colorbar pk ck sq).
Proof. intros Hpk. unfold plot_2d_hist. solve_within. Qed.

Lemma within_compare_two_hist `{Libraries} `{Comparison} h1 h2 xlabel ylabel l1 l2
    fig am ac kw :
  within n0 any D any any (compare_two_hist h1 h2 xlabel ylabel l1 l2 fig am ac kw).
Proof. unfold compare_two_hist. solve_within. Qed.

Lemma within_plot_model m xlabel ylabel sk flatten leg_ncol fig ax :
  D sk -> within n0 any D any any (plot_model m xlabel ylabel sk flatten leg_ncol fig ax).
Proof. intros Hsk. unfold plot_model. cbv zeta. solve_within. Qed.

Lemma within_plot_model_stacked m xlabel ylabel sk flatten leg_ncol fig ax :
  unstacked_components m = [] ->
  within n0 any D any any (plot_model m xlabel ylabel sk flatten leg_ncol fig ax).
Proof.
  intros Hun. unfold plot_model. cbv zeta. rewrite Hun.
  apply within_seq; [solve_within|]. intros st.
  apply (within_bind _ _ _ _ (eq [])).
  { destruct flatten; by apply within_ret. }
  intros un <-. rewrite (bool_decide_eq_false_2 (0 < length [])) by (simpl; lia).
  solve_within.
Qed.

Lemma within_compare_data_model `{Libraries} `{Comparison} dh m xlabel ylabel dl sk
    flatten mu mul fig am ac kw :
  D sk ->
  within n0 any D any any
    (compare_data_model dh m xlabel ylabel dl sk flatten mu mul fig am ac kw).
Proof.
  intros Hsk. unfold compare_data_model. cbv zeta.
  do 3 (apply within_seq; [solve_within|]; intros ?).
  case_bool_decide; [apply within_raise|].
  do 2 (apply within_seq; [solve_within|]; intros ?).
  apply within_seq; [solve_within|]. intros [[fig' am'] ac'].
  apply within_seq; [solve_within|]. intros model_hist.
  apply within_seq; [by apply within_plot_model|]. intros _.
  solve_within.
Qed.

Lemma within_plot_mc mc signal xlabel ylabel l c sl sc fig ax flatten stacked leg :
  (forall x, n0 <= x -> D x) ->
  within n0 any D any any
    (plot_mc mc signal xlabel ylabel l c sl sc fig ax flatten stacked leg).
Proof.
  intros HD. unfold plot_mc. cbv zeta.
  do 2 (apply within_seq; [solve_within|]; intros ?).
  eapply within_bind; [by apply within_new_dict|]. intros sk Hsk.
  apply within_seq; [apply within_plot_model; auto|]. intros [fig' ax'].
  solve_within.
Qed.

Lemma within_compare_data_mc `{Libraries} `{Comparison} dh mc signal xlabel ylabel
    l c sl sc dl flatten stacked mu mul fig am ac kw :
  (forall x, n0 <= x -> D x) ->
  within n0 any D any any
    (compare_data_mc dh mc signal xlabel ylabel l c sl sc dl flatten stacked mu mul
       fig am ac kw).
Proof.
  intros HD. unfold compare_data_mc. cbv zeta.
  do 2 (apply within_seq; [solve_within|]; intros ?).
  eapply within_bind; [by apply within_new_dict|]. intros sk Hsk.
  apply within_seq; [apply within_compare_data_model; auto|]. intros [[fig' am'] ac'].
  solve_within.
Qed.
End WithinDicts.
Lemma frame_dicts_same P X s s' : frame P none X s s' -> dicts s' = dicts s.
Proof. intros (_ & Hd & _). apply map_eq. intros d. apply Hd. by intros []. Qed.

Lemma frame_hists_same P D s s' : frame P D none s s' -> hists s' = hists s.
Proof. intros (_ & _ & Hh & _). apply map_eq. intros x. apply Hh. by intros []. Qed.

Lemma frame_calls_same D X s s' : frame none D X s s' -> calls s' = calls s.
Proof. intros ((l & Hl & HP) & _). destruct HP as [|c l []]. done. Qed.

Lemma frame_dicts_below P X s s' d :
  frame P (le (next_id s)) X s s' -> d < next_id s -> dicts s' !! d = dicts s !! d.
Proof. intros (_ & Hd & _) Hlt. apply Hd. lia. Qed.

Lemma frame_hists_below P D s s' x :
  frame P D (le (next_id s)) s s' -> x < next_id s -> hists s' !! x = hists s !! x.
Proof. intros (_ & _ & Hh & _) Hlt. apply Hh. lia. Qed.

Lemma frame_calls P D X s s' :
  frame P D X s s' -> exists l, logged s s' l /\ Forall P l.
Proof. by intros (Hc & _). Qed.

(** X10.  Building and drawing histograms changes no dictionary: neither
    the construction of a histogram, nor [plot_hist], [plot_error_hist],
    [plot_hist_uncertainties], [plot_comparison] and [compare_two_hist],
    whose keyword arguments are copied at the call, whether they return
    or raise. *)
Theorem drawing_keeps_dictionaries `{Libraries} `{Comparison} s :
  (forall data bins range weights,
     dicts (make_hist data bins range weights s).2 = dicts s) /\
  (forall data bins range weights,
     dicts (make_2d_hist data bins range weights s).2 = dicts s) /\
  (forall r, dicts (_flatten_2d_hist r s).2 = dicts s) /\
  (forall hist ax kw, dicts (plot_hist hist ax kw s).2 = dicts s) /\
  (forall r ax kw, dicts (plot_error_hist r ax kw s).2 = dicts s) /\
  (forall r ax kw, dicts (plot_hist_uncertainties r ax kw s).2 = dicts s) /\
  (forall h1 h2 ax kw, dicts (plot_comparison h1 h2 ax kw s).2 = dicts s) /\
  (forall h1 h2 xlabel ylabel l1 l2 fig am ac kw,
     dicts (compare_two_hist h1 h2 xlabel ylabel l1 l2 fig am ac kw s).2 = dicts s).
Proof.
  split_and!; intros.
  - apply (frame_dicts_same any any).
    refine (proj1 (within_make_hist 0 none any any data bins range weights _ s _));
      [done|lia].
  - apply (frame_dicts_same any any).
    refine (proj1 (within_make_2d_hist 0 none any any data bins range weights _ s _));
      [done|lia].
  - apply (frame_dicts_same any any).
    refine (proj1 (within_flatten 0 any none any r _ s _)); [done|lia].
  - apply (frame_dicts_same any any).
    refine (proj1 (within_plot_hist 0 any none any hist ax kw _ _ s _)); [done|done|lia].
  - apply (frame_dicts_same any any).
    refine (proj1 (within_plot_error_hist 0 any none any r ax kw _ s _)); [done|lia].
  - apply (frame_dicts_same any any).
    refine (proj1 (within_plot_hist_uncertainties 0 any none any r ax kw _ s _));
      [done|lia].
  - apply (frame_dicts_same any any).
    refine (proj1 (within_plot_comparison 0 any none any h1 h2 ax kw _ _ _ s _));
      [done|done|done|lia].
  - apply (frame_dicts_same any any).
    refine (proj1 (within_compare_two_hist 0 none h1 h2 xlabel ylabel l1 l2 fig am ac kw
                     s _)); lia.
Qed.

(** X11.  A model without unstacked components leaves [sum_kwargs] as it
    is: [plot_model] looks at the dictionary only after it has drawn
    unstacked components, so that with stacked components alone no
    dictionary is changed, whether the call returns or raises. *)
Theorem plot_model_stacked_keeps_sum_kwargs m xlabel ylabel sk flatten leg_ncol fig ax s :
  unstacked_components m = [] ->
  dicts (plot_model m xlabel ylabel sk flatten leg_ncol fig ax s).2 = dicts s.
Proof.
  intros Hun. apply (frame_dicts_same any any).
  refine (proj1 (within_plot_model_stacked 0 none m xlabel ylabel sk flatten leg_ncol
                   fig ax Hun s _)). lia.
Qed.

Lemma plot_model_stacked_keeps_sum_kwargs_witness :
  let m := mkModel [4] PNone PNone [] PNone PNone in
  let s := (new_hist (hist_1d one_cell one_cell) module_state).2 in
  dicts (plot_model m PNone PNone plot_model_sum_kwargs false (num 1) None None s).2
  = dicts s.
Proof.
  intros m s.
  apply (plot_model_stacked_keeps_sum_kwargs m PNone PNone plot_model_sum_kwargs false
           (num 1) None None s).
  reflexivity.
Defined.

(** X12.  [plot_mc] and [compare_data_mc] build the dictionary for the
    sum of the components anew at each call: every dictionary that exists
    before the call, the shared defaults of [plot_model] and
    [compare_data_model] among them, is the same after it. *)
Theorem plot_mc_keeps_dictionaries `{Libraries} `{Comparison} s d :
  d < next_id s ->
  (forall mc signal xlabel ylabel l c sl sc fig ax flatten stacked leg,
     dicts (plot_mc mc signal xlabel ylabel l c sl sc fig ax flatten stacked leg s).2 !! d
     = dicts s !! d) /\
  (forall dh mc signal xlabel ylabel l c sl sc dl flatten stacked mu mul fig am ac kw,
     dicts (compare_data_mc dh mc signal xlabel ylabel l c sl sc dl flatten stacked
              mu mul fig am ac kw s).2 !! d
     = dicts s !! d).
Proof.
  intros Hd. split; intros.
  - apply (frame_dicts_below any any); [|done].
    refine (proj1 (within_plot_mc (next_id s) (le (next_id s)) mc signal xlabel ylabel
                     l c sl sc fig ax flatten stacked leg _ s _)); [done|lia].
  - apply (frame_dicts_below any any); [|done].
    refine (proj1 (within_compare_data_mc (next_id s) (le (next_id s)) dh mc signal
                     xlabel ylabel l c sl sc dl flatten stacked mu mul fig am ac kw
                     _ s _)); [done|lia].
Qed.

Lemma plot_mc_keeps_dictionaries_witness :
  let H := sample_libraries in
  let H0 := sample_comparison in
  let s := (new_hist (hist_1d one_cell one_cell) module_state).2 in
  dicts (plot_mc [4] None PNone PNone PNone PNone (PStr "Signal") (PStr "red")
           None None false false (num 1) s).2 !! plot_model_sum_kwargs
  = dicts s !! plot_model_sum_kwargs.
Proof.
  intros H H0 s.
  refine (proj1 (plot_mc_keeps_dictionaries (H := H) (H0 := H0) s plot_model_sum_kwargs _)
            [4] None PNone PNone PNone PNone (PStr "Signal") (PStr "red")
            None None false false (num 1)).
  vm_compute. lia.
Defined.
(** X13.  [plot_error_hist] and [plot_hist_uncertainties] only draw:
    whether they return or raise, they leave every histogram as it is
    (unlike [plot_hist]), and what they call is a method of the axes
    given. *)
Theorem error_bars_only_draw `{Comparison} r ax kw s :
  let s1 := (plot_error_hist r ax kw s).2 in
  let s2 := (plot_hist_uncertainties r ax kw s).2 in
  (hists s1 = hists s /\
   exists l, logged s s1 l /\ Forall (fun c => receiver c = Some ax) l) /\
  (hists s2 = hists s /\
   exists l, logged s s2 l /\ Forall (fun c => receiver c = Some ax) l).
Proof.
  intros s1 s2.
  assert (frame (fun c => receiver c = Some ax) none none s s1) as H1.
  { refine (proj1 (within_plot_error_hist 0 _ none none r ax kw _ s _)); [done|lia]. }
  assert (frame (fun c => receiver c = Some ax) none none s s2) as H2.
  { refine (proj1 (within_plot_hist_uncertainties 0 _ none none r ax kw _ s _));
      [done|lia]. }
  split; (split; [by eapply frame_hists_same|by eapply frame_calls]).
Qed.



(** X15.  [make_hist] and [make_2d_hist] never call the plotting library
    and change no histogram that exists before the call: all they do to
    the store is to add the histogram they return. *)
Theorem make_hist_only_allocates `{Libraries} s x :
  x < next_id s ->
  (forall data bins range weights,
     let s' := (make_hist data bins range weights s).2 in
     calls s' = calls s /\ hists s' !! x = hists s !! x) /\
  (forall data bins range weights,
     let s' := (make_2d_hist data bins range weights s).2 in
     calls s' = calls s /\ hists s' !! x = hists s !! x).
Proof.
  intros Hx. split; intros data bins range weights s'.
  - assert (frame none none (le (next_id s)) s s') as Hf.
    { refine (proj1 (within_make_hist (next_id s) none none _ data bins range weights
                       _ s _)); [done|lia]. }
    split; [by eapply frame_calls_same|by eapply frame_hists_below].
  - assert (frame none none (le (next_id s)) s s') as Hf.
    { refine (proj1 (within_make_2d_hist (next_id s) none none _ data bins range weights
                       _ s _)); [done|lia]. }
    split; [by eapply frame_calls_same|by eapply frame_hists_below].
Qed.

Lemma make_hist_only_allocates_witness :
  let H := sample_libraries in
  let s := (new_hist (hist_1d one_cell one_cell) module_state).2 in
  let s' := (make_hist [F64.half] (BinsInt 1) None (WScalar F64.one) s).2 in
  calls s' = calls s /\ hists s' !! 4 = hists s !! 4.
Proof.
  intros H s.
  refine (proj1 (make_hist_only_allocates (H := H) s 4 _)
            [F64.half] (BinsInt 1) None (WScalar F64.one)).
  vm_compute. lia.
Defined.

Lemma run_get_dict r s : get_dict r s = (Ok (default ∅ (dicts s !! r)), s).
Proof. reflexivity. Qed.

(** The dictionaries after [plot_2d_hist], whether it returns or raises. *)
Lemma plot_2d_hist_dicts hist fig ax ax_colorbar pk ck sq s :
  dicts (plot_2d_hist hist fig ax ax_colorbar pk ck sq s).2
  = <[pk := setdefault "edgecolors" (PStr "face") (default ∅ (dicts s !! pk))]> (dicts s).
Proof.
  destruct (plot_2d_hist hist fig ax ax_colorbar pk ck sq s) as [r s'] eqn:Hrun.
  unfold plot_2d_hist in Hrun.
  apply bind_inv in Hrun as [(d & s0 & Hd & Hrun)|(e & He & _)]; [|discriminate He].
  rewrite run_get_dict in Hd. injection Hd as <- <-.
  apply bind_inv in Hrun as [([] & s1 & Hset & Hrun)|(e & He & _)]; [|discriminate He].
  injection Hset as <-.
  eapply (within_run 0 any none none any) in Hrun as [Hf _]; [|solve_within|simpl; lia].
  simpl. by rewrite (frame_dicts_same _ _ _ _ Hf).
Qed.

(** X16.  All that [plot_2d_hist] changes in the store is the dictionary
    [pcolormesh_kwargs] of the caller, or the default shared by all calls:
    it receives the entry ["edgecolors": "face"] unless it has one.  This
    is done first, also when the call then raises; no other dictionary
    and no histogram is changed. *)
Theorem plot_2d_hist_sets_edgecolors hist fig ax ax_colorbar pk ck sq s :
  let s' := (plot_2d_hist hist fig ax ax_colorbar pk ck sq s).2 in
  dicts s' = <[pk := setdefault "edgecolors" (PStr "face") (default ∅ (dicts s !! pk))]>
               (dicts s) /\
  hists s' = hists s.
Proof.
  destruct (plot_2d_hist hist fig ax ax_colorbar pk ck sq s) as [r s'] eqn:Hrun.
  unfold plot_2d_hist in Hrun.
  apply bind_inv in Hrun as [(d & s0 & Hd & Hrun)|(e & He & _)]; [|discriminate He].
  rewrite run_get_dict in Hd. injection Hd as <- <-.
  apply bind_inv in Hrun as [([] & s1 & Hset & Hrun)|(e & He & _)]; [|discriminate He].
  injection Hset as <-.
  eapply (within_run 0 any none none any) in Hrun as [Hf _]; [|solve_within|simpl; lia].
  simpl. split.
  - by rewrite (frame_dicts_same _ _ _ _ Hf).
  - by rewrite (frame_hists_same _ _ _ _ Hf).
Qed.

(** ** What plot_hist stores *)

Lemma finite_zero : finite F64.zero.
Proof. reflexivity. Qed.

Lemma length_values_variances h : length (values h) = length (variances h).
Proof. unfold values, variances. by rewrite !length_fmap. Qed.

Lemma length_np_nan_to_num v x : length (np_nan_to_num v x) = length x.
Proof. unfold np_nan_to_num. by rewrite length_fmap. Qed.

Lemma values_nan_to_num_hist h :
  values (nan_to_num_hist h) = np_nan_to_num F64.zero (values h).
Proof.
  unfold nan_to_num_hist, with_values, values at 1. simpl. apply fst_zip.
  rewrite length_np_nan_to_num, length_values_variances. done.
Qed.

Lemma variances_nan_to_num_hist h : variances (nan_to_num_hist h) = variances h.
Proof.
  unfold nan_to_num_hist, with_values, variances at 1. simpl. apply snd_zip.
  rewrite length_np_nan_to_num, length_values_variances. done.
Qed.

Lemma nan_to_num_hist_idemp h : nan_to_num_hist (nan_to_num_hist h) = nan_to_num_hist h.
Proof.
  unfold nan_to_num_hist at 1. rewrite values_nan_to_num_hist.
  rewrite np_nan_to_num_finite by apply np_nan_to_num_Forall, finite_zero.
  rewrite <- values_nan_to_num_hist. apply with_values_id.
Qed.

(** The state after [plot_hist] on one histogram that has an axis. *)
Lemma plot_hist_One_hists r ax kw s a :
  axis0 (deref s r) = Ok a ->
  hists (plot_hist (One r) ax kw s).2 = <[r := nan_to_num_hist (deref s r)]> (hists s).
Proof.
  intros Ha. unfold plot_hist. rewrite run_bind, run_get_hist, run_bind, run_lift, Ha.
  unfold nan_to_num_values.
  rewrite run_bind, run_bind, run_get_hist, run_bind. simpl set_hist.
  unfold set_hist. rewrite run_ret.
  match goal with
  | |- hists (ext_call ?a ?b ?c ?d ?e ?s1).2 = _ =>
      destruct (ext_call_state a b c d e s1) as (-> & _)
  end.
  done.
Qed.

(** X17.  What [plot_hist] does to a single histogram that has an axis:
    in the store its values are replaced by those forwarded to the
    plotting library (NaN by 0, the infinities by the largest finite
    numbers) while its variances are kept; this is done once, a second
    call changes the histogram no more. *)
Theorem plot_hist_store r h ax kw s :
  hists s !! r = Some h -> axes h <> [] ->
  let s1 := (plot_hist (One r) ax kw s).2 in
  hists s1 = <[r := nan_to_num_hist h]> (hists s) /\
  values (nan_to_num_hist h) = np_nan_to_num F64.zero (values h) /\
  variances (nan_to_num_hist h) = variances h /\
  forall ax' kw', hists (plot_hist (One r) ax' kw' s1).2 = hists s1.
Proof.
  intros Hr Hax s1.
  assert (deref s r = h) as Hd by (unfold deref; by rewrite Hr).
  assert (exists a, axis0 h = Ok a) as [a Ha].
  { unfold axis0. destruct (axes h); [done|by eexists]. }
  assert (hists s1 = <[r := nan_to_num_hist h]> (hists s)) as Hs1.
  { subst s1. rewrite (plot_hist_One_hists r ax kw s a) by by rewrite Hd. by rewrite Hd. }
  split; [done|]. split; [apply values_nan_to_num_hist|].
  split; [apply variances_nan_to_num_hist|]. intros ax' kw'.
  assert (deref s1 r = nan_to_num_hist h) as Hd1.
  { unfold deref. by rewrite Hs1, lookup_insert_eq. }
  rewrite (plot_hist_One_hists r ax' kw' s1 a) by by rewrite Hd1.
  by rewrite Hd1, nan_to_num_hist_idemp, Hs1, insert_insert_eq.
Qed.

Lemma plot_hist_store_witness :
  let h := hist_1d (F64.nan, F64.one) (S754_infinity false, F64.one) in
  let s := (new_hist h module_state).2 in
  let s1 := (plot_hist (One 4) 100 ∅ s).2 in
  hists s1 = <[4 := nan_to_num_hist h]> (hists s) /\
  values (nan_to_num_hist h) = [F64.zero; F64.max_float] /\
  variances (nan_to_num_hist h) = [F64.one; F64.one] /\
  forall ax' kw', hists (plot_hist (One 4) ax' kw' s1).2 = hists s1.
Proof.
  intros h s. apply (plot_hist_store 4 h 100 ∅ s); [reflexivity|discriminate].
Defined.
(** ** Keyword arguments of plot_error_hist *)

Lemma kw_merge_lookup_r explicit splat kw k :
  kw_merge explicit splat = Ok kw -> k ∉ explicit.*1 -> kw !! k = splat !! k.
Proof.
  intros ->%kw_merge_Ok Hk. apply lookup_union_r.
  by apply not_elem_of_list_to_map_1.
Qed.

(** X18.  A call of [plot_error_hist] that returns has drawn one
    [errorbar] on the axes given, in which the keyword arguments of the
    caller take precedence: a [yerr] that is given replaces the
    uncertainties of the histogram (the square roots of the variances, or
    the asymmetrical ones), a [fmt] that is given replaces ["."], and
    every other keyword argument is forwarded as it is. *)
Theorem plot_error_hist_keywords `{Comparison} r ax kw s u s' :
  plot_error_hist r ax kw s = (Ok u, s') ->
  let h := deref s r in
  let kind := default (PStr "symmetrical") (kw !! "uncertainty_type") in
  exists drawn,
    calls s' = drawn :: calls s /\
    receiver drawn = Some ax /\ method drawn = "errorbar" /\
    match kw !! "yerr" with
    | Some v => kwargs drawn !! "yerr" = Some v
    | None =>
        if py_eq_str kind "symmetrical"
        then kwargs drawn !! "yerr" = Some (PArr (F64.sqrt <$> variances h))
        else exists lo hi,
               get_asymmetrical_uncertainties h = Ok (lo, hi) /\
               kwargs drawn !! "yerr" = Some (PList [PArr lo; PArr hi])
    end /\
    kwargs drawn !! "fmt" = Some (default (PStr ".") (kw !! "fmt")) /\
    forall k, k ∉ ["x"; "y"; "yerr"; "fmt"; "uncertainty_type"] ->
              kwargs drawn !! k = kw !! k.
Proof.
  unfold plot_error_hist. cbv zeta. intros Hrun.
  inv_step Hrun as [] Hty. inv_step Hrun as h Hh. subst h.
  inv_step Hrun as kw1 Hm1. inv_step Hrun as a Ha.
  unfold ext_call, emit in Hrun.
  unfold mbind, M_bind, mret, M_ret, bind, ret, raise, lift in Hrun. simpl in Hrun.
  destruct (kw_merge _ _) as [kw'|] eqn:Hkw; [|discriminate].
  injection Hrun as _ <-.
  assert (s0 = s /\
          match (delete "uncertainty_type" kw : gmap string pyval) !! "yerr" with
          | Some v => kw1 = delete "uncertainty_type" kw
          | None =>
              if py_eq_str (default (PStr "symmetrical") (kw !! "uncertainty_type"))
                   "symmetrical"
              then kw1 = <["yerr" := PArr (F64.sqrt <$> variances (deref s r))]>
                           (delete "uncertainty_type" kw)
              else exists lo hi,
                     get_asymmetrical_uncertainties (deref s r) = Ok (lo, hi) /\
                     kw1 = <["yerr" := PList [PArr lo; PArr hi]]>
                             (delete "uncertainty_type" kw)
          end) as [-> Hkw1].
  { destruct (py_eq_str _ _).
    - unfold mret, M_ret, ret in Hm1. injection Hm1 as <- <-. split; [done|].
      unfold setdefault. by destruct (_ !! "yerr").
    - inv_step Hm1 as [lo hi] Hasym. unfold mret, M_ret, ret in Hm1.
      injection Hm1 as <- <-. split; [done|].
      unfold setdefault. destruct (_ !! "yerr"); [done|]. by exists lo, hi. }
  rewrite lookup_delete_ne in Hkw1 by done.
  eexists. split; [reflexivity|]. simpl. split; [done|]. split; [done|].
  split; [|split].
  - rewrite (kw_merge_lookup_r _ _ _ "yerr" Hkw)
      by (simpl; rewrite !not_elem_of_cons; split_and!; try done; apply not_elem_of_nil).
    rewrite lookup_setdefault. case_decide; [done|].
    destruct (kw !! "yerr") as [v|] eqn:Hy.
    + subst kw1. by rewrite lookup_delete_ne.
    + destruct (py_eq_str _ _).
      * subst kw1. by rewrite lookup_insert_eq.
      * destruct Hkw1 as (lo & hi & ? & ->). exists lo, hi. by rewrite lookup_insert_eq.
  - rewrite (kw_merge_lookup_r _ _ _ "fmt" Hkw)
      by (simpl; rewrite !not_elem_of_cons; split_and!; try done; apply not_elem_of_nil).
    rewrite lookup_setdefault. case_decide; [|done]. do 2 f_equal.
    destruct (kw !! "yerr") as [v|] eqn:Hy.
    + subst kw1. by rewrite lookup_delete_ne.
    + destruct (py_eq_str _ _).
      * subst kw1. by rewrite lookup_insert_ne, lookup_delete_ne.
      * destruct Hkw1 as (lo & hi & ? & ->). by rewrite lookup_insert_ne, lookup_delete_ne.
  - intros k Hk. rewrite !not_elem_of_cons in Hk. destruct Hk as (? & ? & ? & ? & ? & _).
    rewrite (kw_merge_lookup_r _ _ _ k Hkw)
      by (simpl; rewrite !not_elem_of_cons; split_and!; try done; apply not_elem_of_nil).
    rewrite lookup_setdefault. case_decide; [done|].
    destruct (kw !! "yerr") as [v|] eqn:Hy.
    + subst kw1. by rewrite lookup_delete_ne.
    + destruct (py_eq_str _ _).
      * subst kw1. by rewrite lookup_insert_ne, lookup_delete_ne.
      * destruct Hkw1 as (lo & hi & ? & ->). by rewrite lookup_insert_ne, lookup_delete_ne.
Qed.

Lemma plot_error_hist_keywords_witness :
  let H := sample_comparison in
  let s := (new_hist (hist_1d one_cell one_cell) module_state).2 in
  let kw : gmap string pyval :=
    list_to_map [("yerr", PArr [F64.half; F64.half]); ("color", PStr "red")] in
  let s' := (plot_error_hist 4 100 kw s).2 in
  exists drawn,
    calls s' = drawn :: calls s /\
    receiver drawn = Some 100 /\ method drawn = "errorbar" /\
    kwargs drawn !! "yerr" = Some (PArr [F64.half; F64.half]) /\
    kwargs drawn !! "fmt" = Some (PStr ".") /\
    forall k, k ∉ ["x"; "y"; "yerr"; "fmt"; "uncertainty_type"] ->
              kwargs drawn !! k = kw !! k.
Proof.
  intros H s kw s'.
  apply (plot_error_hist_keywords (H := H) 4 100 kw s tt s').
  vm_compute. reflexivity.
Defined.
(** ** Arguments that make a call fail *)

(** X19.  The labels of [plot_comparison] have to be strings: with an
    [h1_label] or [h2_label] that is not one (such as [None]), the search
    for the text between dollar signs raises [TypeError], before the
    binning is checked or anything is drawn. *)
Theorem plot_comparison_label_type `{Libraries} `{Comparison} hist_1 hist_2 ax kw k v s :
  k = "h1_label" \/ k = "h2_label" -> kw !! k = Some v -> (forall t, v <> PStr t) ->
  plot_comparison hist_1 hist_2 ax kw s = (Raise TypeError, s).
Proof.
  intros Hk Hv Hstr. unfold plot_comparison. cbv zeta.
  assert (_get_math_text v = Raise TypeError) as Hraise.
  { destruct v; try done. by destruct (Hstr s0). }
  rewrite run_bind, run_lift. destruct Hk as [->| ->].
  - unfold kw_get at 1. rewrite Hv. simpl. by rewrite Hraise.
  - destruct (_get_math_text (kw_get "h1_label" _ kw)) as [l1|e] eqn:E1.
    + rewrite run_bind, run_lift. unfold kw_get at 1. rewrite Hv. simpl. by rewrite Hraise.
    + unfold _get_math_text in E1. destruct (kw_get "h1_label" _ kw); congruence.
Qed.

Lemma plot_comparison_label_type_witness :
  let H := sample_libraries in
  let H0 := sample_comparison in
  let s := (a ← new_hist (hist_1d one_cell one_cell);
            new_hist (hist_1d one_cell one_cell)) module_state in
  plot_comparison 4 5 100 (list_to_map [("h2_label", PNone)]) s.2
  = (Raise TypeError, s.2).
Proof.
  intros H H0 s.
  apply (plot_comparison_label_type (H := H) (H0 := H0) 4 5 100
           (list_to_map [("h2_label", PNone)]) "h2_label" PNone s.2);
    [by right|reflexivity|discriminate].
Defined.

Lemma never_raise {A} e : never_returns (@raise A e).
Proof. intros s. by exists e. Qed.
Lemma never_lift {A} e : never_returns (lift (@Raise A e)).
Proof. intros s. by exists e. Qed.
Lemma never_bind_l {A B} (m : M A) (k : A -> M B) :
  never_returns m -> never_returns (x ← m; k x).
Proof. intros Hm s. rewrite run_bind. destruct (Hm s) as [e He].
  destruct (m s) as [[a|e'] s1]; simpl in *; [done|]. by exists e'. Qed.
Lemma never_bind_r {A B} (m : M A) (k : A -> M B) :
  (forall a, never_returns (k a)) -> never_returns (x ← m; k x).
Proof.
  intros Hk s. rewrite run_bind. destruct (m s) as [[a|e] s1]; [apply Hk|by exists e].
Qed.
Lemma never_bind_post {A B} (Q : A -> Prop) (m : M A) (k : A -> M B) :
  (forall s a, (m s).1 = Ok a -> Q a) -> (forall a, Q a -> never_returns (k a)) ->
  never_returns (x ← m; k x).
Proof.
  intros Hm Hk s. rewrite run_bind. specialize (Hm s).
  destruct (m s) as [[a|e] s1]; [apply Hk; by apply Hm|by exists e].
Qed.

Lemma kw_reject_Some keys (kw : gmap string pyval) k v :
  k ∈ keys -> kw !! k = Some v -> kw_reject keys kw = Raise TypeError.
Proof.
  intros Hk Hv. unfold kw_reject.
  destruct (existsb _ keys) eqn:E; [done|].
  apply not_true_iff_false in E. destruct E. apply existsb_exists.
  exists k. split; [by apply list_elem_of_In|]. by rewrite Hv.
Qed.

Lemma kw_merge_Some explicit (splat : gmap string pyval) k v :
  k ∈ explicit.*1 -> splat !! k = Some v -> kw_merge explicit splat = Raise TypeError.
Proof.
  intros Hk Hv. unfold kw_merge.
  destruct (existsb _ explicit) eqn:E; [done|].
  apply not_true_iff_false in E. destruct E. apply existsb_exists.
  apply list_elem_of_fmap in Hk as ([k' w] & Hkk & Hin). simpl in Hkk. subst k.
  exists (k', w). split; [by apply list_elem_of_In|]. simpl. by rewrite Hv.
Qed.

Section Rejected.
Context `{Libraries} `{Comparison}.

(** X20.  The kind of uncertainty of the data is not for the caller to
    choose: [compare_data_model] hands [hist_1_uncertainty] to
    [plot_comparison] itself, so that the same keyword among the
    [comparison_kwargs] is given twice and the call never returns.  The
    same holds for [hist_1], [hist_2] and [ax]; and [compare_data_mc]
    passes its [comparison_kwargs] on. *)
Theorem compare_data_model_rejected_keywords k v kw :
  k ∈ ["hist_1_uncertainty"; "hist_1"; "hist_2"; "ax"] -> kw !! k = Some v ->
  (forall dh m xlabel ylabel dl sk flatten mu mul fig am ac,
     never_returns (compare_data_model dh m xlabel ylabel dl sk flatten mu mul
                      fig am ac kw)) /\
  (forall dh mc signal xlabel ylabel l c sl sc dl flatten stacked mu mul fig am ac,
     never_returns (compare_data_mc dh mc signal xlabel ylabel l c sl sc dl flatten
                      stacked mu mul fig am ac kw)).
Proof.
  intros Hk Hv.
  assert ("h1_label" <> k /\ "h2_label" <> k /\ "comparison" <> k /\
          "ratio_uncertainty" <> k /\ "comparison_ylabel" <> k) as Hne.
  { rewrite !elem_of_cons in Hk.
    destruct Hk as [->|[->|[->|[->|[]%elem_of_nil]]]]; done. }
  assert (forall dh m xlabel ylabel dl sk flatten mu mul fig am ac,
            never_returns (compare_data_model dh m xlabel ylabel dl sk flatten mu mul
                             fig am ac kw)) as Hmodel.
  { intros. unfold compare_data_model. cbv zeta.
    set (ck := setdefault "ratio_uncertainty" _ _).
    assert (ck !! k = Some v) as Hck.
    { subst ck. rewrite !lookup_setdefault.
      destruct Hne as (? & ? & ? & ? & _). repeat (case_decide; [done|]). done. }
    clearbody ck.
    do 3 (apply never_bind_r; intros ?).
    case_bool_decide; [apply never_raise|].
    do 2 (apply never_bind_r; intros ?).
    apply never_bind_r; intros [[fig' am'] ac'].
    do 6 (apply never_bind_r; intros ?).
    apply (never_bind_post (fun ck' => ck' !! k = Some v)).
    { intros s ck'. destruct mu.
      - rewrite run_bind. destruct (plot_hist_uncertainties _ _ _ s) as [[[]|e] s1];
          [|done]. by intros [= <-].
      - rewrite run_bind, run_lift. destruct (py_getitem _ ck) as [c|e]; [|done].
        destruct (py_eq_str c "pull"); [|by intros [= <-]].
        rewrite run_bind, run_lift. destruct (py_getitem _ ck) as [h1|e]; [|done].
        rewrite run_bind, run_lift. destruct (py_getitem _ ck) as [h2|e]; [|done].
        intros [= <-]. rewrite lookup_setdefault.
        destruct Hne as (_ & _ & _ & _ & ?). by case_decide. }
    intros ck' Hck'. apply never_bind_r; intros _.
    apply elem_of_cons in Hk as [->|Hk].
    - apply never_bind_r; intros _. apply never_bind_l.
      erewrite kw_merge_Some; [apply never_lift| |done]. simpl. by right; left.
    - apply never_bind_l. erewrite kw_reject_Some; [apply never_lift|done..]. }
  split; [done|]. intros. unfold compare_data_mc. cbv zeta.
  do 3 (apply never_bind_r; intros ?). apply never_bind_l, Hmodel.
Qed.
End Rejected.

Lemma compare_data_model_rejected_keywords_witness :
  let H := sample_libraries in
  let H0 := sample_comparison in
  never_returns
    (compare_data_model 4 (mkModel [5] PNone PNone [] PNone PNone) PNone PNone
       (PStr "Data") compare_data_model_model_sum_kwargs false true (PStr "unc.")
       None None None (list_to_map [("hist_1_uncertainty", PStr "symmetrical")])).
Proof.
  intros H H0.
  refine (proj1 (compare_data_model_rejected_keywords (H := H) (H0 := H0)
                   "hist_1_uncertainty" (PStr "symmetrical")
                   (list_to_map [("hist_1_uncertainty", PStr "symmetrical")]) _ _)
            4 (mkModel [5] PNone PNone [] PNone PNone) PNone PNone
            (PStr "Data") compare_data_model_model_sum_kwargs false true (PStr "unc.")
            None None None).
  - by left.
  - reflexivity.
Defined.
(** ** The sum of the model components *)

Lemma mapM_length {A B} (f : A -> M B) l s l' s' :
  mapM f l s = (Ok l', s') -> length l' = length l.
Proof.
  revert s l' s'. induction l as [|a l IH]; intros s l' s'; simpl.
  - by intros [= <- _].
  - intros Hrun. inv_step Hrun as b Hb. inv_step Hrun as bs Hbs.
    unfold mret, M_ret, ret in Hrun. injection Hrun as <- _. simpl. f_equal. by eapply IH.
Qed.

Lemma count_method_app meth l1 l2 :
  count_method meth (l1 ++ l2) = count_method meth l1 + count_method meth l2.
Proof. unfold count_method. by rewrite filter_app, length_app. Qed.

Lemma count_method_not_hist l : Forall not_hist l -> count_method "hist" l = 0.
Proof.
  unfold count_method. induction 1 as [|c l Hc _ IH]; [done|].
  by rewrite filter_cons_False.
Qed.

Lemma hist_calls_trans n k s1 s2 s3 :
  hist_calls n s1 s2 -> hist_calls k s2 s3 -> hist_calls (n + k) s1 s3.
Proof.
  intros (l1 & H1 & Hn) (l2 & H2 & Hk). exists (l2 ++ l1)%list.
  split; [by rewrite H2, H1, app_assoc|]. rewrite count_method_app. lia.
Qed.

Lemma hist_calls_refl s : hist_calls 0 s s.
Proof. by exists []. Qed.

Lemma new_calls_app s s' l : calls s' = (l ++ calls s)%list -> new_calls s s' = l.
Proof.
  intros Hl. unfold new_calls. rewrite Hl, length_app.
  replace (length l + length (calls s) - length (calls s)) with (length l) by lia.
  by rewrite take_app_length.
Qed.

Lemma within_frame {A} n0 P D X (Q : A -> Prop) (m : M A) s r s' :
  within n0 P D X Q m -> n0 <= next_id s -> m s = (r, s') -> frame P D X s s'.
Proof. intros Hm Hs Hrun. by eapply within_run in Hm as [? _]. Qed.

(** A step that calls the plotting library for other things than
    [ax.hist], and changes no dictionary. *)
Lemma not_hist_run {A} (m : M A) s r s' :
  within 0 not_hist none any any m -> m s = (r, s') ->
  dicts s' = dicts s /\ hist_calls 0 s s'.
Proof.
  intros Hm Hrun. eapply within_run in Hm as [Hf _]; [|lia|done].
  split; [by eapply frame_dicts_same|].
  destruct Hf as ((l & Hl & HP) & _). exists l. split; [done|].
  by apply count_method_not_hist.
Qed.

(** [plot_hist] that returns has called [ax.hist] once. *)
Lemma plot_hist_run hist ax kw s u s' :
  plot_hist hist ax kw s = (Ok u, s') -> dicts s' = dicts s /\ hist_calls 1 s s'.
Proof.
  intros Hrun. split.
  { apply (frame_dicts_same any any).
    eapply (within_frame 0); [|apply Nat.le_0_l|done].
    apply within_plot_hist; frame_side. }
  destruct hist as [r|rs].
  - apply plot_hist_One_run in Hrun as (a & drawn & _ & Hc & _ & Hm & _).
    exists [drawn]. split; [done|]. unfold count_method.
    by rewrite filter_cons_True.
  - unfold plot_hist in Hrun.
    inv_step Hrun as hs Hhs.
    assert (calls s0 = calls s) as Hc0.
    { apply (frame_calls_same none any).
      eapply (within_frame 0); [|apply Nat.le_0_l|done].
      apply within_get_hists. }
    inv_step Hrun as [] Hcheck. inv_step Hrun as x Hx.
    assert (calls s1 = calls s0) as Hc1.
    { apply (frame_calls_same none any).
      eapply (within_frame 0); [|apply Nat.le_0_l|done].
      solve_within. }
    inv_step Hrun as bins Hbins.
    assert (calls s2 = calls s1) as Hc2.
    { apply (frame_calls_same none any).
      eapply (within_frame 0); [|apply Nat.le_0_l|done].
      solve_within. }
    inv_step Hrun as ws Hws.
    assert (calls s3 = calls s2) as Hc3.
    { apply (frame_calls_same none any).
      eapply (within_frame 0); [|apply Nat.le_0_l|done].
      solve_within. }
    unfold ext_call, emit in Hrun.
    unfold mbind, M_bind, mret, M_ret, bind, ret, raise, lift in Hrun. simpl in Hrun.
    destruct (kw_merge _ _) as [kw'|]; [|discriminate]. injection Hrun as Hrun.
    subst s'. eexists [_]. split; [simpl; by rewrite Hc3, Hc2, Hc1, Hc0|].
    unfold count_method. by rewrite filter_cons_True.
Qed.

(** What a call of [plot_model] with unstacked components has done when it
    returns. *)
Lemma plot_model_unstacked_run m xlabel ylabel sk flatten leg_ncol fig ax s r s' :
  plot_model m xlabel ylabel sk flatten leg_ncol fig ax s = (Ok r, s') ->
  unstacked_components m <> [] ->
  let d := default ∅ (dicts s !! sk) in
  let show := truthy (default (PBool true) (d !! "show")) in
  dicts s' = <[sk := delete "show" d]> (dicts s) /\
  hist_calls ((if bool_decide (stacked_components m = []) then 0 else 1) + 1
              + (if show then 1 else 0)) s s' /\
  (show = true ->
   kw_reject ["hist"; "ax"] (delete "show" d) = Ok tt /\
   exists kw, kw_merge [("histtype", PStr "step")] (delete "show" d) = Ok kw).
Proof.
  unfold plot_model. cbv zeta. intros Hrun Hne.
  apply bind_Ok_inv in Hrun as (st & s1 & Hst & Hrun).
  apply bind_Ok_inv in Hrun as (un & s2 & Hun & Hrun).
  assert (length st = length (stacked_components m)) as Hlst.
  { destruct flatten; [by eapply mapM_length|].
    unfold mret, M_ret, ret in Hst. by injection Hst as <- _. }
  assert (length un = length (unstacked_components m)) as Hlun.
  { destruct flatten; [by eapply mapM_length|].
    unfold mret, M_ret, ret in Hun. by injection Hun as <- _. }
  apply not_hist_run in Hst as [Hd1 Hc1]; [|solve_within].
  apply not_hist_run in Hun as [Hd2 Hc2]; [|solve_within].
  case_bool_decide; [discriminate|].
  apply bind_Ok_inv in Hrun as (hs & s3 & Hhs & Hrun).
  apply not_hist_run in Hhs as [Hd3 Hc3]; [|solve_within].
  inv_step Hrun as [] Hcheck.
  apply bind_Ok_inv in Hrun as ([fig' ax'] & s4 & Hfig & Hrun).
  apply not_hist_run in Hfig as [Hd4 Hc4]; [|solve_within].
  apply bind_Ok_inv in Hrun as ([] & s5 & Hstacked & Hrun).
  assert (dicts s5 = dicts s4 /\
          hist_calls (if bool_decide (stacked_components m = []) then 0 else 1) s4 s5)
    as [Hd5 Hc5].
  { destruct (decide (0 < length st)) as [Hpos|Hpos].
    - rewrite bool_decide_eq_true_2 in Hstacked by done.
      apply plot_hist_run in Hstacked as [? ?].
      rewrite bool_decide_eq_false_2; [done|]. intros E. rewrite E in Hlst. simpl in Hlst. lia.
    - rewrite bool_decide_eq_false_2 in Hstacked by done.
      unfold mret, M_ret, ret in Hstacked. injection Hstacked as <-.
      rewrite bool_decide_eq_true_2; [split; [done|apply hist_calls_refl]|].
      destruct (stacked_components m); [done|]. simpl in Hlst. lia. }
  apply bind_Ok_inv in Hrun as ([] & s6 & Hunstacked & Hrun).
  apply not_hist_run in Hrun as [Hd7 Hc7]; [|solve_within].
  rewrite bool_decide_eq_true_2 in Hunstacked
    by (destruct (unstacked_components m); [done|simpl in Hlun; lia]).
  apply bind_Ok_inv in Hunstacked as ([] & s7 & Hdraw & Hsum).
  apply plot_hist_run in Hdraw as [Hd6 Hc6].
  inv_step Hsum as d Hd. rewrite run_get_dict in Hd. injection Hd as <- <-.
  unfold pop in Hsum.
  apply bind_Ok_inv in Hsum as ([] & s8 & Hset & Hsum).
  injection Hset as <-.
  assert (dicts s7 = dicts s) as Hds by congruence.
  rewrite Hds in Hsum.
  assert (hist_calls ((if bool_decide (stacked_components m = []) then 0 else 1) + 1)
            s s7) as Hcs.
  { pose proof (hist_calls_trans _ _ _ _ _ Hc1 Hc2) as T.
    pose proof (hist_calls_trans _ _ _ _ _ T Hc3) as T'. clear T.
    pose proof (hist_calls_trans _ _ _ _ _ T' Hc4) as T. clear T'.
    pose proof (hist_calls_trans _ _ _ _ _ T Hc5) as T'. clear T.
    pose proof (hist_calls_trans _ _ _ _ _ T' Hc6) as T. clear T'.
    by rewrite !Nat.add_0_l in T. }
  cbv zeta.
  destruct (truthy (default (PBool true) (default ∅ (dicts s !! sk) !! "show"))) eqn:Hshow.
  - apply bind_Ok_inv in Hsum as (total & s9 & Htotal & Hsum).
    apply not_hist_run in Htotal as [Hd9 Hc9]; [|solve_within].
    inv_step Hsum as [] Hrej. inv_step Hsum as kw Hkw.
    apply plot_hist_run in Hsum as [Hd10 Hc10].
    split; [|split].
    + by rewrite Hd7, Hd10, Hd9.
    + replace (_ + 1 + 1) with
        ((if bool_decide (stacked_components m = []) then 0 else 1) + 1 + 0 + 1 + 0)
        by lia.
      eapply hist_calls_trans; [|exact Hc7].
      eapply hist_calls_trans; [|exact Hc10].
      eapply hist_calls_trans; [exact Hcs|]. destruct Hc9 as (l & Hl & Hn).
      exists l. by split.
    + intros _. split; [done|]. by exists kw.
  - unfold mret, M_ret, ret in Hsum. injection Hsum as <-.
    split; [|split].
    + by rewrite Hd7.
    + replace (_ + 1 + 0) with
        ((if bool_decide (stacked_components m = []) then 0 else 1) + 1 + 0) by lia.
      eapply hist_calls_trans; [|exact Hc7].
      destruct Hcs as (l & Hl & Hn). exists l. by split.
    + done.
Qed.

(** X21.  What the key ["show"] of [sum_kwargs] does.  When [plot_model]
    returns for a model with unstacked components, it has called
    [ax.hist] once for the stacked components if there are any, once for
    the unstacked ones, and once more for their sum exactly when
    ["show"] is true or absent; and it has removed ["show"] from the
    dictionary it was given, leaving its other entries and all other
    dictionaries as they were. *)
Theorem plot_model_show m xlabel ylabel sk flatten leg_ncol fig ax s r s' :
  plot_model m xlabel ylabel sk flatten leg_ncol fig ax s = (Ok r, s') ->
  unstacked_components m <> [] ->
  let d := default ∅ (dicts s !! sk) in
  dicts s' = <[sk := delete "show" d]> (dicts s) /\
  count_method "hist" (new_calls s s')
  = (if bool_decide (stacked_components m = []) then 0 else 1) + 1
    + (if truthy (default (PBool true) (d !! "show")) then 1 else 0).
Proof.
  intros Hrun Hne d.
  destruct (plot_model_unstacked_run _ _ _ _ _ _ _ _ _ _ _ Hrun Hne)
    as (Hd & (l & Hl & Hn) & _).
  split; [done|]. by rewrite (new_calls_app s s' l).
Qed.

Lemma plot_model_show_witness :
  let m := mkModel [] PNone PNone [4] PNone PNone in
  let s := (h ← new_hist (hist_1d one_cell one_cell); new_dict hidden_sum) module_state in
  let s' := (plot_model m PNone PNone 5 false (num 1) (Some 100) (Some 101) s.2).2 in
  let d := default ∅ (dicts s.2 !! 5) in
  dicts s' = <[5 := delete "show" d]> (dicts s.2) /\
  count_method "hist" (new_calls s.2 s')
  = (if bool_decide (stacked_components m = []) then 0 else 1) + 1
    + (if truthy (default (PBool true) (d !! "show")) then 1 else 0).
Proof.
  intros m s s'.
  apply (plot_model_show m PNone PNone 5 false (num 1) (Some 100) (Some 101) s.2
           (100, 101) s').
  - vm_compute. reflexivity.
  - discriminate.
Defined.

(** X22.  The sum is drawn with [histtype="step"]: a [sum_kwargs] that
    holds ["histtype"] (or ["hist"], or ["ax"]) gives the keyword twice,
    so that [plot_model] never returns when there are unstacked
    components and the sum is to be shown. *)
Theorem plot_model_sum_keyword_conflict m xlabel ylabel sk flatten leg_ncol fig ax s k v :
  k ∈ ["histtype"; "hist"; "ax"] -> dict_at s sk k = Some v ->
  unstacked_components m <> [] ->
  truthy (default (PBool true) (dict_at s sk "show")) = true ->
  exists e, (plot_model m xlabel ylabel sk flatten leg_ncol fig ax s).1 = Raise e.
Proof.
  unfold dict_at. intros Hk Hv Hne Hshow.
  destruct (plot_model m xlabel ylabel sk flatten leg_ncol fig ax s) as [[r|e] s'] eqn:Hrun;
    [|by exists e].
  destruct (plot_model_unstacked_run _ _ _ _ _ _ _ _ _ _ _ Hrun Hne) as (_ & _ & Hkw).
  destruct (Hkw Hshow) as (Hrej & kw & Hmerge).
  assert ((delete "show" (default ∅ (dicts s !! sk)) : gmap string pyval) !! k = Some v)
    as Hv'.
  { rewrite lookup_delete_ne; [done|]. intros <-.
    rewrite !elem_of_cons in Hk. destruct Hk as [|[|[|[]%elem_of_nil]]]; done. }
  apply elem_of_cons in Hk as [->|Hk].
  - erewrite kw_merge_Some in Hmerge; [done| |done]. by left.
  - erewrite kw_reject_Some in Hrej; [done|done..].
Qed.

Lemma plot_model_sum_keyword_conflict_witness :
  let m := mkModel [] PNone PNone [4] PNone PNone in
  let s := (h ← new_hist (hist_1d one_cell one_cell);
            new_dict (list_to_map [("histtype", PStr "stepfilled")])) module_state in
  exists e, (plot_model m PNone PNone 5 false (num 1) (Some 100) (Some 101) s.2).1
            = Raise e.
Proof.
  intros m s.
  apply (plot_model_sum_keyword_conflict m PNone PNone 5 false (num 1) (Some 100)
           (Some 101) s.2 "histtype" (PStr "stepfilled")).
  - by left.
  - reflexivity.
  - discriminate.
  - reflexivity.
Defined.

(** ** plot_2d_hist_with_projections *)

Lemma run_bind_Ok {A B} (m : M A) (k : A -> M B) s a s1 :
  m s = (Ok a, s1) -> (x ← m; k x) s = k a s1.
Proof. intros Hm. by rewrite run_bind, Hm. Qed.

Lemma passes_ret {A} (a : A) : passes (mret a).
Proof. intros s. by exists a, s. Qed.
Lemma passes_bind {A B} (m : M A) (k : A -> M B) :
  passes m -> (forall a, passes (k a)) -> passes (x ← m; k x).
Proof.
  intros Hm Hk s. destruct (Hm s) as (a & s1 & Hrun & Hd).
  destruct (Hk a s1) as (b & s2 & Hrun' & Hd').
  exists b, s2. split; [by rewrite (run_bind_Ok _ _ _ _ _ Hrun)|congruence].
Qed.
Lemma passes_fresh : passes fresh.
Proof. intros s. by eexists _, _. Qed.
Lemma passes_emit c : passes (emit c).
Proof. intros s. by eexists _, _. Qed.
Lemma kw_merge_empty explicit : kw_merge explicit ∅ = Ok (list_to_map explicit ∪ ∅).
Proof.
  unfold kw_merge. destruct (existsb _ explicit) eqn:E; [|done].
  apply existsb_exists in E as (kv & _ & Hkv). by rewrite lookup_empty in Hkv.
Qed.
Lemma passes_ext_call recv meth pos explicit : passes (ext_call recv meth pos explicit ∅).
Proof.
  intros s. unfold ext_call. rewrite run_bind, run_lift, kw_merge_empty. by eexists _, _.
Qed.
Lemma passes_mapM {A B} (f : A -> M B) (l : list A) :
  (forall a, passes (f a)) -> passes (mapM f l).
Proof.
  intros Hf. induction l as [|a l IH]; simpl; [apply passes_ret|].
  apply passes_bind; [done|]. intros b. apply passes_bind; [done|]. intros bs.
  apply passes_ret.
Qed.
Lemma passes_add_subplot fig gs rows cols : passes (add_subplot fig gs rows cols).
Proof.
  unfold add_subplot.
  repeat first [apply passes_bind; [|intros ?] | apply passes_fresh | apply passes_emit
               | apply passes_ret].
Qed.

Lemma mapM_fresh_run (n : nat) s :
  exists axs s', mapM (fun _ : unit => fresh) (replicate n tt) s = (Ok axs, s')
    /\ length axs = n /\ dicts s' = dicts s /\ calls s' = calls s.
Proof.
  revert s. induction n as [|n IH]; intros s; simpl.
  - by exists [], s.
  - rewrite run_bind, run_fresh, run_bind.
    destruct (IH (bump s)) as (axs & s' & -> & Hlen & Hd & Hc).
    exists (next_id s :: axs), s'. simpl. repeat split; [by rewrite Hlen|done..].
Qed.

Lemma plt_subplots_run n kw s :
  n <> 0 ->
  exists fig axs s1,
    plt_subplots n kw s = (Ok (fig, axs), s1) /\ length axs = n /\ dicts s1 = dicts s.
Proof.
  intros Hn. unfold plt_subplots. rewrite bool_decide_eq_false_2 by done.
  rewrite run_bind, run_fresh, run_bind.
  destruct (mapM_fresh_run n (bump s)) as (axs & s' & -> & Hlen & Hd & _).
  eexists _, _, _. split; [reflexivity|]. by split.
Qed.

Lemma dicts_bind_passes {A B} (m : M A) (k : A -> M B) s G :
  passes m -> (forall a s1, dicts s1 = dicts s -> dicts (k a s1).2 = G) ->
  dicts ((x ← m; k x) s).2 = G.
Proof.
  intros Hm Hk. destruct (Hm s) as (a & s1 & Hrun & Hd).
  rewrite (run_bind_Ok _ _ _ _ _ Hrun). by apply Hk.
Qed.

Lemma dicts_bind_within {A B} (m : M A) (k : A -> M B) s :
  (forall a, within 0 any none any any (k a)) ->
  dicts ((x ← m; k x) s).2 = dicts (m s).2.
Proof.
  intros Hk. rewrite run_bind. destruct (m s) as [[a|e] s1]; [|done]. simpl.
  apply (frame_dicts_same any any). apply (Hk a s1). lia.
Qed.

Lemma dicts_bind_plt_subplots {B} n kw (k : nat * list nat -> M B) s G :
  n <> 0 ->
  (forall fig axs s1, length axs = n -> dicts s1 = dicts s ->
                      dicts (k (fig, axs) s1).2 = G) ->
  dicts ((x ← plt_subplots n kw; k x) s).2 = G.
Proof.
  intros Hn Hk. destruct (plt_subplots_run n kw s Hn) as (fig & axs & s1 & Hrun & ? & ?).
  rewrite (run_bind_Ok _ _ _ _ _ Hrun). by apply Hk.
Qed.

Lemma nine {A} (l : list A) :
  length l = 9 -> exists a b c d e f g h i, l = [a; b; c; d; e; f; g; h; i].
Proof.
  intros Hl. do 9 (destruct l as [|? l]; [discriminate|]).
  destruct l; [|discriminate]. by eexists _, _, _, _, _, _, _, _, _.
Qed.


Section Projections.
Context `{Slicing}.

(** X23.  What [plot_2d_hist_with_projections] does to the dictionaries
    it is given, or to the defaults shared by all calls, whether it
    returns or raises: [colorbar_kwargs] receives the entry
    ["label": colorbar_label] unless it has a label, [plot_hist_kwargs]
    the entry ["histtype": "stepfilled"] unless it has one, and
    [pcolormesh_kwargs] the entry ["edgecolors": "face"] unless it has
    one; nothing else is changed in any dictionary. *)
Theorem projections_dictionaries hist xlabel ylabel ylabel_x xlabel_y colorbar_label
    offset pk ck hk s :
  dicts (plot_2d_hist_with_projections hist xlabel ylabel ylabel_x xlabel_y
           colorbar_label offset pk ck hk s).2
  = store_setdefault pk "edgecolors" (PStr "face")
      (store_setdefault hk "histtype" (PStr "stepfilled")
         (store_setdefault ck "label" colorbar_label (dicts s))).
Proof.
  unfold plot_2d_hist_with_projections.
  erewrite run_bind_Ok; [|apply run_get_dict].
  erewrite run_bind_Ok; [|reflexivity].
  erewrite run_bind_Ok; [|apply run_get_dict].
  erewrite run_bind_Ok; [|reflexivity].
  apply dicts_bind_plt_subplots; [done|]. intros fig axs s3 Hlen Hd3.
  apply nine in Hlen as (a00 & a01 & a02 & a10 & a11 & a12 & a20 & a21 & a22 & ->).
  apply dicts_bind_passes.
  { apply passes_mapM. intros a. apply passes_ext_call. }
  intros _ s4 Hd4.
  apply dicts_bind_passes; [apply passes_fresh|]. intros gs s5 Hd5.
  apply dicts_bind_passes; [apply passes_emit|]. intros _ s6 Hd6.
  apply dicts_bind_passes; [apply passes_add_subplot|]. intros ax_x s7 Hd7.
  apply dicts_bind_passes; [apply passes_add_subplot|]. intros ax_y s8 Hd8.
  apply dicts_bind_passes; [apply passes_add_subplot|]. intros ax_c s9 Hd9.
  rewrite dicts_bind_within by (intros; solve_within).
  rewrite plot_2d_hist_dicts.
  assert (dicts s9 = dicts s3) as -> by congruence. rewrite Hd3. reflexivity.
Qed.



End Projections.

